(** * Stock options analyzer: pricing, scoring and chain selection

    A shallow embedding of the pricing/scoring engine of the analyzer
    ([api/index.js], and the older copy of the same server code kept in
    [client/src/App.vue]) together with the properties its specification
    states about it.

    Numbers.  JavaScript numbers are idealised as real numbers: [Math.exp],
    [Math.log] and [Math.sqrt] are the real exponential, logarithm and square
    root, and arithmetic is exact.  [NaN] only shows up where the source can
    create one from well-formed numbers, namely [parseFloat('N/A')]; it is
    modelled by [None] in an [option R].  Absent ([undefined]/[null]) fields
    of provider records are [None] as well. *)

From Stdlib Require Import Reals Lra Psatz Lia ZArith List String Bool.
From Stdlib Require Import Sorted Permutation DecimalString.
Import ListNotations.
Open Scope R_scope.

(** ** The JavaScript primitives the code uses *)

Module Math.
Definition abs (x : R) : R := Rabs x.
Definition sqrt (x : R) : R := R_sqrt.sqrt x.
Definition log (x : R) : R := ln x.
Definition exp (x : R) : R := Rtrigo_def.exp x.
Definition min (x y : R) : R := Rmin x y.
Definition max (x y : R) : R := Rmax x y.
Definition floor (x : R) : Z := Int_part x.
(** [Math.round] rounds half-way cases towards +infinity. *)
Definition round (x : R) : Z := Int_part (x + 0.5).
End Math.

(** [a || b] on a possibly absent number: [undefined], [null] and [0] are
    falsy. *)
Definition truthy (v : option R) : bool :=
  match v with
  | Some x => if Req_dec_T x 0 then false else true
  | None => false
  end.

Definition or_default (v : option R) (d : R) : R :=
  match v with
  | Some x => if Req_dec_T x 0 then d else x
  | None => d
  end.

(** ** Black-Scholes probability calculations *)

Definition normalCDF (x0 : R) : R :=
  let sign := if Rge_dec x0 0 then 1 else -1 in
  let x := Math.abs x0 / Math.sqrt 2 in
  let a1 := 0.254829592 in
  let a2 := -0.284496736 in
  let a3 := 1.421413741 in
  let a4 := -1.453152027 in
  let a5 := 1.061405429 in
  let p := 0.3275911 in
  let t := 1 / (1 + p * x) in
  let y := 1 - (((((a5 * t + a4) * t) + a3) * t + a2) * t + a1) * t
               * Math.exp ((- x) * x) in
  0.5 * (1 + sign * y).

Definition calculateDelta
    (currentPrice strikePrice timeToExpiry riskFreeRate volatility : R)
    (optionType : string) : R :=
  if Rle_dec timeToExpiry 0 then
    if String.eqb optionType "call"
    then (if Rgt_dec currentPrice strikePrice then 1 else 0)
    else (if Rlt_dec currentPrice strikePrice then -1 else 0)
  else
    let S := currentPrice in
    let K := strikePrice in
    let T := timeToExpiry in
    let r := riskFreeRate in
    let sigma := volatility in
    let d1 := (Math.log (S / K) + (r + 0.5 * sigma * sigma) * T)
              / (sigma * Math.sqrt T) in
    if String.eqb optionType "call" then normalCDF d1 else normalCDF d1 - 1.

Record ProbabilityEstimate : Type := {
  original : R;
  enhanced : R
}.

(** The four correction steps of the enhanced probability, in source order.
    [marketDelta] is [None] for [null]/[undefined]. *)
Definition calculateAssignmentProbability
    (currentPrice strikePrice timeToExpiry riskFreeRate volatility : R)
    (marketDelta : option R) : ProbabilityEstimate :=
  if Rle_dec timeToExpiry 0 then
    {| original := if Rle_dec strikePrice currentPrice then 1 else 0;
       enhanced := if Rle_dec strikePrice currentPrice then 1 else 0 |}
  else
    let S := currentPrice in
    let K := strikePrice in
    let T := timeToExpiry in
    let r := riskFreeRate in
    let sigma := volatility in
    let d1 := (Math.log (S / K) + (r + 0.5 * sigma * sigma) * T)
              / (sigma * Math.sqrt T) in
    let d2 := d1 - sigma * Math.sqrt T in
    let originalProb := normalCDF d2 in
    let enhancedProb := originalProb in
    let enhancedProb :=
      match marketDelta with
      | Some delta =>
          let deltaProb := Math.abs delta in
          (originalProb * 0.7) + (deltaProb * 0.3)
      | None => enhancedProb
      end in
    let defaultVol := 0.25 in
    let volAdjustment := Math.min 2.0 (Math.max 0.5 (sigma / defaultVol)) in
    let enhancedProb := enhancedProb * volAdjustment in
    let enhancedProb :=
      if Rlt_dec T (7 / 365) then
        let timeAcceleration := 1 + (0.1 * (7 / 365 - T) / (7 / 365)) in
        enhancedProb * timeAcceleration
      else enhancedProb in
    let moneyness := S / K in
    let enhancedProb :=
      if Rgt_dec moneyness 1.05 then enhancedProb * 1.1
      else if Rgt_dec moneyness 0.95 then
        (if Rle_dec moneyness 1.05 then enhancedProb * 1.05 else enhancedProb)
      else enhancedProb in
    let enhancedProb := Math.max 0 (Math.min 1 enhancedProb) in
    {| original := originalProb; enhanced := enhancedProb |}.

(** ** Goal-based score

    The two copies of the scorer differ only in the two hard-coded return
    targets, which are the parameters of the shared body. *)

Section GoalScore.
Variables weeklyTarget biweeklyTarget : R.

Definition goalBasedScore
    (premium assignmentProbability strike currentPrice daysToExpiry : R)
    : R :=
  let returnPercent := premium / currentPrice in
  let annualizedReturn := (returnPercent * 365) / daysToExpiry in
  let meetsTarget :=
    if Rle_dec daysToExpiry 8 then
      (if Rge_dec returnPercent weeklyTarget then true else false)
    else if Rle_dec daysToExpiry 16 then
      (if Rge_dec returnPercent biweeklyTarget then true else false)
    else false in
  if negb meetsTarget then -1
  else
    let baseScore :=
      returnPercent / (assignmentProbability / 100 + 0.001) in
    let highProbabilityPenalty :=
      if Rgt_dec assignmentProbability 30 then 0.5 else 1 in
    baseScore * highProbabilityPenalty.
End GoalScore.

(** ** Strings that carry numbers

    Every string the engine publishes is either the result of
    [Number.prototype.toFixed] or the literal ['N/A'].  A [toFixed] result
    is kept as its number of fraction digits and the integer it shows once
    the decimal point is dropped, so [Fixed 3 1250] is ["1.250"]. *)

Inductive Text : Type :=
| Fixed (digits : nat) (scaled : Z)
| NA.

(** [toFixed] picks the closest multiple of [10^-digits], the one of larger
    magnitude on a tie; the sign is handled apart. *)
Definition toFixed (x : R) (digits : nat) : Text :=
  if Rlt_dec x 0
  then Fixed digits (- Int_part ((- x) * 10 ^ digits + 0.5))
  else Fixed digits (Int_part (x * 10 ^ digits + 0.5)).

(** [parseFloat]; [None] is [NaN]. *)
Definition parseFloat (t : Text) : option R :=
  match t with
  | Fixed digits n => Some (IZR n / 10 ^ digits)
  | NA => None
  end.

(** Subtraction of two results of [parseFloat]: [NaN] is absorbing. *)
Definition minus (a b : option R) : option R :=
  match a, b with
  | Some x, Some y => Some (x - y)
  | _, _ => None
  end.

(** Pieces of a template literal. *)
Inductive Piece : Type :=
| Lit (s : string)
| Val (t : Text).

Module Num.
Definition leb (x y : R) : bool := if Rle_dec x y then true else false.
Definition geb (x y : R) : bool := if Rge_dec x y then true else false.
Definition ltb (x y : R) : bool := if Rlt_dec x y then true else false.
Definition gtb (x y : R) : bool := if Rgt_dec x y then true else false.
End Num.

(** ** [Array.prototype.sort]

    ECMAScript fixes the result of [sort] for a consistent comparator: the
    stable arrangement in which [a] comes after [b] only if
    [comparefn(a, b) > 0]; a [NaN] result counts as [+0].  Insertion from the
    right computes that arrangement. *)

Section JsSort.
Context {A : Type}.
Variable comparefn : A -> A -> option R.

Definition comesAfter (a b : A) : bool :=
  match comparefn a b with
  | Some v => Num.gtb v 0
  | None => false
  end.

Fixpoint insert (x : A) (l : list A) : list A :=
  match l with
  | [] => [x]
  | y :: l' => if comesAfter x y then y :: insert x l' else x :: y :: l'
  end.

Definition js_sort (l : list A) : list A := fold_right insert [] l.
End JsSort.

(** ** Reading the clock

    [Date.now()] is read again for every derived quantity, so the readings
    are a sequence and a computation threads the number of readings made so
    far. *)

Definition Clocked (A : Type) : Type := nat -> A * nat.

Definition ret {A : Type} (a : A) : Clocked A := fun k => (a, k).

Definition bind {A B : Type} (m : Clocked A) (f : A -> Clocked B)
    : Clocked B :=
  fun k => let (a, k') := m k in f a k'.

Notation "x <- m ;; f" := (bind m (fun x => f))
  (at level 61, m at next level, right associativity).

Definition Date_now (clock : nat -> R) : Clocked R :=
  fun k => (clock k, Datatypes.S k).

Fixpoint mapM {A B : Type} (f : A -> Clocked B) (l : list A)
    : Clocked (list B) :=
  match l with
  | [] => ret []
  | a :: l' => b <- f a ;; bs <- mapM f l' ;; ret (b :: bs)
  end.

(** ** Provider records *)

Module Raw.
Record t : Type := {
  contractSymbol : string;
  strike : R;
  lastPrice : option R;
  bid : option R;
  ask : option R;
  change : option R;
  percentChange : option R;
  volume : option R;
  openInterest : option R;
  impliedVolatility : option R;
  inTheMoney : option bool
}.
End Raw.

(** [chain.options[0]]: the entry of one expiration. *)
Module Opt.
Record t : Type := {
  expirationDate : option R;
  hasMiniOptions : option bool;
  calls : option (list Raw.t);
  puts : option (list Raw.t)
}.
End Opt.

(** An awaited call either throws or returns. *)
Inductive Fetched (A : Type) : Type :=
| Throws (message : string)
| Returns (a : A).
Arguments Throws {A} message.
Arguments Returns {A} a.

Record Provider : Type := {
  (** [quote?.price?.regularMarketPrice], [None] when it is missing or not
      a finite number *)
  quoteSummary : string -> Fetched (option R);
  (** [base?.expirationDates || []], as timestamps in milliseconds *)
  expirationDates : string -> Fetched (list R);
  (** [chain?.options?.[0]] of [yf.options(symbol, { date })] *)
  optionChain : string -> R -> Fetched (option Opt.t)
}.

Record ExpirationResult (C : Type) : Type := {
  expiration : Z;
  calls : list C;
  bestOption : option C;
  bestOptionReason : list Piece;
  hasQualifyingOptions : bool
}.
Arguments expiration {C} _.
Arguments calls {C} _.
Arguments bestOption {C} _.
Arguments bestOptionReason {C} _.
Arguments hasQualifyingOptions {C} _.

Record Payload (C : Type) : Type := {
  symbol : string;
  currentPrice : R;
  otmRange_low : R;
  otmRange_high : R;
  expirations : list (ExpirationResult C)
}.
Arguments symbol {C} _.
Arguments currentPrice {C} _.
Arguments otmRange_low {C} _.
Arguments otmRange_high {C} _.
Arguments expirations {C} _.

Inductive Response (B : Type) : Type :=
| Failure (status : nat) (error : string) (details : option string)
| Json (body : B).
Arguments Failure {B} status error details.
Arguments Json {B} body.

(** ** The body of the loop over target expirations

    From the band filter to [results.push], the two copies of the
    [/api/options-weeks] handler are the same text; they differ in
    [mapOption] and in the fields of the contracts it builds. *)

Section ChainSelector.
Context {C : Type}.
Variable strike : C -> R.
Variable meetsTarget : C -> bool.
Variable goalScore : C -> Text.
Variable reason : C -> list Piece.
Variable mapOption : R -> Raw.t -> Clocked C.
Variables otmLow otmHigh : R.

Definition inBand (call : Raw.t) : bool :=
  Num.geb (Raw.strike call) otmLow && Num.leb (Raw.strike call) otmHigh.

Definition byScoreDescending (a b : C) : option R :=
  minus (parseFloat (goalScore b)) (parseFloat (goalScore a)).

Definition byStrike (a b : C) : option R :=
  Some (strike a - strike b).

Definition selectExpiration (target : R) (opt : Opt.t)
    : Clocked (ExpirationResult C) :=
  allCalls <- mapM (mapOption target)
                (filter inBand
                   (match Opt.calls opt with Some l => l | None => [] end)) ;;
  let qualifyingCalls :=
    js_sort byScoreDescending (filter meetsTarget allCalls) in
  let finalCalls := js_sort byStrike allCalls in
  let bestOption := hd_error qualifyingCalls in
  let bestOptionReason :=
    match bestOption with
    | Some best => reason best
    | None => []
    end in
  ret {| expiration :=
           Math.floor
             (or_default (Opt.expirationDate opt) target / 1000);
         calls := finalCalls;
         bestOption := bestOption;
         bestOptionReason := bestOptionReason;
         hasQualifyingOptions := Nat.ltb 0 (List.length qualifyingCalls) |}.

(** [for (const target of targets)]: a missing entry skips the target, a
    throwing provider call leaves the loop for the [catch]. *)
Fixpoint analyse (chain : R -> Fetched (option Opt.t))
    (targets : list R) (results : list (ExpirationResult C))
    : Clocked (Fetched (list (ExpirationResult C))) :=
  match targets with
  | [] => ret (Returns results)
  | target :: rest =>
      match chain target with
      | Throws message => ret (Throws message)
      | Returns None => analyse chain rest results
      | Returns (Some opt) =>
          r <- selectExpiration target opt ;;
          analyse chain rest (results ++ [r])
      end
  end.
End ChainSelector.

(** The number held by a field, read only under a truthiness guard. *)
Definition number (v : option R) : R :=
  match v with
  | Some x => x
  | None => 0
  end.

(** ** [api/index.js] *)

Module Api.

Module Scored.
Record t : Type := {
  contractSymbol : string;
  strike : R;
  lastPrice : option R;
  bid : option R;
  ask : option R;
  change : option R;
  percentChange : option R;
  volume : option R;
  openInterest : option R;
  impliedVolatility : option R;
  inTheMoney : option bool;
  otmPercent : Text;
  assignmentProbability : Text;
  assignmentProbabilityEnhanced : Text;
  delta : Text;
  premium : Text;
  returnPercent : Text;
  goalScore : Text;
  returnAssignmentRatio : Text;
  returnAssignmentRatioEnhanced : Text;
  meetsTarget : bool;
  targetType : string;
  daysToExpiry : Z
}.
End Scored.

(** Target: 0.1% weekly return or 0.2% bi-weekly return. *)
Definition calculateGoalBasedScore : R -> R -> R -> R -> R -> R :=
  goalBasedScore 0.001 0.002.

Definition bestOptionReason (best : Scored.t) : list Piece :=
  [Lit "Meets "; Lit (Scored.targetType best); Lit " target (";
   Val (Scored.returnPercent best); Lit "% return) with ";
   Val (Scored.assignmentProbability best); Lit "% assignment risk. ";
   Lit "Score: "; Val (Scored.goalScore best);
   Lit " (higher is better for return/risk ratio)."].

Section Handler.
Variable yf : Provider.
Variable clock : nat -> R.
(** [setHours(0, 0, 0, 0)]: local midnight of the day of a timestamp. *)
Variable startOfDay : R -> R.

Definition mapOption (currentPrice target : R) (o : Raw.t)
    : Clocked Scored.t :=
  now1 <- Date_now clock ;;
  let timeToExpiry := (target - now1) / (1000 * 3600 * 24 * 365) in
  now2 <- Date_now clock ;;
  let daysToExpiry := (target - now2) / (1000 * 3600 * 24) in
  let riskFreeRate := 0.045 in
  let volatility := or_default (Raw.impliedVolatility o) 0.25 in
  let theoreticalDelta :=
    calculateDelta currentPrice (Raw.strike o) timeToExpiry riskFreeRate
      volatility "call" in
  let assignmentProbs :=
    calculateAssignmentProbability currentPrice (Raw.strike o)
      timeToExpiry riskFreeRate volatility (Some theoreticalDelta) in
  let premium :=
    if truthy (Raw.bid o) && truthy (Raw.ask o)
    then (number (Raw.bid o) + number (Raw.ask o)) / 2
    else or_default (Raw.lastPrice o) 0 in
  let returnPercent :=
    if Num.gtb premium 0
    then toFixed ((premium / currentPrice) * 100) 3
    else Fixed 3 0 in
  let goalScore :=
    calculateGoalBasedScore premium (enhanced assignmentProbs * 100)
      (Raw.strike o) currentPrice daysToExpiry in
  let originalRatio :=
    if Num.gtb premium 0 && Num.gtb (original assignmentProbs) 0
    then toFixed (((premium / currentPrice) * 100)
                  / (original assignmentProbs * 100)) 3
    else NA in
  let enhancedRatio :=
    if Num.gtb premium 0 && Num.gtb (enhanced assignmentProbs) 0
    then toFixed (((premium / currentPrice) * 100)
                  / (enhanced assignmentProbs * 100)) 3
    else NA in
  let weeklyReturn :=
    if Num.gtb premium 0 then (premium / currentPrice) * 100 else 0 in
  let meetsWeeklyTarget :=
    Num.leb daysToExpiry 8 && Num.geb weeklyReturn 0.1 in
  let meetsBiweeklyTarget :=
    Num.leb daysToExpiry 16 && Num.geb weeklyReturn 0.2 in
  let meetsTarget := meetsWeeklyTarget || meetsBiweeklyTarget in
  let targetType :=
    if meetsWeeklyTarget then "weekly"%string
    else if meetsBiweeklyTarget then "bi-weekly"%string
    else "none"%string in
  ret {| Scored.contractSymbol := Raw.contractSymbol o;
         Scored.strike := Raw.strike o;
         Scored.lastPrice := Raw.lastPrice o;
         Scored.bid := Raw.bid o;
         Scored.ask := Raw.ask o;
         Scored.change := Raw.change o;
         Scored.percentChange := Raw.percentChange o;
         Scored.volume := Raw.volume o;
         Scored.openInterest := Raw.openInterest o;
         Scored.impliedVolatility := Raw.impliedVolatility o;
         Scored.inTheMoney := Raw.inTheMoney o;
         Scored.otmPercent :=
           toFixed ((Raw.strike o - currentPrice) / currentPrice * 100) 2;
         Scored.assignmentProbability :=
           toFixed (original assignmentProbs * 100) 1;
         Scored.assignmentProbabilityEnhanced :=
           toFixed (enhanced assignmentProbs * 100) 1;
         Scored.delta := toFixed (theoreticalDelta * 100) 1;
         Scored.premium := toFixed premium 2;
         Scored.returnPercent := returnPercent;
         Scored.goalScore :=
           if Num.gtb goalScore 0 then toFixed goalScore 3
           else enhancedRatio;
         Scored.returnAssignmentRatio := originalRatio;
         Scored.returnAssignmentRatioEnhanced := enhancedRatio;
         Scored.meetsTarget := meetsTarget;
         Scored.targetType := targetType;
         Scored.daysToExpiry := Math.round daysToExpiry |}.

(** The next four expirations from today on, or the latest one when all
    are past. *)
Definition targetsOf (expirations : list R) : Clocked (list R) :=
  let sortedExpirations :=
    js_sort (fun a b => Some (a - b)) expirations in
  now <- Date_now clock ;;
  let today := startOfDay now in
  let futureExpirations :=
    filter (fun exp => Num.geb exp today) sortedExpirations in
  let targets := firstn 4 futureExpirations in
  let targets :=
    if Nat.eqb (List.length targets) 0
       && Nat.ltb 0 (List.length sortedExpirations)
    then targets ++ [last sortedExpirations 0]
    else targets in
  ret targets.

(** [GET /api/options-weeks/:symbol]; [symbol] is the route parameter
    after [toUpperNoSpaces]. *)
Definition optionsWeeks (symbol : string) : Response (Payload Scored.t) :=
  if String.eqb symbol "" then Failure 400 "Missing symbol" None
  else
    match quoteSummary yf symbol with
    | Throws message =>
        Failure 500 "Failed to fetch weekly options" (Some message)
    | Returns price =>
        if negb (truthy price)
        then Failure 400 "Unable to get current stock price" None
        else
          let currentPrice := number price in
          match expirationDates yf symbol with
          | Throws message =>
              Failure 500 "Failed to fetch weekly options" (Some message)
          | Returns expirations =>
              if Nat.eqb (List.length expirations) 0
              then Failure 404 "No expirations available" None
              else
                let (targets, k) := targetsOf expirations 0%nat in
                let otmLow := currentPrice * 1.001 in
                let otmHigh := currentPrice * 1.10 in
                let (results, _) :=
                  analyse Scored.strike Scored.meetsTarget
                    Scored.goalScore bestOptionReason
                    (mapOption currentPrice) otmLow otmHigh
                    (optionChain yf symbol) targets [] k in
                match results with
                | Throws message =>
                    Failure 500 "Failed to fetch weekly options"
                      (Some message)
                | Returns results =>
                    Json {| symbol := symbol;
                            currentPrice := currentPrice;
                            otmRange_low := otmLow;
                            otmRange_high := otmHigh;
                            expirations := results |}
                end
          end
    end.
End Handler.
End Api.

(** ** The server code kept in [client/src/App.vue] *)

Module Client.

Module Scored.
Record t : Type := {
  contractSymbol : string;
  strike : R;
  lastPrice : option R;
  bid : option R;
  ask : option R;
  change : option R;
  percentChange : option R;
  volume : option R;
  openInterest : option R;
  impliedVolatility : option R;
  inTheMoney : option bool;
  otmPercent : Text;
  assignmentProbability : Text;
  premium : Text;
  returnPercent : Text;
  goalScore : Text;
  returnAssignmentRatio : Text;
  meetsTarget : bool;
  targetType : string;
  daysToExpiry : Z
}.
End Scored.

(** This copy returns the bare Black-Scholes probability. *)
Definition calculateAssignmentProbability
    (currentPrice strikePrice timeToExpiry riskFreeRate volatility : R)
    : R :=
  if Rle_dec timeToExpiry 0 then
    (if Rle_dec strikePrice currentPrice then 1 else 0)
  else
    let S := currentPrice in
    let K := strikePrice in
    let T := timeToExpiry in
    let r := riskFreeRate in
    let sigma := volatility in
    let d1 := (Math.log (S / K) + (r + 0.5 * sigma * sigma) * T)
              / (sigma * Math.sqrt T) in
    let d2 := d1 - sigma * Math.sqrt T in
    normalCDF d2.

(** Target: 0.25% weekly return or 0.5% bi-weekly return. *)
Definition calculateGoalBasedScore : R -> R -> R -> R -> R -> R :=
  goalBasedScore 0.0025 0.005.

Definition bestOptionReason (best : Scored.t) : list Piece :=
  [Lit "Meets "; Lit (Scored.targetType best); Lit " target (";
   Val (Scored.returnPercent best); Lit "% return) with ";
   Val (Scored.assignmentProbability best); Lit "% assignment risk. ";
   Lit "Score: "; Val (Scored.goalScore best);
   Lit " (higher is better for return/risk ratio)."].

(** [Math.min(...l)] of a list with first element [x]. *)
Definition minOf (x : R) (l : list R) : R := fold_left Rmin l x.

Section Handler.
Variable yf : Provider.
Variable clock : nat -> R.

Definition mapOption (currentPrice target : R) (o : Raw.t)
    : Clocked Scored.t :=
  now1 <- Date_now clock ;;
  let timeToExpiry := (target - now1) / (1000 * 3600 * 24 * 365) in
  now2 <- Date_now clock ;;
  let daysToExpiry := (target - now2) / (1000 * 3600 * 24) in
  let riskFreeRate := 0.045 in
  let volatility := or_default (Raw.impliedVolatility o) 0.25 in
  let assignmentProb :=
    calculateAssignmentProbability currentPrice (Raw.strike o)
      timeToExpiry riskFreeRate volatility in
  let premium :=
    if truthy (Raw.bid o) && truthy (Raw.ask o)
    then (number (Raw.bid o) + number (Raw.ask o)) / 2
    else or_default (Raw.lastPrice o) 0 in
  let returnPercent :=
    if Num.gtb premium 0
    then toFixed ((premium / currentPrice) * 100) 3
    else Fixed 3 0 in
  let goalScore :=
    calculateGoalBasedScore premium (assignmentProb * 100)
      (Raw.strike o) currentPrice daysToExpiry in
  let returnAssignmentRatio :=
    if Num.gtb premium 0 && Num.gtb assignmentProb 0
    then toFixed (((premium / currentPrice) * 100)
                  / (assignmentProb * 100)) 3
    else NA in
  let weeklyReturn :=
    if Num.gtb premium 0 then (premium / currentPrice) * 100 else 0 in
  let meetsWeeklyTarget :=
    Num.leb daysToExpiry 8 && Num.geb weeklyReturn 0.25 in
  let meetsBiweeklyTarget :=
    Num.leb daysToExpiry 16 && Num.geb weeklyReturn 0.5 in
  let meetsTarget := meetsWeeklyTarget || meetsBiweeklyTarget in
  let targetType :=
    if meetsWeeklyTarget then "weekly"%string
    else if meetsBiweeklyTarget then "bi-weekly"%string
    else "none"%string in
  ret {| Scored.contractSymbol := Raw.contractSymbol o;
         Scored.strike := Raw.strike o;
         Scored.lastPrice := Raw.lastPrice o;
         Scored.bid := Raw.bid o;
         Scored.ask := Raw.ask o;
         Scored.change := Raw.change o;
         Scored.percentChange := Raw.percentChange o;
         Scored.volume := Raw.volume o;
         Scored.openInterest := Raw.openInterest o;
         Scored.impliedVolatility := Raw.impliedVolatility o;
         Scored.inTheMoney := Raw.inTheMoney o;
         Scored.otmPercent :=
           toFixed ((Raw.strike o - currentPrice) / currentPrice * 100) 2;
         Scored.assignmentProbability := toFixed (assignmentProb * 100) 1;
         Scored.premium := toFixed premium 2;
         Scored.returnPercent := returnPercent;
         Scored.goalScore :=
           if Num.gtb goalScore 0 then toFixed goalScore 3
           else returnAssignmentRatio;
         Scored.returnAssignmentRatio := returnAssignmentRatio;
         Scored.meetsTarget := meetsTarget;
         Scored.targetType := targetType;
         Scored.daysToExpiry := Math.round daysToExpiry |}.

(** The earliest expiration within a week (the earliest of all when
    there is none), then the earliest one after it. *)
Definition targetsOf (expirations : list R) : Clocked (list R) :=
  nowMs <- Date_now clock ;;
  let oneWeekMs := 7 * 24 * 3600 * 1000 in
  let withinWeek :=
    filter (fun d => Num.geb d nowMs && Num.leb d (nowMs + oneWeekMs))
      expirations in
  let currentTarget :=
    match withinWeek with
    | d :: l => minOf d l
    | [] => match expirations with
            | d :: l => minOf d l
            | [] => 0
            end
    end in
  let afterCurrent :=
    filter (fun t => Num.gtb t currentTarget) expirations in
  let nextTarget :=
    match afterCurrent with
    | t :: l => Some (minOf t l)
    | [] => None
    end in
  ret ([currentTarget]
         ++ match nextTarget with Some t => [t] | None => [] end).

(** [GET /api/options-weeks/:symbol] of this copy. *)
Definition optionsWeeks (symbol : string) : Response (Payload Scored.t) :=
  if String.eqb symbol "" then Failure 400 "Missing symbol" None
  else
    match quoteSummary yf symbol with
    | Throws message =>
        Failure 500 "Failed to fetch weekly options" (Some message)
    | Returns price =>
        if negb (truthy price)
        then Failure 400 "Unable to get current stock price" None
        else
          let currentPrice := number price in
          match expirationDates yf symbol with
          | Throws message =>
              Failure 500 "Failed to fetch weekly options" (Some message)
          | Returns expirations =>
              if Nat.eqb (List.length expirations) 0
              then Failure 404 "No expirations available" None
              else
                let (targets, k) := targetsOf expirations 0%nat in
                let otmLow := currentPrice * 1.001 in
                let otmHigh := currentPrice * 1.10 in
                let (results, _) :=
                  analyse Scored.strike Scored.meetsTarget
                    Scored.goalScore bestOptionReason
                    (mapOption currentPrice) otmLow otmHigh
                    (optionChain yf symbol) targets [] k in
                match results with
                | Throws message =>
                    Failure 500 "Failed to fetch weekly options"
                      (Some message)
                | Returns results =>
                    Json {| symbol := symbol;
                            currentPrice := currentPrice;
                            otmRange_low := otmLow;
                            otmRange_high := otmHigh;
                            expirations := results |}
                end
          end
    end.
End Handler.
End Client.

(** ** The specification's formulas

    Written from the words of the specification, to be compared with the
    functions above. *)

Module Spec.
Definition d1 (spot strike timeToExpiry riskFreeRate volatility : R) : R :=
  (ln (spot / strike)
   + (riskFreeRate + 0.5 * volatility ^ 2) * timeToExpiry)
  / (volatility * sqrt timeToExpiry).

Definition d2 (spot strike timeToExpiry riskFreeRate volatility : R) : R :=
  d1 spot strike timeToExpiry riskFreeRate volatility
  - volatility * sqrt timeToExpiry.

Definition clamp (x lo hi : R) : R :=
  if Rlt_dec x lo then lo else if Rgt_dec x hi then hi else x.

Definition deltaBlend (original marketDelta : R) : R :=
  0.7 * original + 0.3 * Rabs marketDelta.

Definition volatilityScaling (volatility : R) : R :=
  clamp (volatility / 0.25) 0.5 2.0.

Definition shortDatedBoost (timeToExpiry : R) : R :=
  if Rlt_dec timeToExpiry (7 / 365)
  then 1 + 0.1 * (7 / 365 - timeToExpiry) / (7 / 365)
  else 1.

Definition moneynessBoost (spot strike : R) : R :=
  if Rgt_dec (spot / strike) 1.05 then 1.10
  else if Rlt_dec 0.95 (spot / strike) then
    (if Rle_dec (spot / strike) 1.05 then 1.05 else 1)
  else 1.

Definition refine
    (original marketDelta volatility timeToExpiry spot strike : R) : R :=
  clamp
    (deltaBlend original marketDelta
     * volatilityScaling volatility
     * shortDatedBoost timeToExpiry
     * moneynessBoost spot strike)
    0 1.
End Spec.

(** Predicates on the published results. *)

Definition sortedByStrike {C : Type} (strike : C -> R) (l : list C) : Prop :=
  StronglySorted (fun a b => strike a <= strike b) l.

(** [best] is one of the contracts that meet a target, and no contract that
    meets a target shows a greater score. *)
Definition bestAmongQualifying {C : Type}
    (meetsTarget : C -> bool) (goalScore : C -> Text)
    (l : list C) (best : C) : Prop :=
  In best (filter meetsTarget l)
  /\ forall c, In c (filter meetsTarget l) ->
       exists s sbest,
         parseFloat (goalScore c) = Some s
         /\ parseFloat (goalScore best) = Some sbest
         /\ s <= sbest.

(** The targets for which the provider returned an entry, in order. *)
Fixpoint entries (chain : R -> Fetched (option Opt.t)) (targets : list R)
    : list (R * Opt.t) :=
  match targets with
  | [] => []
  | target :: rest =>
      match chain target with
      | Returns (Some opt) => (target, opt) :: entries chain rest
      | _ => entries chain rest
      end
  end.

(** The result published for an expiration without any contract. *)
Definition emptyResult {C : Type} (r : ExpirationResult C) : Prop :=
  calls r = [] /\ bestOption r = None /\ bestOptionReason r = []
  /\ hasQualifyingOptions r = false.

(** Names for quantities that [mapOption] computes in line. *)
Definition premiumOf (o : Raw.t) : R :=
  if truthy (Raw.bid o) && truthy (Raw.ask o)
  then (number (Raw.bid o) + number (Raw.ask o)) / 2
  else or_default (Raw.lastPrice o) 0.

Definition yearsTo (target now : R) : R :=
  (target - now) / (1000 * 3600 * 24 * 365).

Definition daysTo (target now : R) : R :=
  (target - now) / (1000 * 3600 * 24).

Definition volatilityOf (o : Raw.t) : R :=
  or_default (Raw.impliedVolatility o) 0.25.

(** The estimate [mapOption] of [api/index.js] works with when its two
    clock readings are [now1] and [now2]. *)
Definition apiEstimate (spot target now1 : R) (o : Raw.t)
    : ProbabilityEstimate :=
  calculateAssignmentProbability spot (Raw.strike o) (yearsTo target now1)
    0.045 (volatilityOf o)
    (Some (calculateDelta spot (Raw.strike o) (yearsTo target now1) 0.045
             (volatilityOf o) "call")).

Definition apiScore (spot target now1 now2 : R) (o : Raw.t) : R :=
  Api.calculateGoalBasedScore (premiumOf o)
    (enhanced (apiEstimate spot target now1 o) * 100)
    (Raw.strike o) spot (daysTo target now2).

Definition clientEstimate (spot target now1 : R) (o : Raw.t) : R :=
  Client.calculateAssignmentProbability spot (Raw.strike o)
    (yearsTo target now1) 0.045 (volatilityOf o).

Definition clientScore (spot target now1 now2 : R) (o : Raw.t) : R :=
  Client.calculateGoalBasedScore (premiumOf o)
    (clientEstimate spot target now1 o * 100)
    (Raw.strike o) spot (daysTo target now2).

(** The text reads as the number [x]. *)
Definition shows (t : Text) (x : R) : Prop := parseFloat t = Some x.

(** ** A sample run

    A quote of 100 and one expiration five days ahead whose chain lists a
    105 call last traded at 0.05 and a 101 call quoted 0.25/0.35, in that
    order; the clock stands still at 0. *)

Module Sample.
Definition expiry : R := 432000000.

Definition call105 : Raw.t :=
  {| Raw.contractSymbol := "XYZ-C-105";
     Raw.strike := 105;
     Raw.lastPrice := Some 0.05;
     Raw.bid := None;
     Raw.ask := None;
     Raw.change := None;
     Raw.percentChange := None;
     Raw.volume := Some 12;
     Raw.openInterest := Some 40;
     Raw.impliedVolatility := None;
     Raw.inTheMoney := Some false |}.

Definition call101 : Raw.t :=
  {| Raw.contractSymbol := "XYZ-C-101";
     Raw.strike := 101;
     Raw.lastPrice := Some 0.3;
     Raw.bid := Some 0.25;
     Raw.ask := Some 0.35;
     Raw.change := None;
     Raw.percentChange := None;
     Raw.volume := Some 150;
     Raw.openInterest := Some 900;
     Raw.impliedVolatility := Some 0.25;
     Raw.inTheMoney := Some false |}.

Definition entry (target : R) : Opt.t :=
  {| Opt.expirationDate := Some target;
     Opt.hasMiniOptions := Some false;
     Opt.calls := Some [call105; call101];
     Opt.puts := None |}.

Definition clock : nat -> R := fun _ => 0.
Definition startOfDay : R -> R := fun t => t.

Definition yf : Provider :=
  {| quoteSummary := fun _ => Returns (Some 100);
     expirationDates := fun _ => Returns [expiry];
     optionChain := fun _ target => Returns (Some (entry target)) |}.

(** The same provider without an entry for any expiration. *)
Definition yfWithoutEntries : Provider :=
  {| quoteSummary := fun _ => Returns (Some 100);
     expirationDates := fun _ => Returns [expiry];
     optionChain := fun _ _ => Returns None |}.
End Sample.

(** ** [GET /api/options/:symbol] of [client/src/App.vue]

    The chain of the current week: the earliest expiration within seven
    days, or the earliest of all.  [mapOption] of this handler copies the
    eleven provider fields, so its result is again a provider record. *)

Module CurrentWeek.
Record Chain : Type := {
  symbol : string;
  expiration : Z;
  hasMiniOptions : option bool;
  calls : list Raw.t;
  puts : list Raw.t
}.

Definition mapOption (o : Raw.t) : Raw.t :=
  {| Raw.contractSymbol := Raw.contractSymbol o;
     Raw.strike := Raw.strike o;
     Raw.lastPrice := Raw.lastPrice o;
     Raw.bid := Raw.bid o;
     Raw.ask := Raw.ask o;
     Raw.change := Raw.change o;
     Raw.percentChange := Raw.percentChange o;
     Raw.volume := Raw.volume o;
     Raw.openInterest := Raw.openInterest o;
     Raw.impliedVolatility := Raw.impliedVolatility o;
     Raw.inTheMoney := Raw.inTheMoney o |}.

Section Handler.
Variable yf : Provider.
(** [chain?.underlyingSymbol] of the response to
    [yf.options(symbol, { date })]; [None] when it is missing. *)
Variable underlyingSymbol : string -> R -> option string.
Variable clock : nat -> R.

Definition targetOf (expirations : list R) : Clocked R :=
  nowMs <- Date_now clock ;;
  let oneWeekMs := 7 * 24 * 3600 * 1000 in
  let withinWeek :=
    filter (fun d => Num.geb d nowMs && Num.leb d (nowMs + oneWeekMs))
      expirations in
  ret match withinWeek with
      | d :: l => Client.minOf d l
      | [] => match expirations with
              | d :: l => Client.minOf d l
              | [] => 0
              end
      end.

Definition options (symbol : string) : Response Chain :=
  if String.eqb symbol "" then Failure 400 "Missing symbol" None
  else
    match expirationDates yf symbol with
    | Throws message => Failure 500 "Failed to fetch options" (Some message)
    | Returns expirations =>
        if Nat.eqb (List.length expirations) 0
        then Failure 404 "No expirations available" None
        else
          let (target, _) := targetOf expirations 0%nat in
          match optionChain yf symbol target with
          | Throws message =>
              Failure 500 "Failed to fetch options" (Some message)
          | Returns None =>
              Failure 404 "No options for selected expiration" None
          | Returns (Some opt) =>
              Json {| symbol :=
                        match underlyingSymbol symbol target with
                        | Some s => if String.eqb s "" then symbol else s
                        | None => symbol
                        end;
                      expiration :=
                        Math.floor
                          (or_default (Opt.expirationDate opt) target / 1000);
                      hasMiniOptions := Opt.hasMiniOptions opt;
                      calls :=
                        map mapOption
                          (match Opt.calls opt with
                           | Some l => l
                           | None => []
                           end);
                      puts :=
                        map mapOption
                          (match Opt.puts opt with
                           | Some l => l
                           | None => []
                           end) |}
          end
    end.
End Handler.
End CurrentWeek.

(** ** The script of [client/src/App.vue]

    The refs of the component are the fields of a state; [fetchData] takes
    the state before the click to the state after the request settled. *)

Module View.
Definition showNat (n : nat) : string :=
  NilEmpty.string_of_uint (Nat.to_uint n).

(** [new Date().toLocaleTimeString()], read once per log line. *)
Definition timeString (stamps : nat -> string) : Clocked string :=
  fun k => (stamps k, Datatypes.S k).

(** [addLog] on the array held by the [logs] ref. *)
Definition addLog (stamps : nat -> string) (message : string)
    (logs : list string) : Clocked (list string) :=
  timestamp <- timeString stamps ;;
  let logs := logs ++ [("[" ++ timestamp ++ "] " ++ message)%string] in
  ret (if Nat.ltb 20 (List.length logs) then tl logs else logs).

(** What [fetch] resolves to: [text()] and [json()] may reject. *)
Record HttpResponse (B : Type) : Type := {
  ok : bool;
  status : nat;
  text : Fetched string;
  json : Fetched B
}.
Arguments ok {B} _.
Arguments status {B} _.
Arguments text {B} _.
Arguments json {B} _.

Section Component.
(** The parsed bodies of [/api/quote] and [/api/options-weeks]. *)
Context {Quote Weekly Options : Type}.
(** [weeklyOptions.value?.expirations?.length || 0] *)
Variable expirationsCount : Weekly -> nat.
Variable stamps : nat -> string.

Record State : Type := {
  symbol : string;
  loading : bool;
  error : string;
  quote : option Quote;
  options : option Options;
  weeklyOptions : option Weekly;
  logs : list string
}.

(** [e?.message || 'Request failed'] *)
Definition messageOf (message : string) : string :=
  if String.eqb message "" then "Request failed"%string else message.

(** The [catch] and [finally] blocks, entered with the state and log
    reached in the [try] block. *)
Definition failed (st : State) (message : string) (lines : list string)
    : Clocked State :=
  lines <- addLog stamps ("Error: " ++ messageOf message) lines ;;
  lines <- addLog stamps "Fetch completed" lines ;;
  ret {| symbol := symbol st;
         loading := false;
         error := messageOf message;
         quote := quote st;
         options := options st;
         weeklyOptions := weeklyOptions st;
         logs := lines |}.

(** [fetchData]; [sym] is [symbol.value.trim()] and [responses] what
    [Promise.all] of the two [fetch] calls settles to. *)
Definition fetchData (sym : string)
    (responses : Fetched (HttpResponse Quote * HttpResponse Weekly))
    (st : State) : Clocked State :=
  let st := {| symbol := symbol st;
               loading := true;
               error := "";
               quote := None;
               options := None;
               weeklyOptions := None;
               logs := logs st |} in
  lines <- addLog stamps ("Starting fetch for symbol: " ++ sym) (logs st) ;;
  if String.eqb sym "" then
    lines <- addLog stamps "Error: No symbol entered" lines ;;
    ret {| symbol := symbol st;
           loading := false;
           error := "Enter a symbol";
           quote := quote st;
           options := options st;
           weeklyOptions := weeklyOptions st;
           logs := lines |}
  else
    lines <- addLog stamps
              "Making requests to /api/quote and /api/options-weeks" lines ;;
    match responses with
    | Throws message => failed st message lines
    | Returns (qRes, woRes) =>
        lines <- addLog stamps
                  ("Quote response status: " ++ showNat (status qRes)) lines ;;
        lines <- addLog stamps
                  ("Weekly options response status: "
                   ++ showNat (status woRes)) lines ;;
        if negb (ok qRes) then
          match text qRes with
          | Throws message => failed st message lines
          | Returns qError =>
              lines <- addLog stamps ("Quote error response: " ++ qError)
                        lines ;;
              failed st "Failed to load quote" lines
          end
        else if negb (ok woRes) then
          match text woRes with
          | Throws message => failed st message lines
          | Returns woError =>
              lines <- addLog stamps
                        ("Weekly options error response: " ++ woError) lines ;;
              failed st "Failed to load weekly options" lines
          end
        else
          match json qRes with
          | Throws message => failed st message lines
          | Returns q =>
              let st := {| symbol := symbol st;
                           loading := loading st;
                           error := error st;
                           quote := Some q;
                           options := options st;
                           weeklyOptions := weeklyOptions st;
                           logs := logs st |} in
              match json woRes with
              | Throws message => failed st message lines
              | Returns w =>
                  lines <- addLog stamps
                            ("Successfully loaded data. "
                             ++ "Weekly options count: "
                             ++ showNat (expirationsCount w)) lines ;;
                  lines <- addLog stamps "Fetch completed" lines ;;
                  ret {| symbol := symbol st;
                         loading := false;
                         error := error st;
                         quote := Some q;
                         options := options st;
                         weeklyOptions := Some w;
                         logs := lines |}
              end
          end
    end.
End Component.

(** [sortedCalls] and [sortedPuts]: a sorted copy ([slice]) of the list held
    by [options], the empty list when there is none. *)
Definition sortedCalls (calls : option (list Raw.t)) : list Raw.t :=
  js_sort (fun a b => Some (Raw.strike a - Raw.strike b))
    (match calls with Some l => l | None => [] end).
End View.

(** The provider record a published contract was built from: its first
    eleven fields. *)
Definition apiSource (c : Api.Scored.t) : Raw.t :=
  {| Raw.contractSymbol := Api.Scored.contractSymbol c;
     Raw.strike := Api.Scored.strike c;
     Raw.lastPrice := Api.Scored.lastPrice c;
     Raw.bid := Api.Scored.bid c;
     Raw.ask := Api.Scored.ask c;
     Raw.change := Api.Scored.change c;
     Raw.percentChange := Api.Scored.percentChange c;
     Raw.volume := Api.Scored.volume c;
     Raw.openInterest := Api.Scored.openInterest c;
     Raw.impliedVolatility := Api.Scored.impliedVolatility c;
     Raw.inTheMoney := Api.Scored.inTheMoney c |}.

Definition clientSource (c : Client.Scored.t) : Raw.t :=
  {| Raw.contractSymbol := Client.Scored.contractSymbol c;
     Raw.strike := Client.Scored.strike c;
     Raw.lastPrice := Client.Scored.lastPrice c;
     Raw.bid := Client.Scored.bid c;
     Raw.ask := Client.Scored.ask c;
     Raw.change := Client.Scored.change c;
     Raw.percentChange := Client.Scored.percentChange c;
     Raw.volume := Client.Scored.volume c;
     Raw.openInterest := Client.Scored.openInterest c;
     Raw.impliedVolatility := Client.Scored.impliedVolatility c;
     Raw.inTheMoney := Client.Scored.inTheMoney c |}.

(** The calls of an entry that lie in the band, in the provider's order. *)
Definition callsInBand (low high : R) (opt : Opt.t) : list Raw.t :=
  filter (inBand low high)
    (match Opt.calls opt with Some l => l | None => [] end).

(** The number a score text reads as, 0 for ['N/A']. *)
Definition scoreShown (t : Text) : R :=
  match parseFloat t with
  | Some v => v
  | None => 0
  end.

(** A second sample provider: two expirations, five and twelve days ahead,
    and a chain request that throws for the later one. *)
Module Outage.
Definition later : R := 1036800000.

Definition yf : Provider :=
  {| quoteSummary := fun _ => Returns (Some 100);
     expirationDates := fun _ => Returns [Sample.expiry; later];
     optionChain :=
       fun _ target =>
         if Req_dec_T target Sample.expiry
         then Returns (Some (Sample.entry target))
         else Throws "socket hang up" |}.
End Outage.

(** A third sample provider: three expirations, one, five and twelve days
    ahead.  It has no entry for the first, the sample entry for the second,
    and for the third an entry whose only call, at 150, lies outside the
    band of a quote of 100. *)
Module Gaps.
Definition early : R := 86400000.

Definition call150 : Raw.t :=
  {| Raw.contractSymbol := "XYZ-C-150";
     Raw.strike := 150;
     Raw.lastPrice := Some 0.01;
     Raw.bid := None;
     Raw.ask := None;
     Raw.change := None;
     Raw.percentChange := None;
     Raw.volume := Some 1;
     Raw.openInterest := Some 3;
     Raw.impliedVolatility := None;
     Raw.inTheMoney := Some false |}.

Definition farEntry (target : R) : Opt.t :=
  {| Opt.expirationDate := Some target;
     Opt.hasMiniOptions := Some false;
     Opt.calls := Some [call150];
     Opt.puts := None |}.

Definition dates : list R := [early; Sample.expiry; Outage.later].

Definition yf : Provider :=
  {| quoteSummary := fun _ => Returns (Some 100);
     expirationDates := fun _ => Returns dates;
     optionChain :=
       fun _ target =>
         if Req_dec_T target Sample.expiry
         then Returns (Some (Sample.entry target))
         else if Req_dec_T target Outage.later
              then Returns (Some (farEntry target))
              else Returns None |}.
End Gaps.

(** Names for the two factors of the tail that [normalCDF] subtracts. *)
Definition erfcPolynomial (t : R) : R :=
  (((((1.061405429 * t + -1.453152027) * t) + 1.421413741) * t
    + -0.284496736) * t + 0.254829592) * t.

Definition erfcTail (u : R) : R :=
  erfcPolynomial (1 / (1 + 0.3275911 * u)) * exp ((- u) * u).

(** * Properties *)

(** ** Pricing model *)

Lemma erfc_poly_bounds (t : R) :
  0 <= t <= 1 ->
  0 <= (((((1.061405429 * t + -1.453152027) * t) + 1.421413741) * t
          + -0.284496736) * t + 0.254829592) * t <= 2.
Proof.
  intros [H0 H1]. split.
  - apply Rmult_le_pos; [nra | lra].
  - assert (Ht2 : 0 <= t * t <= 1) by nra.
    assert (Ht3 : 0 <= t * t * t <= 1) by nra.
    assert (Ht4 : 0 <= t * t * t * t <= 1) by nra.
    assert (Ht5 : 0 <= t * t * t * t * t <= 1) by nra.
    assert (Hq : t * t * t * (1 - t) <= 1) by nra.
    nra.
Qed.

Lemma exp_neg_square_bounds (x : R) : 0 < exp ((- x) * x) <= 1.
Proof.
  split; [apply exp_pos |].
  rewrite <- exp_0.
  destruct (Req_dec ((- x) * x) 0) as [E | E].
  - rewrite E. lra.
  - left. apply exp_increasing. nra.
Qed.

Lemma normalCDF_range (x : R) : 0 <= normalCDF x <= 1.
Proof.
  unfold normalCDF, Math.abs, Math.sqrt, Math.exp.
  set (u := Rabs x / sqrt 2).
  assert (Hu : 0 <= u).
  { unfold u. apply Rmult_le_pos; [apply Rabs_pos |].
    left. apply Rinv_0_lt_compat. apply sqrt_lt_R0. lra. }
  set (t := 1 / (1 + 0.3275911 * u)).
  assert (Ht : 0 <= t <= 1).
  { unfold t. assert (Hd : 1 <= 1 + 0.3275911 * u) by nra.
    split.
    - apply Rmult_le_pos; [lra |]. left. apply Rinv_0_lt_compat. lra.
    - apply Rmult_le_reg_r with (1 + 0.3275911 * u); [lra |].
      unfold Rdiv. rewrite Rmult_assoc, Rinv_l by lra. lra. }
  pose proof (erfc_poly_bounds t Ht) as HP.
  pose proof (exp_neg_square_bounds u) as HE.
  set (P := (((((1.061405429 * t + -1.453152027) * t) + 1.421413741) * t
          + -0.284496736) * t + 0.254829592) * t) in *.
  set (e := exp ((- u) * u)) in *.
  assert (HPe : 0 <= P * e <= 2) by nra.
  destruct (Rge_dec x 0); lra.
Qed.

Lemma code_d2_is_spec_d2 (S K T r sigma : R) :
  (Math.log (S / K) + (r + 0.5 * sigma * sigma) * T) / (sigma * Math.sqrt T)
  - sigma * Math.sqrt T
  = Spec.d2 S K T r sigma.
Proof.
  unfold Spec.d2, Spec.d1, Math.log, Math.sqrt.
  replace (0.5 * sigma * sigma) with (0.5 * sigma ^ 2) by ring.
  reflexivity.
Qed.

(** C1.  With positive spot, strike and volatility: once the time to expiry
    is zero or negative the assignment probability is 1 when
    [strike <= spot] and 0 otherwise; before expiry the original probability
    is [normalCDF d2] with the [d1], [d2] of the specification.  Both copies
    of the function agree on this. *)
Theorem assignment_probability_black_scholes
    (spot strike timeToExpiry riskFreeRate volatility : R)
    (marketDelta : option R) :
  spot > 0 -> strike > 0 -> volatility > 0 ->
  let api :=
    calculateAssignmentProbability spot strike timeToExpiry riskFreeRate
      volatility marketDelta in
  let client :=
    Client.calculateAssignmentProbability spot strike timeToExpiry
      riskFreeRate volatility in
  (timeToExpiry <= 0 -> strike <= spot ->
     original api = 1 /\ enhanced api = 1 /\ client = 1)
  /\ (timeToExpiry <= 0 -> ~ strike <= spot ->
     original api = 0 /\ enhanced api = 0 /\ client = 0)
  /\ (timeToExpiry > 0 ->
     original api
       = normalCDF (Spec.d2 spot strike timeToExpiry riskFreeRate volatility)
     /\ client
       = normalCDF (Spec.d2 spot strike timeToExpiry riskFreeRate volatility)).
Proof.
  intros _ _ _ api client. subst api client.
  unfold calculateAssignmentProbability, Client.calculateAssignmentProbability.
  repeat split; intros;
    destruct (Rle_dec timeToExpiry 0); try lra;
    try (destruct (Rle_dec strike spot); simpl; (reflexivity || contradiction)).
  - simpl. now rewrite code_d2_is_spec_d2.
  - now rewrite code_d2_is_spec_d2.
Qed.

Lemma assignment_probability_black_scholes_witness :
  (100 > 0 /\ 105 > 0 /\ 0.25 > 0 /\ 7 / 365 > 0
   /\ 0 <= 0 /\ 100 <= 100 /\ ~ 105 <= 100)
  /\ original
       (calculateAssignmentProbability 100 105 (7 / 365) 0.045 0.25 None)
     = normalCDF (Spec.d2 100 105 (7 / 365) 0.045 0.25)
  /\ original (calculateAssignmentProbability 100 100 0 0.045 0.25 None) = 1
  /\ original (calculateAssignmentProbability 100 105 0 0.045 0.25 None) = 0.
Proof.
  split; [lra |]. split; [| split].
  - apply (assignment_probability_black_scholes 100 105 (7 / 365) 0.045 0.25
             None); lra.
  - apply (assignment_probability_black_scholes 100 100 0 0.045 0.25 None);
      lra.
  - apply (assignment_probability_black_scholes 100 105 0 0.045 0.25 None);
      lra.
Defined.

Lemma clamp_is_min_max (x lo hi : R) :
  lo <= hi -> Math.min hi (Math.max lo x) = Spec.clamp x lo hi.
Proof.
  intros Hlh. unfold Spec.clamp, Math.min, Math.max.
  destruct (Rlt_dec x lo); [| destruct (Rgt_dec x hi)].
  - rewrite Rmax_left, Rmin_right by lra. reflexivity.
  - rewrite Rmax_right, Rmin_left by lra. reflexivity.
  - rewrite Rmax_right, Rmin_right by lra. reflexivity.
Qed.

Lemma clamp_is_max_min (x lo hi : R) :
  lo <= hi -> Math.max lo (Math.min hi x) = Spec.clamp x lo hi.
Proof.
  intros Hlh. unfold Spec.clamp, Math.min, Math.max.
  destruct (Rlt_dec x lo); [| destruct (Rgt_dec x hi)].
  - rewrite Rmin_right, Rmax_left by lra. reflexivity.
  - rewrite Rmin_left, Rmax_right by lra. reflexivity.
  - rewrite Rmin_right, Rmax_right by lra. reflexivity.
Qed.

Lemma enhanced_range
    (spot strike timeToExpiry riskFreeRate volatility : R)
    (marketDelta : option R) :
  0 <= enhanced (calculateAssignmentProbability spot strike timeToExpiry
                   riskFreeRate volatility marketDelta) <= 1.
Proof.
  unfold calculateAssignmentProbability.
  destruct (Rle_dec timeToExpiry 0).
  - simpl. destruct (Rle_dec strike spot); lra.
  - cbv zeta. simpl enhanced.
    match goal with
    | |- 0 <= Math.max 0 (Math.min 1 ?e) <= 1 => generalize e
    end.
    intros e. unfold Math.max, Math.min, Rmax, Rmin.
    destruct (Rle_dec 1 e); destruct (Rle_dec 0 _); lra.
Qed.

Lemma original_range
    (spot strike timeToExpiry riskFreeRate volatility : R)
    (marketDelta : option R) :
  0 <= original (calculateAssignmentProbability spot strike timeToExpiry
                   riskFreeRate volatility marketDelta) <= 1.
Proof.
  unfold calculateAssignmentProbability.
  destruct (Rle_dec timeToExpiry 0).
  - simpl. destruct (Rle_dec strike spot); lra.
  - cbv zeta. simpl original. apply normalCDF_range.
Qed.

Lemma client_probability_range
    (spot strike timeToExpiry riskFreeRate volatility : R) :
  0 <= Client.calculateAssignmentProbability spot strike timeToExpiry
         riskFreeRate volatility <= 1.
Proof.
  unfold Client.calculateAssignmentProbability.
  destruct (Rle_dec timeToExpiry 0).
  - destruct (Rle_dec strike spot); lra.
  - apply normalCDF_range.
Qed.

(** C2.  With positive spot, strike and volatility and any time to expiry,
    both the original and the enhanced probability lie in [0, 1]: the
    enhanced one by the final clamp, the original one because [normalCDF]
    only takes values there.  The same holds for the single probability of
    the other copy. *)
Theorem assignment_probability_in_unit_interval
    (spot strike timeToExpiry riskFreeRate volatility : R)
    (marketDelta : option R) :
  spot > 0 -> strike > 0 -> volatility > 0 ->
  let p :=
    calculateAssignmentProbability spot strike timeToExpiry riskFreeRate
      volatility marketDelta in
  0 <= original p <= 1 /\ 0 <= enhanced p <= 1
  /\ 0 <= Client.calculateAssignmentProbability spot strike timeToExpiry
            riskFreeRate volatility <= 1.
Proof.
  intros _ _ _ p.
  split; [apply original_range |].
  split; [apply enhanced_range | apply client_probability_range].
Qed.

Lemma assignment_probability_in_unit_interval_witness :
  (100 > 0 /\ 105 > 0 /\ 0.25 > 0)
  /\ 0 <= original (calculateAssignmentProbability 100 105 (7 / 365) 0.045
                      0.25 (Some 0.2)) <= 1
  /\ 0 <= enhanced (calculateAssignmentProbability 100 105 (7 / 365) 0.045
                      0.25 (Some 0.2)) <= 1
  /\ 0 <= Client.calculateAssignmentProbability 100 105 (7 / 365) 0.045
            0.25 <= 1.
Proof.
  split; [lra |].
  apply (assignment_probability_in_unit_interval 100 105 (7 / 365) 0.045 0.25
           (Some 0.2)); lra.
Defined.

(** C3.  Before expiry and with a market delta, the enhanced probability
    is the clamp to [0, 1] of the original probability taken through, in
    this order: the blend [0.7 * original + 0.3 * |marketDelta|]; the factor
    [clamp (volatility / 0.25) 0.5 2.0]; for [timeToExpiry < 7/365] the
    factor [1 + 0.1 * (7/365 - timeToExpiry) / (7/365)]; the factor 1.10
    when [spot / strike > 1.05], 1.05 when [0.95 < spot / strike <= 1.05]
    and 1 otherwise. *)
Theorem enhanced_probability_steps
    (spot strike timeToExpiry riskFreeRate volatility marketDelta : R) :
  timeToExpiry > 0 ->
  let p :=
    calculateAssignmentProbability spot strike timeToExpiry riskFreeRate
      volatility (Some marketDelta) in
  enhanced p
  = Spec.refine (original p) marketDelta volatility timeToExpiry spot strike.
Proof.
  intros HT p. subst p. unfold calculateAssignmentProbability.
  destruct (Rle_dec timeToExpiry 0); [lra |].
  cbv zeta. simpl enhanced. simpl original.
  unfold Spec.refine. rewrite clamp_is_max_min by lra. f_equal.
  unfold Spec.deltaBlend, Spec.volatilityScaling, Spec.shortDatedBoost,
    Spec.moneynessBoost, Math.abs.
  rewrite clamp_is_min_max by lra.
  destruct (Rlt_dec timeToExpiry (7 / 365));
    destruct (Rgt_dec (spot / strike) 1.05);
    try destruct (Rgt_dec (spot / strike) 0.95);
    try destruct (Rlt_dec 0.95 (spot / strike));
    try destruct (Rle_dec (spot / strike) 1.05);
    try lra; ring.
Qed.

Lemma enhanced_probability_steps_witness :
  7 / 365 > 0
  /\ enhanced
       (calculateAssignmentProbability 100 105 (7 / 365) 0.045 0.25
          (Some 0.2))
     = Spec.refine
         (original
            (calculateAssignmentProbability 100 105 (7 / 365) 0.045 0.25
               (Some 0.2)))
         0.2 0.25 (7 / 365) 100 105.
Proof.
  split; [lra |].
  apply (enhanced_probability_steps 100 105 (7 / 365) 0.045 0.25 0.2). lra.
Defined.

(** C9.  At or after expiry with the spot equal to the strike the two
    degenerate branches disagree: the call delta is 0 (it tests
    [spot > strike]) while the assignment probability is 1 in both
    components (it tests [strike <= spot]). *)
Theorem expiry_at_the_money_disagreement
    (price timeToExpiry riskFreeRate volatility : R)
    (marketDelta : option R) :
  timeToExpiry <= 0 ->
  calculateDelta price price timeToExpiry riskFreeRate volatility "call" = 0
  /\ calculateAssignmentProbability price price timeToExpiry riskFreeRate
       volatility marketDelta
     = {| original := 1; enhanced := 1 |}.
Proof.
  intros HT. unfold calculateDelta, calculateAssignmentProbability.
  destruct (Rle_dec timeToExpiry 0); [| lra].
  simpl. destruct (Rgt_dec price price); [lra |].
  destruct (Rle_dec price price); [| lra].
  split; reflexivity.
Qed.

Lemma expiry_at_the_money_disagreement_witness :
  0 <= 0
  /\ calculateDelta 100 100 0 0.045 0.25 "call" = 0
  /\ calculateAssignmentProbability 100 100 0 0.045 0.25 None
     = {| original := 1; enhanced := 1 |}.
Proof.
  split; [lra |].
  apply (expiry_at_the_money_disagreement 100 0 0.045 0.25 None). lra.
Defined.

(** ** Goal scorer *)

Section GoalScoreFacts.
Variables weeklyTarget biweeklyTarget : R.

Lemma goalBasedScore_gate_fails
    (premium assignmentProbability strike spot daysToExpiry : R) :
  (daysToExpiry <= 8 -> premium / spot < weeklyTarget) ->
  (8 < daysToExpiry <= 16 -> premium / spot < biweeklyTarget) ->
  goalBasedScore weeklyTarget biweeklyTarget premium assignmentProbability
    strike spot daysToExpiry = -1.
Proof.
  intros Hw Hb. unfold goalBasedScore. cbv zeta.
  destruct (Rle_dec daysToExpiry 8) as [H8 | H8].
  - destruct (Rge_dec (premium / spot) weeklyTarget); [| reflexivity].
    specialize (Hw H8). lra.
  - destruct (Rle_dec daysToExpiry 16) as [H16 | H16]; [| reflexivity].
    destruct (Rge_dec (premium / spot) biweeklyTarget); [| reflexivity].
    assert (8 < daysToExpiry <= 16) as H by lra.
    specialize (Hb H). lra.
Qed.

(** When the gate passes the score is the penalised ratio. *)
Lemma goalBasedScore_gate_passes
    (premium assignmentProbability strike spot daysToExpiry : R) :
  (daysToExpiry <= 8 /\ premium / spot >= weeklyTarget)
  \/ (8 < daysToExpiry <= 16 /\ premium / spot >= biweeklyTarget) ->
  goalBasedScore weeklyTarget biweeklyTarget premium assignmentProbability
    strike spot daysToExpiry
  = premium / spot / (assignmentProbability / 100 + 0.001)
    * (if Rgt_dec assignmentProbability 30 then 0.5 else 1).
Proof.
  intros H. unfold goalBasedScore. cbv zeta.
  destruct (Rle_dec daysToExpiry 8) as [H8 | H8].
  - destruct (Rge_dec (premium / spot) weeklyTarget); [reflexivity |].
    exfalso. destruct H as [[_ H] | [[H _] _]]; lra.
  - destruct (Rle_dec daysToExpiry 16) as [H16 | H16].
    + destruct (Rge_dec (premium / spot) biweeklyTarget); [reflexivity |].
      exfalso. destruct H as [[H _] | [_ H]]; lra.
    + exfalso. destruct H as [[H _] | [[_ H] _]]; lra.
Qed.

Lemma penalised_ratio_antitone (returnPercent p1 p2 : R) :
  0 <= returnPercent -> 0 <= p1 <= p2 ->
  returnPercent / (p2 / 100 + 0.001)
    * (if Rgt_dec p2 30 then 0.5 else 1)
  <= returnPercent / (p1 / 100 + 0.001)
    * (if Rgt_dec p1 30 then 0.5 else 1).
Proof.
  intros Hr [H1 H12].
  assert (Hd1 : 0 < p1 / 100 + 0.001) by lra.
  assert (Hd2 : 0 < p2 / 100 + 0.001) by lra.
  assert (Hinv : / (p2 / 100 + 0.001) <= / (p1 / 100 + 0.001)).
  { apply Rinv_le_contravar; lra. }
  assert (Hi2 : 0 < / (p2 / 100 + 0.001)) by now apply Rinv_0_lt_compat.
  assert (Hbase : returnPercent / (p2 / 100 + 0.001)
                  <= returnPercent / (p1 / 100 + 0.001)).
  { unfold Rdiv. apply Rmult_le_compat_l; assumption. }
  assert (Hb2 : 0 <= returnPercent / (p2 / 100 + 0.001)).
  { unfold Rdiv. apply Rmult_le_pos; lra. }
  destruct (Rgt_dec p2 30); destruct (Rgt_dec p1 30); lra.
Qed.

Hypothesis weekly_nonneg : 0 <= weeklyTarget.
Hypothesis biweekly_nonneg : 0 <= biweeklyTarget.

Lemma goalBasedScore_antitone
    (premium strike spot daysToExpiry p1 p2 : R) :
  0 <= p1 <= p2 ->
  goalBasedScore weeklyTarget biweeklyTarget premium p2 strike spot
    daysToExpiry
  <= goalBasedScore weeklyTarget biweeklyTarget premium p1 strike spot
       daysToExpiry.
Proof.
  intros Hp. unfold goalBasedScore. cbv zeta.
  destruct (Rle_dec daysToExpiry 8).
  - destruct (Rge_dec (premium / spot) weeklyTarget); simpl; [| lra].
    apply penalised_ratio_antitone; lra.
  - destruct (Rle_dec daysToExpiry 16); [| simpl; lra].
    destruct (Rge_dec (premium / spot) biweeklyTarget); simpl; [| lra].
    apply penalised_ratio_antitone; lra.
Qed.
End GoalScoreFacts.

(** C6.  In both copies of the scorer, a return [premium / spot] below the
    gate of the tenor (weekly up to 8 days, bi-weekly from there up to 16
    days), or a day count in neither bucket, gives the sentinel -1, hence no
    positive score. *)
Theorem goal_score_below_gate_is_sentinel
    (premium spot assignmentProbability strike daysToExpiry : R) :
  spot > 0 ->
  ((daysToExpiry <= 8 /\ premium / spot < 0.001)
   \/ (8 < daysToExpiry <= 16 /\ premium / spot < 0.002)
   \/ daysToExpiry > 16 ->
   Api.calculateGoalBasedScore premium assignmentProbability strike spot
     daysToExpiry = -1)
  /\ ((daysToExpiry <= 8 /\ premium / spot < 0.0025)
      \/ (8 < daysToExpiry <= 16 /\ premium / spot < 0.005)
      \/ daysToExpiry > 16 ->
      Client.calculateGoalBasedScore premium assignmentProbability strike
        spot daysToExpiry = -1).
Proof.
  intros _. split; intros H;
    apply goalBasedScore_gate_fails; intros; lra.
Qed.

Lemma goal_score_below_gate_is_sentinel_witness :
  (100 > 0 /\ 5 <= 8 /\ 0.05 / 100 < 0.001 /\ 8 < 12 <= 16
   /\ 0.3 / 100 < 0.005 /\ 30 > 16)
  /\ Api.calculateGoalBasedScore 0.05 10 105 100 5 = -1
  /\ Client.calculateGoalBasedScore 0.3 10 105 100 12 = -1
  /\ Api.calculateGoalBasedScore 5 10 105 100 30 = -1.
Proof.
  split; [lra |]. split; [| split].
  - apply (goal_score_below_gate_is_sentinel 0.05 100 10 105 5); lra.
  - apply (goal_score_below_gate_is_sentinel 0.3 100 10 105 12); lra.
  - apply (goal_score_below_gate_is_sentinel 5 100 10 105 30); lra.
Defined.

(** C7.  With the premium, the spot and the day count fixed, the score
    never increases with the assignment probability on its 0..100 scale. *)
Theorem goal_score_antitone_in_probability
    (premium spot strike daysToExpiry p1 p2 : R) :
  spot > 0 -> 0 <= p1 -> p1 <= p2 -> p2 <= 100 ->
  Api.calculateGoalBasedScore premium p2 strike spot daysToExpiry
  <= Api.calculateGoalBasedScore premium p1 strike spot daysToExpiry
  /\ Client.calculateGoalBasedScore premium p2 strike spot daysToExpiry
     <= Client.calculateGoalBasedScore premium p1 strike spot daysToExpiry.
Proof.
  intros _ H0 H12 _.
  split; apply goalBasedScore_antitone; lra.
Qed.

Lemma goal_score_antitone_in_probability_witness :
  (100 > 0 /\ 0 <= 20 /\ 20 <= 40 /\ 40 <= 100)
  /\ Api.calculateGoalBasedScore 0.3 40 105 100 5
     <= Api.calculateGoalBasedScore 0.3 20 105 100 5.
Proof.
  split; [lra |].
  apply (goal_score_antitone_in_probability 0.3 100 105 5 20 40); lra.
Defined.

(** ** Sorting and the clock *)

Lemma gtb_true_iff (x y : R) : Num.gtb x y = true <-> x > y.
Proof.
  unfold Num.gtb.
  destruct (Rgt_dec x y); split; (lra || discriminate || auto).
Qed.

Lemma geb_true_iff (x y : R) : Num.geb x y = true <-> x >= y.
Proof.
  unfold Num.geb.
  destruct (Rge_dec x y); split; (lra || discriminate || auto).
Qed.

Lemma leb_true_iff (x y : R) : Num.leb x y = true <-> x <= y.
Proof.
  unfold Num.leb.
  destruct (Rle_dec x y); split; (lra || discriminate || auto).
Qed.

Section JsSortFacts.
Context {A : Type}.
Variable comparefn : A -> A -> option R.

Lemma insert_permutation (x : A) (l : list A) :
  Permutation (x :: l) (insert comparefn x l).
Proof.
  induction l as [| y l IH]; simpl.
  - apply Permutation_refl.
  - destruct (comesAfter comparefn x y).
    + apply perm_trans with (y :: x :: l); [apply perm_swap |].
      apply perm_skip. exact IH.
    + apply Permutation_refl.
Qed.

Lemma js_sort_permutation (l : list A) :
  Permutation l (js_sort comparefn l).
Proof.
  induction l as [| x l IH]; simpl.
  - apply perm_nil.
  - apply perm_trans with (x :: js_sort comparefn l).
    + apply perm_skip. exact IH.
    + apply insert_permutation.
Qed.

Lemma js_sort_In (l : list A) (x : A) :
  In x (js_sort comparefn l) <-> In x l.
Proof.
  split; apply Permutation_in;
    [apply Permutation_sym |]; apply js_sort_permutation.
Qed.

(** On a domain where the comparator is the order of a real key, [sort]
    arranges by ascending key. *)
Variable dom : A -> Prop.
Variable key : A -> R.
Hypothesis comparefn_key :
  forall a b, dom a -> dom b ->
    (comesAfter comparefn a b = true <-> key a > key b).

Lemma insert_sorted (x : A) (l : list A) :
  dom x -> Forall dom l ->
  StronglySorted (fun a b => key a <= key b) l ->
  StronglySorted (fun a b => key a <= key b) (insert comparefn x l).
Proof.
  intros Hx Hl Hs. induction Hs as [| y l Hs IH Hy]; simpl.
  - constructor; [constructor | constructor].
  - inversion Hl as [| ? ? Hdy Hdl]; subst.
    destruct (comesAfter comparefn x y) eqn:E.
    + apply comparefn_key in E; try assumption.
      constructor; [apply IH; assumption |].
      apply Forall_forall. intros z Hz.
      apply (Permutation_in _ (Permutation_sym (insert_permutation x l)))
        in Hz.
      destruct Hz as [<- | Hz]; [lra |].
      rewrite Forall_forall in Hy. now apply Hy.
    + assert (Hxy : key x <= key y).
      { destruct (Rle_dec (key x) (key y)) as [H | H]; [exact H |].
        assert (comesAfter comparefn x y = true) as Ht
          by (apply comparefn_key; try assumption; lra).
        congruence. }
      constructor; [constructor; assumption |].
      constructor; [exact Hxy |].
      apply Forall_forall. intros z Hz.
      rewrite Forall_forall in Hy. specialize (Hy z Hz). lra.
Qed.

Lemma js_sort_sorted (l : list A) :
  Forall dom l ->
  StronglySorted (fun a b => key a <= key b) (js_sort comparefn l).
Proof.
  induction l as [| x l IH]; intros Hl.
  - constructor.
  - inversion Hl as [| ? ? Hx Hrest]; subst.
    change (js_sort comparefn (x :: l))
      with (insert comparefn x (js_sort comparefn l)).
    apply insert_sorted; [exact Hx | | apply IH; exact Hrest].
    apply Forall_forall. intros z Hz.
    apply (proj1 (js_sort_In l z)) in Hz.
    rewrite Forall_forall in Hrest. now apply Hrest.
Qed.

Lemma js_sort_head_least (l : list A) (first : A) :
  Forall dom l ->
  hd_error (js_sort comparefn l) = Some first ->
  In first l /\ forall c, In c l -> key first <= key c.
Proof.
  intros Hl Hhd. pose proof (js_sort_sorted l Hl) as Hs.
  destruct (js_sort comparefn l) as [| y s] eqn:E; [discriminate |].
  injection Hhd as ->.
  assert (Hin : forall c, In c l <-> In c (first :: s)).
  { intros c. rewrite <- E. symmetry. apply js_sort_In. }
  split; [apply Hin; now left |].
  intros c Hc. apply Hin in Hc. inversion Hs as [| ? ? _ Hall]; subst.
  destruct Hc as [<- | Hc]; [lra |].
  rewrite Forall_forall in Hall. now apply Hall.
Qed.
End JsSortFacts.

Lemma mapM_In {A B : Type} (f : A -> Clocked B) (l : list A) (k : nat)
    (b : B) :
  In b (fst (mapM f l k)) -> exists a k', In a l /\ b = fst (f a k').
Proof.
  revert k. induction l as [| a l IH]; intros k; simpl.
  - intros [].
  - unfold bind, ret. destruct (f a k) as [b0 k1] eqn:Ef.
    destruct (mapM f l k1) as [bs k2] eqn:Em. simpl.
    intros [<- | Hin].
    + exists a, k. split; [now left |]. now rewrite Ef.
    + destruct (IH k1) as (a' & k' & Ha & Hb); [now rewrite Em |].
      exists a', k'. split; [now right | exact Hb].
Qed.

(** ** Chain selector *)

Lemma toFixed_parses (x : R) (digits : nat) :
  parseFloat (toFixed x digits) <> None.
Proof. unfold toFixed. destruct (Rlt_dec x 0); discriminate. Qed.

Section ChainSelectorFacts.
Context {C : Type}.
Variable strike : C -> R.
Variable meetsTarget : C -> bool.
Variable goalScore : C -> Text.
Variable reason : C -> list Piece.
Variable mapOption : R -> Raw.t -> Clocked C.
Variables otmLow otmHigh : R.

Let select (target : R) (opt : Opt.t) (k : nat) : ExpirationResult C :=
  fst (selectExpiration strike meetsTarget goalScore reason mapOption
         otmLow otmHigh target opt k).

Let banded (opt : Opt.t) : list Raw.t :=
  filter (inBand otmLow otmHigh)
    (match Opt.calls opt with Some l => l | None => [] end).

Lemma select_unfold (target : R) (opt : Opt.t) (k : nat) :
  let allCalls := fst (mapM (mapOption target) (banded opt) k) in
  let qualifyingCalls :=
    js_sort (byScoreDescending goalScore) (filter meetsTarget allCalls) in
  calls (select target opt k) = js_sort (byStrike strike) allCalls
  /\ bestOption (select target opt k) = hd_error qualifyingCalls
  /\ bestOptionReason (select target opt k)
     = match hd_error qualifyingCalls with
       | Some best => reason best
       | None => []
       end
  /\ hasQualifyingOptions (select target opt k)
     = Nat.ltb 0 (List.length qualifyingCalls).
Proof.
  unfold select, selectExpiration, bind, ret, banded.
  destruct (mapM _ _ k) as [allCalls k']. simpl. auto.
Qed.

Lemma select_calls_origin (target : R) (opt : Opt.t) (k : nat) (c : C) :
  In c (calls (select target opt k)) ->
  exists o k', inBand otmLow otmHigh o = true
               /\ c = fst (mapOption target o k').
Proof.
  destruct (select_unfold target opt k) as (Hc & _). rewrite Hc.
  intros Hin. apply js_sort_In in Hin. apply mapM_In in Hin.
  destruct Hin as (o & k' & Ho & ->). exists o, k'.
  unfold banded in Ho. apply filter_In in Ho. now split.
Qed.

Lemma select_empty (target : R) (opt : Opt.t) (k : nat) :
  banded opt = [] -> emptyResult (select target opt k).
Proof.
  intros Hb. destruct (select_unfold target opt k) as (Hc & Hbest & Hr & Hq).
  rewrite Hb in *. simpl in *. unfold ret in *. simpl in *.
  repeat split; assumption.
Qed.

Lemma select_sorted (target : R) (opt : Opt.t) (k : nat) :
  sortedByStrike strike (calls (select target opt k)).
Proof.
  destruct (select_unfold target opt k) as (Hc & _). rewrite Hc.
  unfold sortedByStrike.
  apply js_sort_sorted with (dom := fun _ => True).
  - intros a b _ _. unfold comesAfter, byStrike.
    rewrite gtb_true_iff. lra.
  - apply Forall_forall. auto.
Qed.

Hypothesis mapOption_strike :
  forall target o k, strike (fst (mapOption target o k)) = Raw.strike o.

Lemma select_in_band (target : R) (opt : Opt.t) (k : nat) (c : C) :
  In c (calls (select target opt k)) -> otmLow <= strike c <= otmHigh.
Proof.
  intros Hin. apply select_calls_origin in Hin.
  destruct Hin as (o & k' & Hband & ->). rewrite mapOption_strike.
  unfold inBand in Hband. apply andb_true_iff in Hband.
  destruct Hband as [Hlo Hhi].
  apply geb_true_iff in Hlo. apply leb_true_iff in Hhi. lra.
Qed.

Hypothesis mapOption_scored :
  forall target o k,
    inBand otmLow otmHigh o = true ->
    meetsTarget (fst (mapOption target o k)) = true ->
    parseFloat (goalScore (fst (mapOption target o k))) <> None.

Lemma select_best (target : R) (opt : Opt.t) (k : nat) (best : C) :
  bestOption (select target opt k) = Some best ->
  bestAmongQualifying meetsTarget goalScore
    (calls (select target opt k)) best.
Proof.
  destruct (select_unfold target opt k) as (Hc & Hbest & _).
  rewrite Hbest, Hc. clear Hc Hbest.
  set (allCalls := fst (mapM (mapOption target) (banded opt) k)).
  set (value := fun c => match parseFloat (goalScore c) with
                         | Some v => v
                         | None => 0
                         end).
  assert (Hdom : Forall (fun c => parseFloat (goalScore c) <> None)
                   (filter meetsTarget allCalls)).
  { apply Forall_forall. intros c Hc. apply filter_In in Hc.
    destruct Hc as [Hc Hm]. apply mapM_In in Hc.
    destruct Hc as (o & k' & Ho & ->).
    unfold banded in Ho. apply filter_In in Ho.
    apply mapOption_scored; tauto. }
  intros Hhd.
  apply (js_sort_head_least (byScoreDescending goalScore)
           (fun c => parseFloat (goalScore c) <> None)
           (fun c => - value c)) in Hhd; [| | exact Hdom].
  - destruct Hhd as [Hin Hleast].
    assert (Hfilter : forall c,
               In c (filter meetsTarget (js_sort (byStrike strike) allCalls))
               <-> In c (filter meetsTarget allCalls)).
    { intros c. rewrite !filter_In, js_sort_In. tauto. }
    split; [now apply Hfilter |].
    intros c Hc. apply Hfilter in Hc.
    rewrite Forall_forall in Hdom.
    pose proof (Hdom c Hc) as Hnc. pose proof (Hdom best Hin) as Hnb.
    specialize (Hleast c Hc). unfold value in Hleast.
    destruct (parseFloat (goalScore c)) as [s |]; [| congruence].
    destruct (parseFloat (goalScore best)) as [sb |]; [| congruence].
    exists s, sb. repeat split. lra.
  - intros a b Ha Hb. unfold comesAfter, byScoreDescending, value.
    destruct (parseFloat (goalScore a)) as [va |]; [| congruence].
    destruct (parseFloat (goalScore b)) as [vb |]; [| congruence].
    simpl. rewrite gtb_true_iff. lra.
Qed.

(** Every published result was built by the loop body for a target with
    an entry. *)
Lemma analyse_results (chain : R -> Fetched (option Opt.t))
    (targets : list R) (results : list (ExpirationResult C)) (k : nat)
    (rs : list (ExpirationResult C)) :
  fst (analyse strike meetsTarget goalScore reason mapOption otmLow otmHigh
         chain targets results k) = Returns rs ->
  forall r, In r rs ->
    In r results
    \/ exists target opt k',
         In target targets /\ chain target = Returns (Some opt)
         /\ r = select target opt k'.
Proof.
  revert results k. induction targets as [| target rest IH];
    intros results k; simpl.
  - unfold ret. simpl. intros [= <-] r Hr. now left.
  - destruct (chain target) as [message | [opt |]] eqn:Echain.
    + unfold ret. simpl. discriminate.
    + unfold bind.
      destruct (selectExpiration _ _ _ _ _ _ _ target opt k)
        as [r0 k1] eqn:Esel.
      intros Hrs r Hr. destruct (IH _ _ Hrs r Hr) as [Hin | Hex].
      * apply in_app_or in Hin. destruct Hin as [Hin | [<- | []]].
        -- now left.
        -- right. exists target, opt, k. repeat split; auto.
           unfold select. now rewrite Esel.
      * right. destruct Hex as (t & o & k' & Ht & Hc & Hr').
        exists t, o, k'. auto.
    + intros Hrs r Hr. destruct (IH _ _ Hrs r Hr) as [Hin | Hex].
      * now left.
      * right. destruct Hex as (t & o & k' & Ht & Hc & Hr').
        exists t, o, k'. auto.
Qed.

(** When no provider call throws, the loop returns, in order, one result
    per target that has an entry. *)
Lemma analyse_entries (chain : R -> Fetched (option Opt.t))
    (targets : list R) (results : list (ExpirationResult C)) (k : nat) :
  (forall target, In target targets ->
     exists entry, chain target = Returns entry) ->
  exists rs,
    fst (analyse strike meetsTarget goalScore reason mapOption otmLow
           otmHigh chain targets results k) = Returns (results ++ rs)
    /\ Forall2 (fun e r => exists k', r = select (fst e) (snd e) k')
         (entries chain targets) rs.
Proof.
  revert results k. induction targets as [| target rest IH];
    intros results k Hret; simpl.
  - exists []. unfold ret. simpl. rewrite app_nil_r. split; constructor.
  - destruct (Hret target (or_introl eq_refl)) as [entry Hentry].
    rewrite Hentry. destruct entry as [opt |].
    + unfold bind.
      destruct (selectExpiration _ _ _ _ _ _ _ target opt k)
        as [r0 k1] eqn:Esel.
      destruct (IH (results ++ [r0]) k1) as (rs & Hrs & Hall).
      { intros t Ht. apply Hret. now right. }
      exists (r0 :: rs). rewrite Hrs, <- app_assoc. split; [reflexivity |].
      constructor; [| exact Hall].
      exists k. unfold select. simpl. now rewrite Esel.
    + apply IH. intros t Ht. apply Hret. now right.
Qed.
End ChainSelectorFacts.

(** ** What [mapOption] publishes *)

Lemma Int_part_nonneg (x : R) : 0 <= x -> (0 <= Int_part x)%Z.
Proof.
  intros Hx. destruct (base_Int_part x) as [_ Hlow].
  assert (H : -1 < IZR (Int_part x)) by lra.
  apply lt_IZR in H. lia.
Qed.

Lemma toFixed_nonneg (x : R) (digits : nat) :
  0 <= x -> exists n, toFixed x digits = Fixed digits n /\ (0 <= n)%Z.
Proof.
  intros Hx. unfold toFixed. destruct (Rlt_dec x 0); [lra |].
  eexists. split; [reflexivity |]. apply Int_part_nonneg.
  assert (0 < 10 ^ digits) by (apply pow_lt; lra). nra.
Qed.

Lemma shows_nonneg (digits : nat) (n : Z) (x : R) :
  (0 <= n)%Z -> shows (Fixed digits n) x -> 0 <= x.
Proof.
  intros Hn [= <-]. apply IZR_le in Hn.
  assert (0 < 10 ^ digits) by (apply pow_lt; lra).
  apply Rmult_le_pos; [exact Hn |]. left. now apply Rinv_0_lt_compat.
Qed.

Lemma Api_mapOption_fields (clock : nat -> R) (spot target : R) (o : Raw.t)
    (k : nat) :
  let c := fst (Api.mapOption clock spot target o k) in
  let estimate := apiEstimate spot target (clock k) o in
  let score := apiScore spot target (clock k) (clock (Datatypes.S k)) o in
  let daysToExpiry := daysTo target (clock (Datatypes.S k)) in
  let weeklyReturn :=
    if Num.gtb (premiumOf o) 0 then (premiumOf o / spot) * 100 else 0 in
  Api.Scored.strike c = Raw.strike o
  /\ Api.Scored.goalScore c
     = (if Num.gtb score 0 then toFixed score 3
        else Api.Scored.returnAssignmentRatioEnhanced c)
  /\ Api.Scored.returnAssignmentRatioEnhanced c
     = (if Num.gtb (premiumOf o) 0 && Num.gtb (enhanced estimate) 0
        then toFixed (((premiumOf o / spot) * 100)
                      / (enhanced estimate * 100)) 3
        else NA)
  /\ Api.Scored.meetsTarget c
     = (Num.leb daysToExpiry 8 && Num.geb weeklyReturn 0.1
        || Num.leb daysToExpiry 16 && Num.geb weeklyReturn 0.2).
Proof. repeat split. Qed.

Lemma Client_mapOption_fields (clock : nat -> R) (spot target : R)
    (o : Raw.t) (k : nat) :
  let c := fst (Client.mapOption clock spot target o k) in
  let estimate := clientEstimate spot target (clock k) o in
  let score := clientScore spot target (clock k) (clock (Datatypes.S k)) o in
  let daysToExpiry := daysTo target (clock (Datatypes.S k)) in
  let weeklyReturn :=
    if Num.gtb (premiumOf o) 0 then (premiumOf o / spot) * 100 else 0 in
  Client.Scored.strike c = Raw.strike o
  /\ Client.Scored.goalScore c
     = (if Num.gtb score 0 then toFixed score 3
        else Client.Scored.returnAssignmentRatio c)
  /\ Client.Scored.returnAssignmentRatio c
     = (if Num.gtb (premiumOf o) 0 && Num.gtb estimate 0
        then toFixed (((premiumOf o / spot) * 100) / (estimate * 100)) 3
        else NA)
  /\ Client.Scored.meetsTarget c
     = (Num.leb daysToExpiry 8 && Num.geb weeklyReturn 0.25
        || Num.leb daysToExpiry 16 && Num.geb weeklyReturn 0.5).
Proof. repeat split. Qed.

(** The presentation flags of [mapOption] imply the scorer's own gate. *)
Lemma flags_imply_gate
    (weeklyTarget biweeklyTarget weeklyPercent biweeklyPercent : R)
    (premium spot daysToExpiry : R) :
  weeklyPercent = weeklyTarget * 100 ->
  biweeklyPercent = biweeklyTarget * 100 ->
  0 < weeklyTarget <= biweeklyTarget ->
  (Num.leb daysToExpiry 8
     && Num.geb (if Num.gtb premium 0 then (premium / spot) * 100 else 0)
          weeklyPercent
   || Num.leb daysToExpiry 16
      && Num.geb (if Num.gtb premium 0 then (premium / spot) * 100 else 0)
           biweeklyPercent) = true ->
  (daysToExpiry <= 8 /\ premium / spot >= weeklyTarget)
  \/ (8 < daysToExpiry <= 16 /\ premium / spot >= biweeklyTarget).
Proof.
  intros -> -> Ht Hflags.
  apply orb_true_iff in Hflags.
  destruct Hflags as [H | H]; apply andb_true_iff in H; destruct H as [Hd Hr];
    apply leb_true_iff in Hd; apply geb_true_iff in Hr;
    unfold Num.gtb in Hr; destruct (Rgt_dec premium 0); lra.
Qed.

Lemma score_positive_when_gate_passes
    (weeklyTarget biweeklyTarget premium p strike spot daysToExpiry : R) :
  0 < weeklyTarget -> 0 < biweeklyTarget -> 0 <= p ->
  (daysToExpiry <= 8 /\ premium / spot >= weeklyTarget)
  \/ (8 < daysToExpiry <= 16 /\ premium / spot >= biweeklyTarget) ->
  goalBasedScore weeklyTarget biweeklyTarget premium p strike spot
    daysToExpiry > 0.
Proof.
  intros Hw Hb Hp Hgate. rewrite goalBasedScore_gate_passes by exact Hgate.
  assert (Hr : 0 < premium / spot) by (destruct Hgate as [[_ H] | [_ H]]; lra).
  assert (Hd : 0 < / (p / 100 + 0.001)) by (apply Rinv_0_lt_compat; lra).
  assert (Hbase : 0 < premium / spot / (p / 100 + 0.001)).
  { unfold Rdiv at 1. now apply Rmult_lt_0_compat. }
  destruct (Rgt_dec p 30); lra.
Qed.

Lemma clientEstimate_range (spot target now1 : R) (o : Raw.t) :
  0 <= clientEstimate spot target now1 o <= 1.
Proof. unfold clientEstimate. apply client_probability_range. Qed.

(** A contract flagged as meeting its target shows a number as its score. *)
Lemma Api_mapOption_scored (clock : nat -> R) (spot target : R) (o : Raw.t)
    (k : nat) :
  Api.Scored.meetsTarget (fst (Api.mapOption clock spot target o k)) = true ->
  Api.Scored.goalScore (fst (Api.mapOption clock spot target o k))
  = toFixed (apiScore spot target (clock k) (clock (Datatypes.S k)) o) 3.
Proof.
  destruct (Api_mapOption_fields clock spot target o k)
    as (_ & Hscore & _ & Hmeets).
  rewrite Hmeets, Hscore. intros Hflags.
  apply (flags_imply_gate 0.001 0.002) in Hflags; try lra.
  assert (Hpos : apiScore spot target (clock k) (clock (Datatypes.S k)) o > 0).
  { unfold apiScore, Api.calculateGoalBasedScore.
    apply score_positive_when_gate_passes; try lra; try exact Hflags.
    pose proof (enhanced_range spot (Raw.strike o) (yearsTo target (clock k))
                  0.045 (volatilityOf o)
                  (Some (calculateDelta spot (Raw.strike o)
                           (yearsTo target (clock k)) 0.045 (volatilityOf o)
                           "call"))) as He.
    unfold apiEstimate. lra. }
  apply gtb_true_iff in Hpos. now rewrite Hpos.
Qed.

Lemma Client_mapOption_scored (clock : nat -> R) (spot target : R)
    (o : Raw.t) (k : nat) :
  Client.Scored.meetsTarget (fst (Client.mapOption clock spot target o k))
  = true ->
  Client.Scored.goalScore (fst (Client.mapOption clock spot target o k))
  = toFixed (clientScore spot target (clock k) (clock (Datatypes.S k)) o) 3.
Proof.
  destruct (Client_mapOption_fields clock spot target o k)
    as (_ & Hscore & _ & Hmeets).
  rewrite Hmeets, Hscore. intros Hflags.
  apply (flags_imply_gate 0.0025 0.005) in Hflags; try lra.
  assert (Hpos :
            clientScore spot target (clock k) (clock (Datatypes.S k)) o > 0).
  { unfold clientScore, Client.calculateGoalBasedScore.
    apply score_positive_when_gate_passes; try lra; try exact Hflags.
    pose proof (clientEstimate_range spot target (clock k) o). lra. }
  apply gtb_true_iff in Hpos. now rewrite Hpos.
Qed.

(** ** The handlers *)

(** Case analysis on the outcome of the loop over the targets. *)
Ltac case_loop results k E :=
  match goal with
  | |- context [analyse ?s ?m ?g ?r ?f ?lo ?hi ?c ?t ?i ?n] =>
      destruct (analyse s m g r f lo hi c t i n) as [results k] eqn:E
  end.

(** A successful response was assembled from a quoted price and from the
    results of the loop over the targets. *)
Lemma Api_optionsWeeks_Json (yf : Provider) (clock : nat -> R)
    (startOfDay : R -> R) (symbol : string) (body : Payload Api.Scored.t) :
  Api.optionsWeeks yf clock startOfDay symbol = Json body ->
  exists price exps,
    quoteSummary yf symbol = Returns price
    /\ truthy price = true
    /\ expirationDates yf symbol = Returns exps
    /\ currentPrice body = number price
    /\ otmRange_low body = number price * 1.001
    /\ otmRange_high body = number price * 1.10
    /\ fst (analyse Api.Scored.strike Api.Scored.meetsTarget
              Api.Scored.goalScore Api.bestOptionReason
              (Api.mapOption clock (number price))
              (number price * 1.001) (number price * 1.10)
              (optionChain yf symbol)
              (fst (Api.targetsOf clock startOfDay exps 0%nat)) []
              (snd (Api.targetsOf clock startOfDay exps 0%nat)))
       = Returns (expirations body).
Proof.
  unfold Api.optionsWeeks.
  destruct (String.eqb symbol ""); [discriminate |].
  destruct (quoteSummary yf symbol) as [m | price]; [discriminate |].
  destruct (truthy price) eqn:Hprice; cbv [negb]; cbv iota; [| discriminate].
  destruct (expirationDates yf symbol) as [m | exps]; [discriminate |].
  destruct (Nat.eqb (List.length exps) 0); [discriminate |].
  destruct (Api.targetsOf clock startOfDay exps 0%nat) as [targets k] eqn:Et.
  case_loop results k' Eloop.
  destruct results as [m | results]; [discriminate |].
  intros [= <-]. exists price, exps.
  cbn [currentPrice otmRange_low otmRange_high expirations].
  rewrite ?Et; cbn [fst snd]; rewrite ?Eloop; cbn [fst snd].
  repeat split; auto.
Qed.

Lemma Client_optionsWeeks_Json (yf : Provider) (clock : nat -> R)
    (symbol : string) (body : Payload Client.Scored.t) :
  Client.optionsWeeks yf clock symbol = Json body ->
  exists price exps,
    quoteSummary yf symbol = Returns price
    /\ truthy price = true
    /\ expirationDates yf symbol = Returns exps
    /\ currentPrice body = number price
    /\ otmRange_low body = number price * 1.001
    /\ otmRange_high body = number price * 1.10
    /\ fst (analyse Client.Scored.strike Client.Scored.meetsTarget
              Client.Scored.goalScore Client.bestOptionReason
              (Client.mapOption clock (number price))
              (number price * 1.001) (number price * 1.10)
              (optionChain yf symbol)
              (fst (Client.targetsOf clock exps 0%nat)) []
              (snd (Client.targetsOf clock exps 0%nat)))
       = Returns (expirations body).
Proof.
  unfold Client.optionsWeeks.
  destruct (String.eqb symbol ""); [discriminate |].
  destruct (quoteSummary yf symbol) as [m | price]; [discriminate |].
  destruct (truthy price) eqn:Hprice; cbv [negb]; cbv iota; [| discriminate].
  destruct (expirationDates yf symbol) as [m | exps]; [discriminate |].
  destruct (Nat.eqb (List.length exps) 0); [discriminate |].
  destruct (Client.targetsOf clock exps 0%nat) as [targets k] eqn:Et.
  case_loop results k' Eloop.
  destruct results as [m | results]; [discriminate |].
  intros [= <-]. exists price, exps.
  cbn [currentPrice otmRange_low otmRange_high expirations].
  rewrite ?Et; cbn [fst snd]; rewrite ?Eloop; cbn [fst snd].
  repeat split; auto.
Qed.

(** The way to a successful response: a symbol, a quoted price, some
    expirations, and no provider call that throws. *)
Lemma Api_optionsWeeks_succeeds (yf : Provider) (clock : nat -> R)
    (startOfDay : R -> R) (symbol : string) (price : option R)
    (exps : list R) :
  symbol <> ""%string ->
  quoteSummary yf symbol = Returns price ->
  truthy price = true ->
  expirationDates yf symbol = Returns exps ->
  exps <> [] ->
  (forall target,
     In target (fst (Api.targetsOf clock startOfDay exps 0%nat)) ->
     exists entry, optionChain yf symbol target = Returns entry) ->
  exists results,
    Api.optionsWeeks yf clock startOfDay symbol
    = Json {| symbol := symbol;
              currentPrice := number price;
              otmRange_low := number price * 1.001;
              otmRange_high := number price * 1.10;
              expirations := results |}
    /\ Forall2
         (fun e r =>
            exists k,
              r = fst (selectExpiration Api.Scored.strike
                         Api.Scored.meetsTarget Api.Scored.goalScore
                         Api.bestOptionReason
                         (Api.mapOption clock (number price))
                         (number price * 1.001) (number price * 1.10)
                         (fst e) (snd e) k))
         (entries (optionChain yf symbol)
            (fst (Api.targetsOf clock startOfDay exps 0%nat)))
         results.
Proof.
  intros Hsym Hquote Hprice Hexps Hne Hchain.
  unfold Api.optionsWeeks.
  apply String.eqb_neq in Hsym. rewrite Hsym, Hquote, Hprice, Hexps.
  cbv [negb]; cbv iota.
  destruct exps as [| e exps]; [congruence |].
  change (Nat.eqb (List.length (e :: exps)) 0) with false. cbv iota.
  destruct (Api.targetsOf clock startOfDay (e :: exps) 0%nat)
    as [targets k] eqn:Et.
  simpl in Hchain.
  destruct (analyse_entries Api.Scored.strike Api.Scored.meetsTarget
              Api.Scored.goalScore Api.bestOptionReason
              (Api.mapOption clock (number price))
              (number price * 1.001) (number price * 1.10)
              (optionChain yf symbol) targets [] k Hchain)
    as (rs & Hrs & Hall).
  case_loop results k' Eloop.
  simpl in Hrs. subst results. exists rs. split; [reflexivity | exact Hall].
Qed.

Lemma Client_optionsWeeks_succeeds (yf : Provider) (clock : nat -> R)
    (symbol : string) (price : option R) (exps : list R) :
  symbol <> ""%string ->
  quoteSummary yf symbol = Returns price ->
  truthy price = true ->
  expirationDates yf symbol = Returns exps ->
  exps <> [] ->
  (forall target,
     In target (fst (Client.targetsOf clock exps 0%nat)) ->
     exists entry, optionChain yf symbol target = Returns entry) ->
  exists results,
    Client.optionsWeeks yf clock symbol
    = Json {| symbol := symbol;
              currentPrice := number price;
              otmRange_low := number price * 1.001;
              otmRange_high := number price * 1.10;
              expirations := results |}
    /\ Forall2
         (fun e r =>
            exists k,
              r = fst (selectExpiration Client.Scored.strike
                         Client.Scored.meetsTarget Client.Scored.goalScore
                         Client.bestOptionReason
                         (Client.mapOption clock (number price))
                         (number price * 1.001) (number price * 1.10)
                         (fst e) (snd e) k))
         (entries (optionChain yf symbol)
            (fst (Client.targetsOf clock exps 0%nat)))
         results.
Proof.
  intros Hsym Hquote Hprice Hexps Hne Hchain.
  unfold Client.optionsWeeks.
  apply String.eqb_neq in Hsym. rewrite Hsym, Hquote, Hprice, Hexps.
  cbv [negb]; cbv iota.
  destruct exps as [| e exps]; [congruence |].
  change (Nat.eqb (List.length (e :: exps)) 0) with false. cbv iota.
  destruct (Client.targetsOf clock (e :: exps) 0%nat) as [targets k] eqn:Et.
  simpl in Hchain.
  destruct (analyse_entries Client.Scored.strike Client.Scored.meetsTarget
              Client.Scored.goalScore Client.bestOptionReason
              (Client.mapOption clock (number price))
              (number price * 1.001) (number price * 1.10)
              (optionChain yf symbol) targets [] k Hchain)
    as (rs & Hrs & Hall).
  case_loop results k' Eloop.
  simpl in Hrs. subst results. exists rs. split; [reflexivity | exact Hall].
Qed.

Lemma truthy_number (price : option R) :
  truthy price = true -> number price <> 0.
Proof.
  destruct price as [x |]; simpl; [| discriminate].
  destruct (Req_dec_T x 0); [discriminate | auto].
Qed.

(** Every published result is the loop body run on a target's entry, with
    a quoted price that is not zero. *)
Lemma Api_published_result (yf : Provider) (clock : nat -> R)
    (startOfDay : R -> R) (symbol : string) (body : Payload Api.Scored.t)
    (r : ExpirationResult Api.Scored.t) :
  Api.optionsWeeks yf clock startOfDay symbol = Json body ->
  In r (expirations body) ->
  currentPrice body <> 0
  /\ exists target opt k,
       r = fst (selectExpiration Api.Scored.strike Api.Scored.meetsTarget
                  Api.Scored.goalScore Api.bestOptionReason
                  (Api.mapOption clock (currentPrice body))
                  (currentPrice body * 1.001) (currentPrice body * 1.10)
                  target opt k).
Proof.
  intros Hjson Hr. apply Api_optionsWeeks_Json in Hjson.
  destruct Hjson as (price & exps & _ & Hprice & _ & -> & _ & _ & Hloop).
  split; [now apply truthy_number |].
  destruct (analyse_results _ _ _ _ _ _ _ _ _ _ _ _ Hloop r Hr)
    as [[] | (target & opt & k & _ & _ & ->)].
  now exists target, opt, k.
Qed.

Lemma Client_published_result (yf : Provider) (clock : nat -> R)
    (symbol : string) (body : Payload Client.Scored.t)
    (r : ExpirationResult Client.Scored.t) :
  Client.optionsWeeks yf clock symbol = Json body ->
  In r (expirations body) ->
  currentPrice body <> 0
  /\ exists target opt k,
       r = fst (selectExpiration Client.Scored.strike
                  Client.Scored.meetsTarget Client.Scored.goalScore
                  Client.bestOptionReason
                  (Client.mapOption clock (currentPrice body))
                  (currentPrice body * 1.001) (currentPrice body * 1.10)
                  target opt k).
Proof.
  intros Hjson Hr. apply Client_optionsWeeks_Json in Hjson.
  destruct Hjson as (price & exps & _ & Hprice & _ & -> & _ & _ & Hloop).
  split; [now apply truthy_number |].
  destruct (analyse_results _ _ _ _ _ _ _ _ _ _ _ _ Hloop r Hr)
    as [[] | (target & opt & k & _ & _ & ->)].
  now exists target, opt, k.
Qed.

Lemma Api_goalScore_nonneg (clock : nat -> R) (spot target : R) (o : Raw.t)
    (k : nat) (x : R) :
  spot > 0 ->
  shows (Api.Scored.goalScore (fst (Api.mapOption clock spot target o k))) x ->
  0 <= x.
Proof.
  intros Hspot.
  destruct (Api_mapOption_fields clock spot target o k)
    as (_ & Hscore & Hratio & _).
  rewrite Hscore, Hratio. clear Hscore Hratio.
  set (score := apiScore _ _ _ _ _).
  set (e := enhanced _).
  destruct (Num.gtb score 0) eqn:Es.
  - apply gtb_true_iff in Es.
    destruct (toFixed_nonneg score 3) as (n & -> & Hn); [lra |].
    now apply shows_nonneg.
  - destruct (Num.gtb (premiumOf o) 0 && Num.gtb e 0) eqn:Ep;
      [| discriminate].
    apply andb_true_iff in Ep. destruct Ep as [Hp He].
    apply gtb_true_iff in Hp. apply gtb_true_iff in He.
    destruct (toFixed_nonneg (premiumOf o / spot * 100 / (e * 100)) 3)
      as (n & -> & Hn); [| now apply shows_nonneg].
    apply Rmult_le_pos.
    + apply Rmult_le_pos; [| lra]. apply Rmult_le_pos; [lra |].
      left. now apply Rinv_0_lt_compat.
    + left. apply Rinv_0_lt_compat. lra.
Qed.

Lemma Client_goalScore_nonneg (clock : nat -> R) (spot target : R)
    (o : Raw.t) (k : nat) (x : R) :
  spot > 0 ->
  shows (Client.Scored.goalScore
           (fst (Client.mapOption clock spot target o k))) x ->
  0 <= x.
Proof.
  intros Hspot.
  destruct (Client_mapOption_fields clock spot target o k)
    as (_ & Hscore & Hratio & _).
  rewrite Hscore, Hratio. clear Hscore Hratio.
  set (score := clientScore _ _ _ _ _).
  set (e := clientEstimate _ _ _ _).
  destruct (Num.gtb score 0) eqn:Es.
  - apply gtb_true_iff in Es.
    destruct (toFixed_nonneg score 3) as (n & -> & Hn); [lra |].
    now apply shows_nonneg.
  - destruct (Num.gtb (premiumOf o) 0 && Num.gtb e 0) eqn:Ep;
      [| discriminate].
    apply andb_true_iff in Ep. destruct Ep as [Hp He].
    apply gtb_true_iff in Hp. apply gtb_true_iff in He.
    destruct (toFixed_nonneg (premiumOf o / spot * 100 / (e * 100)) 3)
      as (n & -> & Hn); [| now apply shows_nonneg].
    apply Rmult_le_pos.
    + apply Rmult_le_pos; [| lra]. apply Rmult_le_pos; [lra |].
      left. now apply Rinv_0_lt_compat.
    + left. apply Rinv_0_lt_compat. lra.
Qed.

(** A contract in the band of a non-zero price sits above a positive
    price. *)
Lemma band_price_positive (spot : R) (o : Raw.t) :
  spot <> 0 -> inBand (spot * 1.001) (spot * 1.10) o = true -> spot > 0.
Proof.
  intros Hne Hband. unfold inBand in Hband.
  apply andb_true_iff in Hband. destruct Hband as [Hlo Hhi].
  apply geb_true_iff in Hlo. apply leb_true_iff in Hhi. lra.
Qed.

(** ** The sample run, evaluated *)

Lemma geb_false_iff (x y : R) : Num.geb x y = false <-> x < y.
Proof.
  unfold Num.geb.
  destruct (Rge_dec x y); split; (lra || discriminate || auto).
Qed.

Lemma leb_false_iff (x y : R) : Num.leb x y = false <-> x > y.
Proof.
  unfold Num.leb.
  destruct (Rle_dec x y); split; (lra || discriminate || auto).
Qed.

Lemma gtb_false_iff (x y : R) : Num.gtb x y = false <-> x <= y.
Proof.
  unfold Num.gtb.
  destruct (Rgt_dec x y); split; (lra || discriminate || auto).
Qed.

Lemma truthy_Some (x : R) : x <> 0 -> truthy (Some x) = true.
Proof.
  intros H. simpl.
  destruct (Req_dec_T x 0); [contradiction | reflexivity].
Qed.

Lemma or_default_Some (x d : R) : x <> 0 -> or_default (Some x) d = x.
Proof.
  intros H. simpl.
  destruct (Req_dec_T x 0); [contradiction | reflexivity].
Qed.

(** Settle the comparisons between numerals that the goal contains. *)
Ltac settle_comparisons :=
  repeat match goal with
    | |- context [Num.geb ?a ?b] =>
        first [ rewrite (proj2 (geb_true_iff a b)) by lra
              | rewrite (proj2 (geb_false_iff a b)) by lra ]
    | |- context [Num.leb ?a ?b] =>
        first [ rewrite (proj2 (leb_true_iff a b)) by lra
              | rewrite (proj2 (leb_false_iff a b)) by lra ]
    | |- context [Num.gtb ?a ?b] =>
        first [ rewrite (proj2 (gtb_true_iff a b)) by lra
              | rewrite (proj2 (gtb_false_iff a b)) by lra ]
    | |- context [truthy (Some ?a)] => rewrite (truthy_Some a) by lra
    | |- context [or_default (Some ?a) ?d] =>
        rewrite (or_default_Some a d) by lra
    end.

Lemma mapM_cons {A B : Type} (f : A -> Clocked B) (a : A) (l : list A)
    (k : nat) :
  fst (mapM f (a :: l) k) = fst (f a k) :: fst (mapM f l (snd (f a k))).
Proof.
  simpl. unfold bind, ret. destruct (f a k) as [b k1]. simpl.
  destruct (mapM f l k1) as [bs k2]. reflexivity.
Qed.

Lemma Sample_premium101 : premiumOf Sample.call101 = 0.3.
Proof.
  unfold premiumOf, Sample.call101, Raw.bid, Raw.ask, Raw.lastPrice.
  settle_comparisons. simpl. lra.
Qed.

Lemma Sample_premium105 : premiumOf Sample.call105 = 0.05.
Proof.
  unfold premiumOf, Sample.call105, Raw.bid, Raw.ask, Raw.lastPrice.
  simpl truthy. simpl andb. cbv iota. settle_comparisons. reflexivity.
Qed.

Lemma Sample_days (k : nat) :
  daysTo Sample.expiry (Sample.clock k) = 5.
Proof. unfold daysTo, Sample.expiry, Sample.clock. lra. Qed.

Lemma Sample_band :
  filter (inBand (100 * 1.001) (100 * 1.10))
    [Sample.call105; Sample.call101]
  = [Sample.call105; Sample.call101].
Proof.
  unfold filter, inBand, Sample.call105, Sample.call101, Raw.strike.
  settle_comparisons. reflexivity.
Qed.

Lemma Sample_Api_targets :
  Api.targetsOf Sample.clock Sample.startOfDay [Sample.expiry] 0%nat
  = ([Sample.expiry], 1%nat).
Proof.
  unfold Api.targetsOf, bind, ret, Date_now, Sample.clock,
    Sample.startOfDay, Sample.expiry.
  simpl js_sort. unfold filter. settle_comparisons. reflexivity.
Qed.

Lemma Sample_Client_targets :
  Client.targetsOf Sample.clock [Sample.expiry] 0%nat
  = ([Sample.expiry], 1%nat).
Proof.
  unfold Client.targetsOf, bind, ret, Date_now, Sample.clock, Sample.expiry.
  unfold filter. settle_comparisons. simpl andb. cbv iota.
  unfold Client.minOf. simpl fold_left.
  settle_comparisons. reflexivity.
Qed.

Lemma Api_mapOption_ticks (clock : nat -> R) (spot target : R) (o : Raw.t)
    (k : nat) :
  snd (Api.mapOption clock spot target o k) = Datatypes.S (Datatypes.S k).
Proof. reflexivity. Qed.

Lemma Client_mapOption_ticks (clock : nat -> R) (spot target : R)
    (o : Raw.t) (k : nat) :
  snd (Client.mapOption clock spot target o k)
  = Datatypes.S (Datatypes.S k).
Proof. reflexivity. Qed.

Lemma Sample_Api_flags (k : nat) :
  Api.Scored.meetsTarget
    (fst (Api.mapOption Sample.clock 100 Sample.expiry Sample.call105 k))
  = false
  /\ Api.Scored.meetsTarget
       (fst (Api.mapOption Sample.clock 100 Sample.expiry Sample.call101 k))
     = true.
Proof.
  split.
  - destruct (Api_mapOption_fields Sample.clock 100 Sample.expiry
                Sample.call105 k) as (_ & _ & _ & ->).
    rewrite Sample_days, Sample_premium105. settle_comparisons. reflexivity.
  - destruct (Api_mapOption_fields Sample.clock 100 Sample.expiry
                Sample.call101 k) as (_ & _ & _ & ->).
    rewrite Sample_days, Sample_premium101. settle_comparisons. reflexivity.
Qed.

Lemma Sample_Client_flags (k : nat) :
  Client.Scored.meetsTarget
    (fst (Client.mapOption Sample.clock 100 Sample.expiry Sample.call105 k))
  = false
  /\ Client.Scored.meetsTarget
       (fst (Client.mapOption Sample.clock 100 Sample.expiry Sample.call101
               k))
     = true.
Proof.
  split.
  - destruct (Client_mapOption_fields Sample.clock 100 Sample.expiry
                Sample.call105 k) as (_ & _ & _ & ->).
    rewrite Sample_days, Sample_premium105. settle_comparisons. reflexivity.
  - destruct (Client_mapOption_fields Sample.clock 100 Sample.expiry
                Sample.call101 k) as (_ & _ & _ & ->).
    rewrite Sample_days, Sample_premium101. settle_comparisons. reflexivity.
Qed.

(** The loop body on the sample entry: the two calls come out by ascending
    strike and the 101 call is the best option. *)
Lemma Sample_Api_selected (k : nat) :
  let r :=
    fst (selectExpiration Api.Scored.strike Api.Scored.meetsTarget
           Api.Scored.goalScore Api.bestOptionReason
           (Api.mapOption Sample.clock 100) (100 * 1.001) (100 * 1.10)
           Sample.expiry (Sample.entry Sample.expiry) k) in
  let c105 :=
    fst (Api.mapOption Sample.clock 100 Sample.expiry Sample.call105 k) in
  let c101 :=
    fst (Api.mapOption Sample.clock 100 Sample.expiry Sample.call101
           (Datatypes.S (Datatypes.S k))) in
  calls r = [c101; c105] /\ bestOption r = Some c101
  /\ hasQualifyingOptions r = true.
Proof.
  intros r c105 c101.
  destruct (select_unfold Api.Scored.strike Api.Scored.meetsTarget
              Api.Scored.goalScore Api.bestOptionReason
              (Api.mapOption Sample.clock 100) (100 * 1.001) (100 * 1.10)
              Sample.expiry (Sample.entry Sample.expiry) k)
    as (Hcalls & Hbest & _ & Hq).
  fold r in Hcalls, Hbest, Hq.
  unfold Sample.entry, Opt.calls in Hcalls, Hbest, Hq.
  rewrite Sample_band in Hcalls, Hbest, Hq.
  rewrite !mapM_cons, Api_mapOption_ticks in Hcalls, Hbest, Hq.
  fold c105 c101 in Hcalls, Hbest, Hq.
  change (fst (mapM (Api.mapOption Sample.clock 100 Sample.expiry) []
                 (snd (Api.mapOption Sample.clock 100 Sample.expiry
                         Sample.call101 (Datatypes.S (Datatypes.S k))))))
    with (@nil Api.Scored.t) in Hcalls, Hbest, Hq.
  destruct (Sample_Api_flags k) as [H105 _].
  destruct (Sample_Api_flags (Datatypes.S (Datatypes.S k))) as [_ H101].
  fold c105 in H105. fold c101 in H101.
  split; [| split].
  - rewrite Hcalls. unfold js_sort, fold_right, insert, comesAfter, byStrike.
    change (Api.Scored.strike c105) with 105.
    change (Api.Scored.strike c101) with 101.
    settle_comparisons. reflexivity.
  - rewrite Hbest. unfold filter. rewrite H105, H101. reflexivity.
  - rewrite Hq. unfold filter. rewrite H105, H101. reflexivity.
Qed.

Lemma Sample_Client_selected (k : nat) :
  let r :=
    fst (selectExpiration Client.Scored.strike Client.Scored.meetsTarget
           Client.Scored.goalScore Client.bestOptionReason
           (Client.mapOption Sample.clock 100) (100 * 1.001) (100 * 1.10)
           Sample.expiry (Sample.entry Sample.expiry) k) in
  let c105 :=
    fst (Client.mapOption Sample.clock 100 Sample.expiry Sample.call105 k) in
  let c101 :=
    fst (Client.mapOption Sample.clock 100 Sample.expiry Sample.call101
           (Datatypes.S (Datatypes.S k))) in
  calls r = [c101; c105] /\ bestOption r = Some c101
  /\ hasQualifyingOptions r = true.
Proof.
  intros r c105 c101.
  destruct (select_unfold Client.Scored.strike Client.Scored.meetsTarget
              Client.Scored.goalScore Client.bestOptionReason
              (Client.mapOption Sample.clock 100) (100 * 1.001) (100 * 1.10)
              Sample.expiry (Sample.entry Sample.expiry) k)
    as (Hcalls & Hbest & _ & Hq).
  fold r in Hcalls, Hbest, Hq.
  unfold Sample.entry, Opt.calls in Hcalls, Hbest, Hq.
  rewrite Sample_band in Hcalls, Hbest, Hq.
  rewrite !mapM_cons, Client_mapOption_ticks in Hcalls, Hbest, Hq.
  fold c105 c101 in Hcalls, Hbest, Hq.
  change (fst (mapM (Client.mapOption Sample.clock 100 Sample.expiry) []
                 (snd (Client.mapOption Sample.clock 100 Sample.expiry
                         Sample.call101 (Datatypes.S (Datatypes.S k))))))
    with (@nil Client.Scored.t) in Hcalls, Hbest, Hq.
  destruct (Sample_Client_flags k) as [H105 _].
  destruct (Sample_Client_flags (Datatypes.S (Datatypes.S k))) as [_ H101].
  fold c105 in H105. fold c101 in H101.
  split; [| split].
  - rewrite Hcalls. unfold js_sort, fold_right, insert, comesAfter, byStrike.
    change (Client.Scored.strike c105) with 105.
    change (Client.Scored.strike c101) with 101.
    settle_comparisons. reflexivity.
  - rewrite Hbest. unfold filter. rewrite H105, H101. reflexivity.
  - rewrite Hq. unfold filter. rewrite H105, H101. reflexivity.
Qed.

Lemma Sample_Api_run :
  exists r k,
    Api.optionsWeeks Sample.yf Sample.clock Sample.startOfDay "XYZ"
    = Json {| symbol := "XYZ";
              currentPrice := 100;
              otmRange_low := 100 * 1.001;
              otmRange_high := 100 * 1.10;
              expirations := [r] |}
    /\ r = fst (selectExpiration Api.Scored.strike Api.Scored.meetsTarget
                  Api.Scored.goalScore Api.bestOptionReason
                  (Api.mapOption Sample.clock 100) (100 * 1.001) (100 * 1.10)
                  Sample.expiry (Sample.entry Sample.expiry) k).
Proof.
  destruct (Api_optionsWeeks_succeeds Sample.yf Sample.clock
              Sample.startOfDay "XYZ" (Some 100) [Sample.expiry])
    as (results & Hjson & Hall);
    try reflexivity; try discriminate.
  - apply truthy_Some. lra.
  - intros target _. eexists. reflexivity.
  - rewrite Sample_Api_targets in Hall. simpl in Hall.
    inversion Hall as [| e r es rs [k Hr] Hrest]; subst.
    inversion Hrest; subst.
    exists (fst (selectExpiration Api.Scored.strike Api.Scored.meetsTarget
                   Api.Scored.goalScore Api.bestOptionReason
                   (Api.mapOption Sample.clock 100) (100 * 1.001)
                   (100 * 1.10) Sample.expiry (Sample.entry Sample.expiry)
                   k)), k.
    split; [exact Hjson | reflexivity].
Qed.

Lemma Sample_Client_run :
  exists r k,
    Client.optionsWeeks Sample.yf Sample.clock "XYZ"
    = Json {| symbol := "XYZ";
              currentPrice := 100;
              otmRange_low := 100 * 1.001;
              otmRange_high := 100 * 1.10;
              expirations := [r] |}
    /\ r = fst (selectExpiration Client.Scored.strike
                  Client.Scored.meetsTarget Client.Scored.goalScore
                  Client.bestOptionReason
                  (Client.mapOption Sample.clock 100) (100 * 1.001)
                  (100 * 1.10) Sample.expiry (Sample.entry Sample.expiry) k).
Proof.
  destruct (Client_optionsWeeks_succeeds Sample.yf Sample.clock "XYZ"
              (Some 100) [Sample.expiry])
    as (results & Hjson & Hall);
    try reflexivity; try discriminate.
  - apply truthy_Some. lra.
  - intros target _. eexists. reflexivity.
  - rewrite Sample_Client_targets in Hall. simpl in Hall.
    inversion Hall as [| e r es rs [k Hr] Hrest]; subst.
    inversion Hrest; subst.
    exists (fst (selectExpiration Client.Scored.strike
                   Client.Scored.meetsTarget Client.Scored.goalScore
                   Client.bestOptionReason
                   (Client.mapOption Sample.clock 100) (100 * 1.001)
                   (100 * 1.10) Sample.expiry (Sample.entry Sample.expiry)
                   k)), k.
    split; [exact Hjson | reflexivity].
Qed.

Lemma Sample_without_entries_run :
  Api.optionsWeeks Sample.yfWithoutEntries Sample.clock Sample.startOfDay
    "XYZ"
  = Json {| symbol := "XYZ";
            currentPrice := 100;
            otmRange_low := 100 * 1.001;
            otmRange_high := 100 * 1.10;
            expirations := [] |}.
Proof.
  destruct (Api_optionsWeeks_succeeds Sample.yfWithoutEntries Sample.clock
              Sample.startOfDay "XYZ" (Some 100) [Sample.expiry])
    as (results & Hjson & Hall);
    try reflexivity; try discriminate.
  - apply truthy_Some. lra.
  - intros target _. eexists. reflexivity.
  - rewrite Sample_Api_targets in Hall. simpl in Hall.
    inversion Hall; subst. exact Hjson.
Qed.

(** ** The chain selector's published results *)

(** C5.  Whatever the provider returns and whatever the quoted price, every
    contract in the [calls] of a published expiration has its strike in the
    band from [spot * 1.001] to [spot * 1.10], both ends included; this is
    the [otmRange] of the response. *)
Theorem selected_strikes_within_band :
  (forall yf clock startOfDay symbol body r c,
     Api.optionsWeeks yf clock startOfDay symbol = Json body ->
     In r (expirations body) -> In c (calls r) ->
     currentPrice body * 1.001 <= Api.Scored.strike c
       <= currentPrice body * 1.10
     /\ otmRange_low body = currentPrice body * 1.001
     /\ otmRange_high body = currentPrice body * 1.10)
  /\ (forall yf clock symbol body r c,
        Client.optionsWeeks yf clock symbol = Json body ->
        In r (expirations body) -> In c (calls r) ->
        currentPrice body * 1.001 <= Client.Scored.strike c
          <= currentPrice body * 1.10
        /\ otmRange_low body = currentPrice body * 1.001
        /\ otmRange_high body = currentPrice body * 1.10).
Proof.
  split.
  - intros yf clock startOfDay symbol body r c Hjson Hr Hc.
    destruct (Api_published_result _ _ _ _ _ _ Hjson Hr)
      as (_ & target & opt & k & ->).
    apply Api_optionsWeeks_Json in Hjson.
    destruct Hjson as (price & exps & _ & _ & _ & Hp & Hlo & Hhi & _).
    rewrite Hlo, Hhi, Hp. repeat split; try reflexivity;
      rewrite <- Hp;
      apply (select_in_band Api.Scored.strike Api.Scored.meetsTarget
               Api.Scored.goalScore Api.bestOptionReason
               (Api.mapOption clock (currentPrice body)) _ _
               (fun _ _ _ => eq_refl) target opt k c Hc).
  - intros yf clock symbol body r c Hjson Hr Hc.
    destruct (Client_published_result _ _ _ _ _ Hjson Hr)
      as (_ & target & opt & k & ->).
    apply Client_optionsWeeks_Json in Hjson.
    destruct Hjson as (price & exps & _ & _ & _ & Hp & Hlo & Hhi & _).
    rewrite Hlo, Hhi, Hp. repeat split; try reflexivity;
      rewrite <- Hp;
      apply (select_in_band Client.Scored.strike Client.Scored.meetsTarget
               Client.Scored.goalScore Client.bestOptionReason
               (Client.mapOption clock (currentPrice body)) _ _
               (fun _ _ _ => eq_refl) target opt k c Hc).
Qed.

Lemma selected_strikes_within_band_witness :
  exists body r c,
    Api.optionsWeeks Sample.yf Sample.clock Sample.startOfDay "XYZ"
    = Json body
    /\ In r (expirations body) /\ In c (calls r)
    /\ Api.Scored.strike c = 101
    /\ currentPrice body * 1.001 <= Api.Scored.strike c
         <= currentPrice body * 1.10.
Proof.
  destruct Sample_Api_run as (r & k & Hjson & Hr).
  pose proof (Sample_Api_selected k) as (Hcalls & _). rewrite <- Hr in Hcalls.
  eexists. exists r. eexists.
  assert (Hin : In r [r]) by now left.
  assert (Hc : In (fst (Api.mapOption Sample.clock 100 Sample.expiry
                          Sample.call101 (Datatypes.S (Datatypes.S k))))
                 (calls r)) by (rewrite Hcalls; now left).
  split; [exact Hjson |]. split; [exact Hin |]. split; [exact Hc |].
  split; [reflexivity |].
  apply (proj1 selected_strikes_within_band Sample.yf Sample.clock
           Sample.startOfDay "XYZ"%string _ r _ Hjson Hin Hc).
Defined.

(** C4.  In every published expiration the [calls] are in ascending order
    of strike, and the best option, when there is one, is among the
    contracts of [calls] that meet a target and shows a score that no other
    such contract exceeds. *)
Theorem chain_selector_sorted_and_best :
  (forall yf clock startOfDay symbol body r,
     Api.optionsWeeks yf clock startOfDay symbol = Json body ->
     In r (expirations body) ->
     sortedByStrike Api.Scored.strike (calls r)
     /\ forall best, bestOption r = Some best ->
          bestAmongQualifying Api.Scored.meetsTarget Api.Scored.goalScore
            (calls r) best)
  /\ (forall yf clock symbol body r,
        Client.optionsWeeks yf clock symbol = Json body ->
        In r (expirations body) ->
        sortedByStrike Client.Scored.strike (calls r)
        /\ forall best, bestOption r = Some best ->
             bestAmongQualifying Client.Scored.meetsTarget
               Client.Scored.goalScore (calls r) best).
Proof.
  split.
  - intros yf clock startOfDay symbol body r Hjson Hr.
    destruct (Api_published_result _ _ _ _ _ _ Hjson Hr)
      as (_ & target & opt & k & ->).
    split; [apply select_sorted |].
    intros best Hbest. apply select_best; [| exact Hbest].
    intros t o k' _ Hmeets. rewrite Api_mapOption_scored by exact Hmeets.
    apply toFixed_parses.
  - intros yf clock symbol body r Hjson Hr.
    destruct (Client_published_result _ _ _ _ _ Hjson Hr)
      as (_ & target & opt & k & ->).
    split; [apply select_sorted |].
    intros best Hbest. apply select_best; [| exact Hbest].
    intros t o k' _ Hmeets. rewrite Client_mapOption_scored by exact Hmeets.
    apply toFixed_parses.
Qed.

Lemma chain_selector_sorted_and_best_witness :
  exists body r best,
    Api.optionsWeeks Sample.yf Sample.clock Sample.startOfDay "XYZ"
    = Json body
    /\ In r (expirations body)
    /\ bestOption r = Some best
    /\ List.length (calls r) = 2%nat
    /\ sortedByStrike Api.Scored.strike (calls r)
    /\ bestAmongQualifying Api.Scored.meetsTarget Api.Scored.goalScore
         (calls r) best.
Proof.
  destruct Sample_Api_run as (r & k & Hjson & Hr).
  pose proof (Sample_Api_selected k) as (Hcalls & Hbest & _).
  rewrite <- Hr in Hcalls, Hbest.
  eexists. exists r. eexists.
  assert (Hin : In r [r]) by now left.
  split; [exact Hjson |]. split; [exact Hin |]. split; [exact Hbest |].
  split; [now rewrite Hcalls |].
  destruct (proj1 chain_selector_sorted_and_best Sample.yf Sample.clock
              Sample.startOfDay "XYZ"%string _ r Hjson Hin) as [Hsorted Hmax].
  split; [exact Hsorted | exact (Hmax _ Hbest)].
Defined.

Lemma Api_goalScore_fallback (clock : nat -> R) (spot target : R)
    (o : Raw.t) (k : nat) :
  let c := fst (Api.mapOption clock spot target o k) in
  let estimate := apiEstimate spot target (clock k) o in
  ~ apiScore spot target (clock k) (clock (Datatypes.S k)) o > 0 ->
  Api.Scored.goalScore c = Api.Scored.returnAssignmentRatioEnhanced c
  /\ (premiumOf o <= 0 \/ enhanced estimate <= 0 ->
      Api.Scored.goalScore c = NA)
  /\ (premiumOf o > 0 -> enhanced estimate > 0 ->
      Api.Scored.goalScore c
      = toFixed (((premiumOf o / spot) * 100) / (enhanced estimate * 100)) 3).
Proof.
  intros c estimate Hscore.
  destruct (Api_mapOption_fields clock spot target o k)
    as (_ & Hgoal & Hratio & _).
  fold c estimate in Hgoal, Hratio.
  apply Rnot_gt_le, gtb_false_iff in Hscore. rewrite Hscore in Hgoal.
  split; [exact Hgoal |]. rewrite Hgoal, Hratio. split.
  - intros [Hp | He].
    + apply gtb_false_iff in Hp. now rewrite Hp.
    + apply gtb_false_iff in He. rewrite He. now rewrite andb_false_r.
  - intros Hp He. apply gtb_true_iff in Hp. apply gtb_true_iff in He.
    now rewrite Hp, He.
Qed.

Lemma Client_goalScore_fallback (clock : nat -> R) (spot target : R)
    (o : Raw.t) (k : nat) :
  let c := fst (Client.mapOption clock spot target o k) in
  let estimate := clientEstimate spot target (clock k) o in
  ~ clientScore spot target (clock k) (clock (Datatypes.S k)) o > 0 ->
  Client.Scored.goalScore c = Client.Scored.returnAssignmentRatio c
  /\ (premiumOf o <= 0 \/ estimate <= 0 -> Client.Scored.goalScore c = NA)
  /\ (premiumOf o > 0 -> estimate > 0 ->
      Client.Scored.goalScore c
      = toFixed (((premiumOf o / spot) * 100) / (estimate * 100)) 3).
Proof.
  intros c estimate Hscore.
  destruct (Client_mapOption_fields clock spot target o k)
    as (_ & Hgoal & Hratio & _).
  fold c estimate in Hgoal, Hratio.
  apply Rnot_gt_le, gtb_false_iff in Hscore. rewrite Hscore in Hgoal.
  split; [exact Hgoal |]. rewrite Hgoal, Hratio. split.
  - intros [Hp | He].
    + apply gtb_false_iff in Hp. now rewrite Hp.
    + apply gtb_false_iff in He. rewrite He. now rewrite andb_false_r.
  - intros Hp He. apply gtb_true_iff in Hp. apply gtb_true_iff in He.
    now rewrite Hp, He.
Qed.

(** C10.  When the score that [mapOption] computes for a contract is not
    strictly positive (the sentinel -1 in particular), the published
    [goalScore] is the text of the return/assignment ratio instead: ['N/A']
    when the premium or the probability is not positive, the ratio to three
    digits otherwise.  No contract of a response shows -1 as its
    [goalScore]. *)
Theorem disqualified_score_not_published :
  (forall clock spot target o k,
     let c := fst (Api.mapOption clock spot target o k) in
     let estimate := apiEstimate spot target (clock k) o in
     ~ apiScore spot target (clock k) (clock (Datatypes.S k)) o > 0 ->
     Api.Scored.goalScore c = Api.Scored.returnAssignmentRatioEnhanced c
     /\ (premiumOf o <= 0 \/ enhanced estimate <= 0 ->
         Api.Scored.goalScore c = NA)
     /\ (premiumOf o > 0 -> enhanced estimate > 0 ->
         Api.Scored.goalScore c
         = toFixed (((premiumOf o / spot) * 100)
                    / (enhanced estimate * 100)) 3))
  /\ (forall yf clock startOfDay symbol body r c,
        Api.optionsWeeks yf clock startOfDay symbol = Json body ->
        In r (expirations body) -> In c (calls r) ->
        ~ shows (Api.Scored.goalScore c) (-1))
  /\ (forall clock spot target o k,
        let c := fst (Client.mapOption clock spot target o k) in
        let estimate := clientEstimate spot target (clock k) o in
        ~ clientScore spot target (clock k) (clock (Datatypes.S k)) o > 0 ->
        Client.Scored.goalScore c = Client.Scored.returnAssignmentRatio c
        /\ (premiumOf o <= 0 \/ estimate <= 0 ->
            Client.Scored.goalScore c = NA)
        /\ (premiumOf o > 0 -> estimate > 0 ->
            Client.Scored.goalScore c
            = toFixed (((premiumOf o / spot) * 100) / (estimate * 100)) 3))
  /\ (forall yf clock symbol body r c,
        Client.optionsWeeks yf clock symbol = Json body ->
        In r (expirations body) -> In c (calls r) ->
        ~ shows (Client.Scored.goalScore c) (-1)).
Proof.
  split; [exact Api_goalScore_fallback |].
  split; [| split; [exact Client_goalScore_fallback |]].
  - intros yf clock startOfDay symbol body r c Hjson Hr Hc Hshows.
    destruct (Api_published_result _ _ _ _ _ _ Hjson Hr)
      as (Hne & target & opt & k & ->).
    apply select_calls_origin in Hc. destruct Hc as (o & k' & Hband & ->).
    pose proof (band_price_positive _ _ Hne Hband) as Hspot.
    pose proof (Api_goalScore_nonneg _ _ _ _ _ _ Hspot Hshows). lra.
  - intros yf clock symbol body r c Hjson Hr Hc Hshows.
    destruct (Client_published_result _ _ _ _ _ Hjson Hr)
      as (Hne & target & opt & k & ->).
    apply select_calls_origin in Hc. destruct Hc as (o & k' & Hband & ->).
    pose proof (band_price_positive _ _ Hne Hband) as Hspot.
    pose proof (Client_goalScore_nonneg _ _ _ _ _ _ Hspot Hshows). lra.
Qed.

Lemma Sample_score105 :
  apiScore 100 Sample.expiry (Sample.clock 0%nat) (Sample.clock 1%nat)
    Sample.call105
  = -1.
Proof.
  unfold apiScore, Api.calculateGoalBasedScore.
  rewrite Sample_days, Sample_premium105.
  apply goalBasedScore_gate_fails; lra.
Qed.

Lemma disqualified_score_not_published_witness :
  (~ apiScore 100 Sample.expiry (Sample.clock 0%nat) (Sample.clock 1%nat)
       Sample.call105 > 0)
  /\ Api.Scored.goalScore
       (fst (Api.mapOption Sample.clock 100 Sample.expiry Sample.call105
               0%nat))
     = Api.Scored.returnAssignmentRatioEnhanced
         (fst (Api.mapOption Sample.clock 100 Sample.expiry Sample.call105
               0%nat))
  /\ exists body r c,
       Api.optionsWeeks Sample.yf Sample.clock Sample.startOfDay "XYZ"
       = Json body
       /\ In r (expirations body) /\ In c (calls r)
       /\ ~ shows (Api.Scored.goalScore c) (-1).
Proof.
  assert (Hscore : ~ apiScore 100 Sample.expiry (Sample.clock 0%nat)
                       (Sample.clock 1%nat) Sample.call105 > 0)
    by (rewrite Sample_score105; lra).
  split; [exact Hscore |]. split.
  - apply (proj1 disqualified_score_not_published Sample.clock 100
             Sample.expiry Sample.call105 0%nat Hscore).
  - destruct Sample_Api_run as (r & k & Hjson & Hr).
    pose proof (Sample_Api_selected k) as (Hcalls & _).
    rewrite <- Hr in Hcalls.
    eexists. exists r. eexists.
    assert (Hin : In r [r]) by now left.
    assert (Hc : In (fst (Api.mapOption Sample.clock 100 Sample.expiry
                            Sample.call105 k)) (calls r))
      by (rewrite Hcalls; right; now left).
    split; [exact Hjson |]. split; [exact Hin |]. split; [exact Hc |].
    apply (proj1 (proj2 disqualified_score_not_published) Sample.yf
             Sample.clock Sample.startOfDay "XYZ"%string _ r _ Hjson Hin Hc).
Defined.

(** ** Expirations without an entry *)

(** C8, as stated, fails: with one target expiration for which the provider
    returns no entry, the request succeeds with no result at all, neither an
    empty result for that expiration nor one result per target date. *)
Lemma skipped_expiration_counterexample :
  let targets :=
    fst (Api.targetsOf Sample.clock Sample.startOfDay [Sample.expiry] 0%nat) in
  targets = [Sample.expiry]
  /\ optionChain Sample.yfWithoutEntries "XYZ" Sample.expiry = Returns None
  /\ exists body,
       Api.optionsWeeks Sample.yfWithoutEntries Sample.clock
         Sample.startOfDay "XYZ" = Json body
       /\ expirations body = []
       /\ List.length (expirations body) <> List.length targets.
Proof.
  cbv zeta. rewrite Sample_Api_targets. simpl fst.
  split; [reflexivity |]. split; [reflexivity |].
  eexists. split; [apply Sample_without_entries_run |].
  split; [reflexivity |]. simpl. discriminate.
Qed.

(** C8, amended.  Take a symbol that is not empty, a quote that returns a
    price other than 0, a list of expirations that the provider returns and
    that is not empty, and a chain request that throws for none of the
    target expirations.  Then the request succeeds and publishes, in target
    order, exactly one result per target expiration for which the provider
    returned an entry: a target without an entry is skipped and the loop
    goes on with the next one.  The result of an entry is what the loop
    body builds for it, and it is the empty result (no calls, no best
    option, no reason, [hasQualifyingOptions] false) when the entry lists
    no call in the band.  Without a symbol, a price or an expiration the
    handler answers 400 or 404 before the loop starts. *)
Theorem missing_entry_skips_expiration :
  (forall yf clock startOfDay symbol price exps,
     symbol <> ""%string ->
     quoteSummary yf symbol = Returns price ->
     truthy price = true ->
     expirationDates yf symbol = Returns exps ->
     exps <> [] ->
     let targets := fst (Api.targetsOf clock startOfDay exps 0%nat) in
     (forall target, In target targets ->
        exists entry, optionChain yf symbol target = Returns entry) ->
     exists body,
       Api.optionsWeeks yf clock startOfDay symbol = Json body
       /\ List.length (expirations body)
          = List.length (entries (optionChain yf symbol) targets)
       /\ Forall2
            (fun e r =>
               (exists k,
                  r = fst (selectExpiration Api.Scored.strike
                             Api.Scored.meetsTarget Api.Scored.goalScore
                             Api.bestOptionReason
                             (Api.mapOption clock (currentPrice body))
                             (otmRange_low body) (otmRange_high body)
                             (fst e) (snd e) k))
               /\ (filter (inBand (otmRange_low body) (otmRange_high body))
                     (match Opt.calls (snd e) with
                      | Some l => l
                      | None => []
                      end) = [] ->
                   emptyResult r))
            (entries (optionChain yf symbol) targets) (expirations body))
  /\ (forall yf clock symbol price exps,
        symbol <> ""%string ->
        quoteSummary yf symbol = Returns price ->
        truthy price = true ->
        expirationDates yf symbol = Returns exps ->
        exps <> [] ->
        let targets := fst (Client.targetsOf clock exps 0%nat) in
        (forall target, In target targets ->
           exists entry, optionChain yf symbol target = Returns entry) ->
        exists body,
          Client.optionsWeeks yf clock symbol = Json body
          /\ List.length (expirations body)
             = List.length (entries (optionChain yf symbol) targets)
          /\ Forall2
               (fun e r =>
                  (exists k,
                     r = fst (selectExpiration Client.Scored.strike
                                Client.Scored.meetsTarget
                                Client.Scored.goalScore
                                Client.bestOptionReason
                                (Client.mapOption clock (currentPrice body))
                                (otmRange_low body) (otmRange_high body)
                                (fst e) (snd e) k))
                  /\ (filter
                        (inBand (otmRange_low body) (otmRange_high body))
                        (match Opt.calls (snd e) with
                         | Some l => l
                         | None => []
                         end) = [] ->
                      emptyResult r))
               (entries (optionChain yf symbol) targets) (expirations body)).
Proof.
  split.
  - intros yf clock startOfDay symbol price exps Hs Hq Hp He Hne targets Hc.
    destruct (Api_optionsWeeks_succeeds yf clock startOfDay symbol price exps
                Hs Hq Hp He Hne Hc) as (results & Hjson & Hall).
    eexists. split; [exact Hjson |]. simpl. fold targets in Hall.
    split; [symmetry; exact (Forall2_length Hall) |].
    eapply Forall2_impl; [| exact Hall].
    intros e r [k ->]. split; [now exists k |].
    intros Hempty. now apply select_empty.
  - intros yf clock symbol price exps Hs Hq Hp He Hne targets Hc.
    destruct (Client_optionsWeeks_succeeds yf clock symbol price exps
                Hs Hq Hp He Hne Hc) as (results & Hjson & Hall).
    eexists. split; [exact Hjson |]. simpl. fold targets in Hall.
    split; [symmetry; exact (Forall2_length Hall) |].
    eapply Forall2_impl; [| exact Hall].
    intros e r [k ->]. split; [now exists k |].
    intros Hempty. now apply select_empty.
Qed.

(** ** Worked values *)

Example normalCDF_at_zero : normalCDF 0 = 0.5000000005.
Proof.
  unfold normalCDF, Math.abs, Math.sqrt, Math.exp.
  destruct (Rge_dec 0 0); [| lra].
  rewrite Rabs_R0.
  replace (0 / sqrt 2) with 0 by (unfold Rdiv; ring).
  replace (- 0 * 0) with 0 by ring. rewrite exp_0. lra.
Qed.

Example toFixed_rounds : toFixed 12.3456 2 = Fixed 2 1235.
Proof.
  unfold toFixed. destruct (Rlt_dec 12.3456 0); [lra |].
  f_equal. symmetry. apply Int_part_spec. simpl. lra.
Qed.

Example toFixed_negative : toFixed (-0.0456) 2 = Fixed 2 (-5).
Proof.
  unfold toFixed. destruct (Rlt_dec (-0.0456) 0); [| lra].
  rewrite <- (Int_part_spec (- (-0.0456) * 10 ^ 2 + 0.5) 5);
    [reflexivity | simpl; lra].
Qed.

Example round_half_up : Math.round 2.5 = 3%Z /\ Math.round (-2.5) = (-2)%Z.
Proof.
  unfold Math.round. split; symmetry; apply Int_part_spec; lra.
Qed.

(** A premium of 0.30 on a spot of 100 five days before expiry passes both
    weekly gates; a premium of 0.20 passes only the one of [api/index.js]. *)
Example sample_scores :
  Api.calculateGoalBasedScore 0.3 20 105 100 5 = 0.003 / 0.201
  /\ Api.calculateGoalBasedScore 0.3 40 105 100 5 = 0.003 / 0.401 * 0.5
  /\ Client.calculateGoalBasedScore 0.3 20 105 100 5 = 0.003 / 0.201
  /\ Client.calculateGoalBasedScore 0.2 20 105 100 5 = -1.
Proof.
  unfold Api.calculateGoalBasedScore, Client.calculateGoalBasedScore.
  repeat split.
  - rewrite goalBasedScore_gate_passes by lra.
    destruct (Rgt_dec 20 30); [lra |]. lra.
  - rewrite goalBasedScore_gate_passes by lra.
    destruct (Rgt_dec 40 30); [| lra]. lra.
  - rewrite goalBasedScore_gate_passes by lra.
    destruct (Rgt_dec 20 30); [lra |]. lra.
  - apply goalBasedScore_gate_fails; lra.
Qed.

(** * Further properties *)

(** ** The shape of [normalCDF] *)

Lemma erfcPolynomial_bounds (t : R) :
  0 <= t <= 1 -> 0 <= erfcPolynomial t <= 1.
Proof.
  intros [H0 H1]. unfold erfcPolynomial. split.
  - apply Rmult_le_pos; [nra | lra].
  - assert (Hq : 0 <= 0.999999999 + 0.745170407 * t
                      + 1.029667143 * (t * t)
                      + -0.391746598 * (t * t * t)
                      + 1.061405429 * (t * t * t * t)).
    { assert (0 <= t * t) by nra.
      assert (t * t * t <= t * t) by nra.
      assert (0 <= t * t * t * t) by nra. nra. }
    assert (Hm : 0 <= (1 - t)
                      * (0.999999999 + 0.745170407 * t
                         + 1.029667143 * (t * t)
                         + -0.391746598 * (t * t * t)
                         + 1.061405429 * (t * t * t * t))).
    { apply Rmult_le_pos; lra. }
    nra.
Qed.

Lemma erfcPolynomial_monotone (t s : R) :
  0 <= t -> t <= s -> s <= 1 -> erfcPolynomial t <= erfcPolynomial s.
Proof.
  intros H0 Hts H1.
  assert (E : erfcPolynomial s - erfcPolynomial t
              = (s - t)
                * (0.254829592 + -0.284496736 * (s + t)
                   + 1.421413741 * (s * s + s * t + t * t)
                   + -1.453152027 * ((s + t) * (s * s + t * t))
                   + 1.061405429
                     * (s * s * s * s + s * s * s * t + s * s * t * t
                        + s * t * t * t + t * t * t * t))).
  { unfold erfcPolynomial. ring. }
  assert (B : 0 <= 0.254829592 + -0.284496736 * (s + t)
                   + 1.421413741 * (s * s + s * t + t * t)
                   + -1.453152027 * ((s + t) * (s * s + t * t))
                   + 1.061405429
                     * (s * s * s * s + s * s * s * t + s * s * t * t
                        + s * t * t * t + t * t * t * t)) by nra.
  nra.
Qed.

Lemma erfc_argument_bounds (u : R) :
  0 <= u -> 0 < 1 / (1 + 0.3275911 * u) <= 1.
Proof.
  intros Hu. assert (Hd : 1 <= 1 + 0.3275911 * u) by nra.
  assert (Hi : 0 < / (1 + 0.3275911 * u)) by (apply Rinv_0_lt_compat; lra).
  split; [lra |].
  apply Rmult_le_reg_r with (1 + 0.3275911 * u); [lra |].
  unfold Rdiv. rewrite Rmult_assoc, Rinv_l by lra. lra.
Qed.

Lemma erfc_argument_antitone (u v : R) :
  0 <= u -> u <= v ->
  1 / (1 + 0.3275911 * v) <= 1 / (1 + 0.3275911 * u).
Proof.
  intros Hu Huv. unfold Rdiv. rewrite !Rmult_1_l.
  apply Rinv_le_contravar; nra.
Qed.

Lemma erfcTail_range (u : R) : 0 <= u -> 0 <= erfcTail u <= 1.
Proof.
  intros Hu. unfold erfcTail.
  pose proof (erfc_argument_bounds u Hu) as Ht.
  assert (HP : 0 <= erfcPolynomial (1 / (1 + 0.3275911 * u)) <= 1)
    by (apply erfcPolynomial_bounds; lra).
  pose proof (exp_neg_square_bounds u) as He. nra.
Qed.

Lemma erfcTail_antitone (u v : R) :
  0 <= u -> u <= v -> erfcTail v <= erfcTail u.
Proof.
  intros Hu Huv. unfold erfcTail.
  pose proof (erfc_argument_bounds u Hu) as Htu.
  pose proof (erfc_argument_bounds v (Rle_trans _ _ _ Hu Huv)) as Htv.
  pose proof (erfc_argument_antitone u v Hu Huv) as Ht.
  assert (HP : erfcPolynomial (1 / (1 + 0.3275911 * v))
               <= erfcPolynomial (1 / (1 + 0.3275911 * u)))
    by (apply erfcPolynomial_monotone; lra).
  assert (HPv : 0 <= erfcPolynomial (1 / (1 + 0.3275911 * v)) <= 1)
    by (apply erfcPolynomial_bounds; lra).
  assert (He : exp ((- v) * v) <= exp ((- u) * u)).
  { destruct (Req_dec u v) as [-> | Hne]; [lra |].
    left. apply exp_increasing. nra. }
  pose proof (exp_neg_square_bounds v) as Hev.
  pose proof (exp_neg_square_bounds u) as Heu. nra.
Qed.

Lemma normalCDF_right (x : R) :
  x >= 0 -> normalCDF x = 1 - 0.5 * erfcTail (x / sqrt 2).
Proof.
  intros Hx. unfold normalCDF, erfcTail, erfcPolynomial, Math.abs, Math.sqrt,
    Math.exp.
  destruct (Rge_dec x 0); [| contradiction].
  rewrite Rabs_right by exact Hx. lra.
Qed.

Lemma normalCDF_left (x : R) :
  x < 0 -> normalCDF x = 0.5 * erfcTail ((- x) / sqrt 2).
Proof.
  intros Hx. unfold normalCDF, erfcTail, erfcPolynomial, Math.abs, Math.sqrt,
    Math.exp.
  destruct (Rge_dec x 0); [lra |].
  rewrite Rabs_left by exact Hx. lra.
Qed.

Lemma over_sqrt2_nonneg (x : R) : 0 <= x -> 0 <= x / sqrt 2.
Proof.
  intros Hx. apply Rmult_le_pos; [exact Hx |].
  left. apply Rinv_0_lt_compat. apply sqrt_lt_R0. lra.
Qed.

Lemma over_sqrt2_monotone (x y : R) : x <= y -> x / sqrt 2 <= y / sqrt 2.
Proof.
  intros Hxy. apply Rmult_le_compat_r; [| exact Hxy].
  left. apply Rinv_0_lt_compat. apply sqrt_lt_R0. lra.
Qed.

(** Away from 0 the two arguments of the reflection fall into opposite
    branches of the sign test, and the reflection is exact. *)
Lemma normalCDF_reflect (x : R) :
  x <> 0 -> normalCDF (- x) = 1 - normalCDF x.
Proof.
  intros Hne. destruct (Rlt_dec x 0) as [Hneg | Hpos].
  - rewrite (normalCDF_left x Hneg). rewrite normalCDF_right by lra. lra.
  - rewrite (normalCDF_right x) by lra.
    rewrite normalCDF_left by lra. rewrite Ropp_involutive. lra.
Qed.

(** X1.  With numbers taken as reals, [normalCDF (-x)] and
    [1 - normalCDF x] differ by at most 1e-6 for every [x].  The largest
    gap is at 0, where the sign test [x >= 0] sends both arguments to the
    same branch and the two sides are 0.5000000005 and 0.4999999995. *)
Theorem normalCDF_symmetric_within_tolerance (x : R) :
  Rabs (normalCDF (- x) - (1 - normalCDF x)) <= 0.000001.
Proof.
  destruct (Req_dec_T x 0) as [-> | Hne].
  - rewrite Ropp_0, normalCDF_at_zero.
    apply Rabs_le. lra.
  - rewrite (normalCDF_reflect x Hne).
    replace (1 - normalCDF x - (1 - normalCDF x)) with 0 by ring.
    rewrite Rabs_R0. lra.
Qed.

Lemma normalCDF_upper_half (z : R) : 0 <= z -> 0.5 <= normalCDF z.
Proof.
  intros Hz. rewrite normalCDF_right by lra.
  pose proof (erfcTail_range (z / sqrt 2) (over_sqrt2_nonneg z Hz)). lra.
Qed.

Lemma normalCDF_lower_half (z : R) : z < 0 -> normalCDF z <= 0.5.
Proof.
  intros Hz. rewrite normalCDF_left by lra.
  assert (Hpos : 0 <= - z) by lra.
  pose proof (erfcTail_range (- z / sqrt 2) (over_sqrt2_nonneg _ Hpos)).
  lra.
Qed.

Lemma normalCDF_nondecreasing (x y : R) :
  x <= y -> normalCDF x <= normalCDF y.
Proof.
  intros Hxy.
  destruct (Rlt_dec x 0) as [Hx | Hx]; destruct (Rlt_dec y 0) as [Hy | Hy].
  - rewrite !normalCDF_left by lra.
    assert (erfcTail (- x / sqrt 2) <= erfcTail (- y / sqrt 2)).
    { apply erfcTail_antitone.
      - apply over_sqrt2_nonneg. lra.
      - apply over_sqrt2_monotone. lra. }
    lra.
  - pose proof (normalCDF_lower_half x Hx).
    assert (Hy0 : 0 <= y) by lra.
    pose proof (normalCDF_upper_half y Hy0). lra.
  - lra.
  - rewrite !normalCDF_right by lra.
    assert (erfcTail (y / sqrt 2) <= erfcTail (x / sqrt 2)).
    { apply erfcTail_antitone.
      - apply over_sqrt2_nonneg. lra.
      - apply over_sqrt2_monotone. lra. }
    lra.
Qed.



(** ** Delta and probability *)



Lemma original_before_expiry
    (spot strike timeToExpiry riskFreeRate volatility : R)
    (marketDelta : option R) :
  timeToExpiry > 0 ->
  original (calculateAssignmentProbability spot strike timeToExpiry
              riskFreeRate volatility marketDelta)
  = normalCDF (Spec.d2 spot strike timeToExpiry riskFreeRate volatility).
Proof.
  intros HT. unfold calculateAssignmentProbability.
  destruct (Rle_dec timeToExpiry 0); [lra |].
  simpl. now rewrite code_d2_is_spec_d2.
Qed.




Lemma call_delta_range
    (spot strike timeToExpiry riskFreeRate volatility : R) :
  0 <= calculateDelta spot strike timeToExpiry riskFreeRate volatility "call"
    <= 1.
Proof.
  unfold calculateDelta. destruct (Rle_dec timeToExpiry 0); simpl.
  - destruct (Rgt_dec spot strike); lra.
  - apply normalCDF_range.
Qed.

(** X4.  For a positive spot, strike and volatility, [calculateDelta]
    treats every option type other than ['call'] as a put.  A call delta
    lies in [0, 1], a put delta in [-1, 0], and before expiry the put delta
    is the call delta minus one. *)
Theorem delta_ranges
    (spot strike timeToExpiry riskFreeRate volatility : R)
    (optionType : string) :
  spot > 0 -> strike > 0 -> volatility > 0 ->
  0 <= calculateDelta spot strike timeToExpiry riskFreeRate volatility "call"
    <= 1
  /\ (optionType <> "call"%string ->
      -1 <= calculateDelta spot strike timeToExpiry riskFreeRate volatility
              optionType <= 0)
  /\ (optionType <> "call"%string -> timeToExpiry > 0 ->
      calculateDelta spot strike timeToExpiry riskFreeRate volatility
        optionType
      = calculateDelta spot strike timeToExpiry riskFreeRate volatility
          "call" - 1).
Proof.
  intros _ _ _.
  unfold calculateDelta. cbv zeta.
  set (d1 := (Math.log (spot / strike)
              + (riskFreeRate + 0.5 * volatility * volatility) * timeToExpiry)
             / (volatility * Math.sqrt timeToExpiry)).
  pose proof (normalCDF_range d1) as Hrange.
  split; [| split].
  - destruct (Rle_dec timeToExpiry 0); simpl; [| exact Hrange].
    destruct (Rgt_dec spot strike); lra.
  - intros Hty. apply String.eqb_neq in Hty. rewrite Hty.
    destruct (Rle_dec timeToExpiry 0); [| lra].
    destruct (Rlt_dec spot strike); lra.
  - intros Hty HT. apply String.eqb_neq in Hty. rewrite Hty.
    destruct (Rle_dec timeToExpiry 0); [lra | reflexivity].
Qed.

Lemma delta_ranges_witness :
  (100 > 0 /\ 105 > 0 /\ 0.25 > 0)
  /\ ("put" <> "call")%string /\ 7 / 365 > 0
  /\ 0 <= calculateDelta 100 105 (7 / 365) 0.045 0.25 "call" <= 1
  /\ -1 <= calculateDelta 100 105 (7 / 365) 0.045 0.25 "put" <= 0
  /\ calculateDelta 100 105 (7 / 365) 0.045 0.25 "put"
     = calculateDelta 100 105 (7 / 365) 0.045 0.25 "call" - 1.
Proof.
  assert (Hs : 100 > 0) by lra.
  assert (Hk : 105 > 0) by lra.
  assert (Hv : 0.25 > 0) by lra.
  assert (Hty : "put"%string <> "call"%string) by discriminate.
  assert (HT : 7 / 365 > 0) by lra.
  split; [auto |]. split; [exact Hty |]. split; [exact HT |].
  destruct (delta_ranges 100 105 (7 / 365) 0.045 0.25 "put" Hs Hk Hv)
    as (Hcall & Hput & Hparity).
  split; [exact Hcall |].
  split; [exact (Hput Hty) | exact (Hparity Hty HT)].
Defined.

(** X5.  For a positive spot, strike and volatility: before expiry the
    call delta is at least the assignment probability, since [d2 <= d1];
    from expiry on the order is the other way round, the delta never
    exceeds the probability. *)
Theorem delta_against_probability
    (spot strike timeToExpiry riskFreeRate volatility : R)
    (marketDelta : option R) :
  spot > 0 -> strike > 0 -> volatility > 0 ->
  let delta :=
    calculateDelta spot strike timeToExpiry riskFreeRate volatility "call" in
  let p :=
    calculateAssignmentProbability spot strike timeToExpiry riskFreeRate
      volatility marketDelta in
  (timeToExpiry > 0 -> original p <= delta)
  /\ (timeToExpiry <= 0 -> delta <= original p /\ delta <= enhanced p).
Proof.
  intros _ _ Hv delta p. subst delta p. split.
  - intros HT. rewrite original_before_expiry by exact HT.
    unfold calculateDelta. destruct (Rle_dec timeToExpiry 0); [lra |].
    simpl. apply normalCDF_nondecreasing. unfold Spec.d2, Spec.d1, Math.log,
      Math.sqrt.
    replace (0.5 * volatility * volatility) with (0.5 * volatility ^ 2)
      by ring.
    assert (0 < sqrt timeToExpiry) by now apply sqrt_lt_R0.
    assert (0 < volatility * sqrt timeToExpiry)
      by now apply Rmult_lt_0_compat.
    lra.
  - intros HT. unfold calculateDelta, calculateAssignmentProbability.
    destruct (Rle_dec timeToExpiry 0); [| lra]. simpl.
    destruct (Rgt_dec spot strike); destruct (Rle_dec strike spot); lra.
Qed.

Lemma delta_against_probability_witness :
  (100 > 0 /\ 105 > 0 /\ 0.25 > 0 /\ 7 / 365 > 0 /\ 0 <= 0)
  /\ original (calculateAssignmentProbability 100 105 (7 / 365) 0.045 0.25
                 None)
     <= calculateDelta 100 105 (7 / 365) 0.045 0.25 "call"
  /\ calculateDelta 100 105 0 0.045 0.25 "call"
     <= original (calculateAssignmentProbability 100 105 0 0.045 0.25 None).
Proof.
  split; [lra |]. split.
  - apply (delta_against_probability 100 105 (7 / 365) 0.045 0.25 None); lra.
  - apply (delta_against_probability 100 105 0 0.045 0.25 None); lra.
Defined.

(** ** Scores and flags *)

Lemma goalBasedScore_positive_iff
    (weeklyTarget biweeklyTarget premium p strike spot daysToExpiry : R) :
  0 < weeklyTarget -> 0 < biweeklyTarget -> 0 <= p ->
  (goalBasedScore weeklyTarget biweeklyTarget premium p strike spot
     daysToExpiry > 0
   <-> (daysToExpiry <= 8 /\ premium / spot >= weeklyTarget)
       \/ (8 < daysToExpiry <= 16 /\ premium / spot >= biweeklyTarget))
  /\ (goalBasedScore weeklyTarget biweeklyTarget premium p strike spot
        daysToExpiry = -1
      \/ goalBasedScore weeklyTarget biweeklyTarget premium p strike spot
           daysToExpiry > 0).
Proof.
  intros Hw Hb Hp.
  destruct (Rle_dec daysToExpiry 8) as [H8 | H8];
    [destruct (Rge_dec (premium / spot) weeklyTarget) as [Hr | Hr]
    | destruct (Rle_dec daysToExpiry 16) as [H16 | H16];
      [destruct (Rge_dec (premium / spot) biweeklyTarget) as [Hr | Hr] |]].
  all: first
    [ assert (Hgate : (daysToExpiry <= 8 /\ premium / spot >= weeklyTarget)
                      \/ (8 < daysToExpiry <= 16
                          /\ premium / spot >= biweeklyTarget)) by lra;
      pose proof (score_positive_when_gate_passes weeklyTarget biweeklyTarget
                    premium p strike spot daysToExpiry Hw Hb Hp Hgate);
      split; [split; auto | right; assumption]
    | assert (Hfail : goalBasedScore weeklyTarget biweeklyTarget premium p
                        strike spot daysToExpiry = -1)
        by (apply goalBasedScore_gate_fails; intros; lra);
      rewrite Hfail; split; [split; intros; lra | left; reflexivity] ].
Qed.

(** X6.  For a probability that is not negative, the score of either copy
    is the sentinel -1 or strictly positive, never zero or another negative
    number; it is positive exactly when the return reaches the target of
    the contract's bucket. *)
Theorem goal_score_sentinel_or_positive
    (premium p strike spot daysToExpiry : R) :
  0 <= p ->
  ((Api.calculateGoalBasedScore premium p strike spot daysToExpiry > 0
    <-> (daysToExpiry <= 8 /\ premium / spot >= 0.001)
        \/ (8 < daysToExpiry <= 16 /\ premium / spot >= 0.002))
   /\ (Api.calculateGoalBasedScore premium p strike spot daysToExpiry = -1
       \/ Api.calculateGoalBasedScore premium p strike spot daysToExpiry > 0))
  /\ ((Client.calculateGoalBasedScore premium p strike spot daysToExpiry > 0
       <-> (daysToExpiry <= 8 /\ premium / spot >= 0.0025)
           \/ (8 < daysToExpiry <= 16 /\ premium / spot >= 0.005))
      /\ (Client.calculateGoalBasedScore premium p strike spot daysToExpiry
          = -1
          \/ Client.calculateGoalBasedScore premium p strike spot
               daysToExpiry > 0)).
Proof.
  intros Hp. split; apply goalBasedScore_positive_iff; lra.
Qed.

Lemma goal_score_sentinel_or_positive_witness :
  0 <= 20
  /\ (Api.calculateGoalBasedScore 0.3 20 105 100 5 > 0
      <-> (5 <= 8 /\ 0.3 / 100 >= 0.001)
          \/ (8 < 5 <= 16 /\ 0.3 / 100 >= 0.002)).
Proof.
  split; [lra |].
  apply (goal_score_sentinel_or_positive 0.3 20 105 100 5). lra.
Defined.

Lemma gate_implies_flags
    (weeklyTarget biweeklyTarget weeklyPercent biweeklyPercent : R)
    (premium spot daysToExpiry : R) :
  weeklyPercent = weeklyTarget * 100 ->
  biweeklyPercent = biweeklyTarget * 100 ->
  0 < weeklyTarget <= biweeklyTarget ->
  spot > 0 ->
  (daysToExpiry <= 8 /\ premium / spot >= weeklyTarget)
  \/ (8 < daysToExpiry <= 16 /\ premium / spot >= biweeklyTarget) ->
  (Num.leb daysToExpiry 8
     && Num.geb (if Num.gtb premium 0 then (premium / spot) * 100 else 0)
          weeklyPercent
   || Num.leb daysToExpiry 16
      && Num.geb (if Num.gtb premium 0 then (premium / spot) * 100 else 0)
           biweeklyPercent) = true.
Proof.
  intros -> -> Ht Hspot Hgate.
  assert (Hpremium : premium > 0).
  { assert (Hr : premium / spot > 0) by lra.
    replace premium with (premium / spot * spot) by (field; lra).
    now apply Rmult_lt_0_compat. }
  apply gtb_true_iff in Hpremium. rewrite Hpremium.
  apply orb_true_iff. destruct Hgate as [[Hd Hr] | [Hd Hr]].
  - left. apply andb_true_iff. split;
      [apply leb_true_iff | apply geb_true_iff]; lra.
  - right. apply andb_true_iff. split;
      [apply leb_true_iff | apply geb_true_iff]; lra.
Qed.

(** X7.  Under a positive spot the published [meetsTarget] flag and the
    scorer agree in both copies: a contract is flagged exactly when its
    score is positive, and then its [goalScore] is that score to three
    digits. *)
Theorem flag_agrees_with_score :
  (forall clock spot target o k,
     spot > 0 ->
     let c := fst (Api.mapOption clock spot target o k) in
     let score :=
       apiScore spot target (clock k) (clock (Datatypes.S k)) o in
     (Api.Scored.meetsTarget c = true <-> score > 0)
     /\ (Api.Scored.meetsTarget c = true ->
         Api.Scored.goalScore c = toFixed score 3))
  /\ (forall clock spot target o k,
        spot > 0 ->
        let c := fst (Client.mapOption clock spot target o k) in
        let score :=
          clientScore spot target (clock k) (clock (Datatypes.S k)) o in
        (Client.Scored.meetsTarget c = true <-> score > 0)
        /\ (Client.Scored.meetsTarget c = true ->
            Client.Scored.goalScore c = toFixed score 3)).
Proof.
  split; intros clock spot target o k Hspot c score.
  - split; [| apply Api_mapOption_scored].
    destruct (Api_mapOption_fields clock spot target o k)
      as (_ & _ & _ & Hmeets).
    fold c in Hmeets. rewrite Hmeets. subst score.
    unfold apiScore, Api.calculateGoalBasedScore.
    assert (He : 0 <= enhanced (apiEstimate spot target (clock k) o) * 100).
    { pose proof (enhanced_range spot (Raw.strike o)
                    (yearsTo target (clock k)) 0.045 (volatilityOf o)
                    (Some (calculateDelta spot (Raw.strike o)
                             (yearsTo target (clock k)) 0.045
                             (volatilityOf o) "call"))).
      unfold apiEstimate. lra. }
    split.
    + intros Hflags. apply (flags_imply_gate 0.001 0.002) in Hflags;
        try lra.
      apply score_positive_when_gate_passes; try lra; exact Hflags.
    + intros Hscore. apply goalBasedScore_positive_iff in Hscore; try lra.
      apply (gate_implies_flags 0.001 0.002); try lra; exact Hscore.
  - split; [| apply Client_mapOption_scored].
    destruct (Client_mapOption_fields clock spot target o k)
      as (_ & _ & _ & Hmeets).
    fold c in Hmeets. rewrite Hmeets. subst score.
    unfold clientScore, Client.calculateGoalBasedScore.
    pose proof (clientEstimate_range spot target (clock k) o) as He.
    split.
    + intros Hflags. apply (flags_imply_gate 0.0025 0.005) in Hflags;
        try lra.
      apply score_positive_when_gate_passes; try lra; exact Hflags.
    + intros Hscore. apply goalBasedScore_positive_iff in Hscore; try lra.
      apply (gate_implies_flags 0.0025 0.005); try lra; exact Hscore.
Qed.

Lemma flag_agrees_with_score_witness :
  100 > 0
  /\ (Api.Scored.meetsTarget
        (fst (Api.mapOption Sample.clock 100 Sample.expiry Sample.call101
                0%nat)) = true
      <-> apiScore 100 Sample.expiry (Sample.clock 0%nat)
            (Sample.clock 1%nat) Sample.call101 > 0).
Proof.
  split; [lra |].
  apply (proj1 flag_agrees_with_score Sample.clock 100 Sample.expiry
           Sample.call101 0%nat). lra.
Defined.

(** ** Published texts *)

Lemma Api_mapOption_texts (clock : nat -> R) (spot target : R) (o : Raw.t)
    (k : nat) :
  let c := fst (Api.mapOption clock spot target o k) in
  let estimate := apiEstimate spot target (clock k) o in
  let daysToExpiry := daysTo target (clock (Datatypes.S k)) in
  let weeklyReturn :=
    if Num.gtb (premiumOf o) 0 then (premiumOf o / spot) * 100 else 0 in
  Api.Scored.targetType c
  = (if Num.leb daysToExpiry 8 && Num.geb weeklyReturn 0.1
     then "weekly"%string
     else if Num.leb daysToExpiry 16 && Num.geb weeklyReturn 0.2
          then "bi-weekly"%string
          else "none"%string)
  /\ Api.Scored.assignmentProbability c = toFixed (original estimate * 100) 1
  /\ Api.Scored.assignmentProbabilityEnhanced c
     = toFixed (enhanced estimate * 100) 1
  /\ Api.Scored.delta c
     = toFixed (calculateDelta spot (Raw.strike o)
                  (yearsTo target (clock k)) 0.045 (volatilityOf o) "call"
                * 100) 1
  /\ Api.Scored.daysToExpiry c = Math.round daysToExpiry.
Proof. repeat split. Qed.

Lemma Client_mapOption_texts (clock : nat -> R) (spot target : R)
    (o : Raw.t) (k : nat) :
  let c := fst (Client.mapOption clock spot target o k) in
  let estimate := clientEstimate spot target (clock k) o in
  let daysToExpiry := daysTo target (clock (Datatypes.S k)) in
  let weeklyReturn :=
    if Num.gtb (premiumOf o) 0 then (premiumOf o / spot) * 100 else 0 in
  Client.Scored.targetType c
  = (if Num.leb daysToExpiry 8 && Num.geb weeklyReturn 0.25
     then "weekly"%string
     else if Num.leb daysToExpiry 16 && Num.geb weeklyReturn 0.5
          then "bi-weekly"%string
          else "none"%string)
  /\ Client.Scored.assignmentProbability c = toFixed (estimate * 100) 1
  /\ Client.Scored.daysToExpiry c = Math.round daysToExpiry.
Proof. repeat split. Qed.

(** Turn the comparisons recorded in the context into inequalities. *)
Ltac reflect_comparisons :=
  repeat match goal with
    | H : Num.leb _ _ = true |- _ => apply leb_true_iff in H
    | H : Num.leb _ _ = false |- _ => apply leb_false_iff in H
    | H : Num.geb _ _ = true |- _ => apply geb_true_iff in H
    | H : Num.geb _ _ = false |- _ => apply geb_false_iff in H
    | H : Num.gtb _ _ = true |- _ => apply gtb_true_iff in H
    | H : Num.gtb _ _ = false |- _ => apply gtb_false_iff in H
    end.

Lemma targetType_cases (days weeklyReturn lowPercent highPercent : R) :
  lowPercent <= highPercent ->
  let weekly := Num.leb days 8 && Num.geb weeklyReturn lowPercent in
  let biweekly := Num.leb days 16 && Num.geb weeklyReturn highPercent in
  let targetType :=
    if weekly then "weekly"%string
    else if biweekly then "bi-weekly"%string else "none"%string in
  (targetType = "none"%string <-> weekly || biweekly = false)
  /\ (targetType = "weekly"%string <-> weekly || biweekly = true /\ days <= 8)
  /\ (targetType = "bi-weekly"%string
      <-> weekly || biweekly = true /\ 8 < days <= 16).
Proof.
  intros Hlh weekly biweekly targetType.
  subst weekly biweekly targetType.
  destruct (Num.leb days 8) eqn:H8; destruct (Num.leb days 16) eqn:H16;
    destruct (Num.geb weeklyReturn lowPercent) eqn:Hlo;
    destruct (Num.geb weeklyReturn highPercent) eqn:Hhi;
    simpl; reflect_comparisons;
    repeat split; intros; try discriminate; try lra;
    repeat match goal with H : _ /\ _ |- _ => destruct H end;
    try discriminate; try lra; try reflexivity.
Qed.

(** X8.  The published [targetType] goes with the flag: it is ['none']
    exactly for the contracts that do not meet a target, ['weekly'] for the
    flagged ones with at most 8 days to expiry and ['bi-weekly'] for the
    flagged ones with more than 8 and at most 16 days. *)
Theorem target_type_follows_flag :
  (forall clock spot target o k,
     let c := fst (Api.mapOption clock spot target o k) in
     let days := daysTo target (clock (Datatypes.S k)) in
     (Api.Scored.targetType c = "none"%string
      <-> Api.Scored.meetsTarget c = false)
     /\ (Api.Scored.targetType c = "weekly"%string
         <-> Api.Scored.meetsTarget c = true /\ days <= 8)
     /\ (Api.Scored.targetType c = "bi-weekly"%string
         <-> Api.Scored.meetsTarget c = true /\ 8 < days <= 16))
  /\ (forall clock spot target o k,
        let c := fst (Client.mapOption clock spot target o k) in
        let days := daysTo target (clock (Datatypes.S k)) in
        (Client.Scored.targetType c = "none"%string
         <-> Client.Scored.meetsTarget c = false)
        /\ (Client.Scored.targetType c = "weekly"%string
            <-> Client.Scored.meetsTarget c = true /\ days <= 8)
        /\ (Client.Scored.targetType c = "bi-weekly"%string
            <-> Client.Scored.meetsTarget c = true /\ 8 < days <= 16)).
Proof.
  split; intros clock spot target o k c days.
  - destruct (Api_mapOption_fields clock spot target o k)
      as (_ & _ & _ & Hmeets).
    destruct (Api_mapOption_texts clock spot target o k) as (Htype & _).
    fold c in Hmeets, Htype. rewrite Hmeets, Htype.
    apply (targetType_cases days _ 0.1 0.2). lra.
  - destruct (Client_mapOption_fields clock spot target o k)
      as (_ & _ & _ & Hmeets).
    destruct (Client_mapOption_texts clock spot target o k) as (Htype & _).
    fold c in Hmeets, Htype. rewrite Hmeets, Htype.
    apply (targetType_cases days _ 0.25 0.5). lra.
Qed.

Lemma Int_part_bounds (x : R) :
  IZR (Int_part x) <= x < IZR (Int_part x) + 1.
Proof. destruct (base_Int_part x). lra. Qed.

Lemma toFixed_accuracy (x : R) (digits : nat) :
  exists v, shows (toFixed x digits) v
            /\ Rabs (v - x) <= 0.5 / 10 ^ digits.
Proof.
  assert (Hpow : 0 < 10 ^ digits) by (apply pow_lt; lra).
  assert (Hinv : 0 < / 10 ^ digits) by now apply Rinv_0_lt_compat.
  unfold toFixed, shows. destruct (Rlt_dec x 0) as [Hneg | Hpos].
  - eexists. split; [reflexivity |].
    pose proof (Int_part_bounds (- x * 10 ^ digits + 0.5)) as Hb.
    set (n := Int_part (- x * 10 ^ digits + 0.5)) in *.
    rewrite opp_IZR.
    replace (- IZR n / 10 ^ digits - x)
      with ((- IZR n - x * 10 ^ digits) * / 10 ^ digits) by (field; lra).
    rewrite Rabs_mult, (Rabs_right (/ 10 ^ digits)) by lra.
    unfold Rdiv. apply Rmult_le_compat_r; [lra |].
    apply Rabs_le. lra.
  - eexists. split; [reflexivity |].
    pose proof (Int_part_bounds (x * 10 ^ digits + 0.5)) as Hb.
    set (n := Int_part (x * 10 ^ digits + 0.5)) in *.
    replace (IZR n / 10 ^ digits - x)
      with ((IZR n - x * 10 ^ digits) * / 10 ^ digits) by (field; lra).
    rewrite Rabs_mult, (Rabs_right (/ 10 ^ digits)) by lra.
    unfold Rdiv. apply Rmult_le_compat_r; [lra |].
    apply Rabs_le. lra.
Qed.

(** A percentage between 0 and 100 still reads between 0 and 100 after
    rounding to one digit. *)
Lemma toFixed_percentage (x : R) :
  0 <= x <= 100 ->
  exists v, shows (toFixed x 1) v /\ 0 <= v <= 100 /\ Rabs (v - x) <= 0.05.
Proof.
  intros Hx. destruct (toFixed_accuracy x 1) as (v & Hv & Hacc).
  exists v. split; [exact Hv |]. split; [| simpl in Hacc; lra].
  unfold toFixed, shows in Hv. destruct (Rlt_dec x 0); [lra |].
  simpl in Hv. injection Hv as <-.
  pose proof (Int_part_bounds (x * (10 * 1) + 0.5)) as Hb.
  set (m := Int_part (x * (10 * 1) + 0.5)) in *.
  assert (Hlo : (0 <= m)%Z) by (apply Int_part_nonneg; lra).
  assert (Hhi : (m <= 1000)%Z).
  { assert (H : IZR m < IZR 1001) by lra. apply lt_IZR in H. lia. }
  apply IZR_le in Hlo, Hhi. lra.
Qed.

(** X9.  Whatever the inputs, the probability and delta percentages a
    contract shows read as numbers between 0 and 100 that are within 0.05
    of the computed percentage. *)
Theorem published_percentages :
  (forall clock spot target o k,
     let c := fst (Api.mapOption clock spot target o k) in
     let estimate := apiEstimate spot target (clock k) o in
     let delta :=
       calculateDelta spot (Raw.strike o) (yearsTo target (clock k)) 0.045
         (volatilityOf o) "call" in
     (exists v, shows (Api.Scored.assignmentProbability c) v
                /\ 0 <= v <= 100
                /\ Rabs (v - original estimate * 100) <= 0.05)
     /\ (exists v, shows (Api.Scored.assignmentProbabilityEnhanced c) v
                   /\ 0 <= v <= 100
                   /\ Rabs (v - enhanced estimate * 100) <= 0.05)
     /\ (exists v, shows (Api.Scored.delta c) v
                   /\ 0 <= v <= 100 /\ Rabs (v - delta * 100) <= 0.05))
  /\ (forall clock spot target o k,
        let c := fst (Client.mapOption clock spot target o k) in
        let estimate := clientEstimate spot target (clock k) o in
        exists v, shows (Client.Scored.assignmentProbability c) v
                  /\ 0 <= v <= 100 /\ Rabs (v - estimate * 100) <= 0.05).
Proof.
  split; intros clock spot target o k c.
  - intros estimate delta.
    destruct (Api_mapOption_texts clock spot target o k)
      as (_ & Hp & He & Hd & _).
    fold c estimate delta in Hp, He, Hd. rewrite Hp, He, Hd.
    assert (Ho : 0 <= original estimate <= 1) by apply original_range.
    assert (Hen : 0 <= enhanced estimate <= 1) by apply enhanced_range.
    assert (Hdl : 0 <= delta <= 1) by apply call_delta_range.
    repeat split; apply toFixed_percentage; lra.
  - intros estimate.
    destruct (Client_mapOption_texts clock spot target o k) as (_ & Hp & _).
    fold c estimate in Hp. rewrite Hp.
    assert (Ho : 0 <= estimate <= 1) by apply clientEstimate_range.
    apply toFixed_percentage. lra.
Qed.

(** X10.  The [goalScore] of a contract that meets its target reads as a
    number that is not negative and within 0.0005 of the score the scorer
    returned. *)
Theorem published_score_accuracy :
  (forall clock spot target o k,
     let c := fst (Api.mapOption clock spot target o k) in
     Api.Scored.meetsTarget c = true ->
     exists v, shows (Api.Scored.goalScore c) v /\ 0 <= v
               /\ Rabs (v - apiScore spot target (clock k)
                                (clock (Datatypes.S k)) o) <= 0.0005)
  /\ (forall clock spot target o k,
        let c := fst (Client.mapOption clock spot target o k) in
        Client.Scored.meetsTarget c = true ->
        exists v, shows (Client.Scored.goalScore c) v /\ 0 <= v
                  /\ Rabs (v - clientScore spot target (clock k)
                                   (clock (Datatypes.S k)) o) <= 0.0005).
Proof.
  split; intros clock spot target o k c Hmeets.
  - pose proof (Api_mapOption_scored clock spot target o k Hmeets) as Hgoal.
    fold c in Hgoal. rewrite Hgoal.
    destruct (toFixed_accuracy
                (apiScore spot target (clock k) (clock (Datatypes.S k)) o) 3)
      as (v & Hv & Hacc).
    exists v. split; [exact Hv |]. split; [| simpl in Hacc; lra].
    destruct (toFixed (apiScore spot target (clock k)
                         (clock (Datatypes.S k)) o) 3) as [d n |] eqn:E;
      [| discriminate].
    unfold toFixed in E.
    destruct (Rlt_dec _ 0) as [Hneg | Hpos] in E; injection E as <- <-.
    + exfalso.
      destruct (Api_mapOption_fields clock spot target o k)
        as (_ & _ & _ & Hflag).
      fold c in Hflag. rewrite Hflag in Hmeets.
      apply (flags_imply_gate 0.001 0.002) in Hmeets; try lra.
      assert (apiScore spot target (clock k) (clock (Datatypes.S k)) o > 0);
        [| lra].
      unfold apiScore, Api.calculateGoalBasedScore.
      apply score_positive_when_gate_passes; try lra; try exact Hmeets.
      pose proof (enhanced_range spot (Raw.strike o)
                    (yearsTo target (clock k)) 0.045 (volatilityOf o)
                    (Some (calculateDelta spot (Raw.strike o)
                             (yearsTo target (clock k)) 0.045
                             (volatilityOf o) "call"))).
      unfold apiEstimate. lra.
    + eapply shows_nonneg; [| exact Hv]. apply Int_part_nonneg.
      assert (0 < 10 ^ 3) by (apply pow_lt; lra). nra.
  - pose proof (Client_mapOption_scored clock spot target o k Hmeets)
      as Hgoal.
    fold c in Hgoal. rewrite Hgoal.
    destruct (toFixed_accuracy
                (clientScore spot target (clock k) (clock (Datatypes.S k))
                   o) 3) as (v & Hv & Hacc).
    exists v. split; [exact Hv |]. split; [| simpl in Hacc; lra].
    destruct (toFixed (clientScore spot target (clock k)
                         (clock (Datatypes.S k)) o) 3) as [d n |] eqn:E;
      [| discriminate].
    unfold toFixed in E.
    destruct (Rlt_dec _ 0) as [Hneg | Hpos] in E; injection E as <- <-.
    + exfalso.
      destruct (Client_mapOption_fields clock spot target o k)
        as (_ & _ & _ & Hflag).
      fold c in Hflag. rewrite Hflag in Hmeets.
      apply (flags_imply_gate 0.0025 0.005) in Hmeets; try lra.
      assert (clientScore spot target (clock k) (clock (Datatypes.S k)) o
              > 0); [| lra].
      unfold clientScore, Client.calculateGoalBasedScore.
      apply score_positive_when_gate_passes; try lra; try exact Hmeets.
      pose proof (clientEstimate_range spot target (clock k) o). lra.
    + eapply shows_nonneg; [| exact Hv]. apply Int_part_nonneg.
      assert (0 < 10 ^ 3) by (apply pow_lt; lra). nra.
Qed.

Lemma published_score_accuracy_witness :
  Api.Scored.meetsTarget
    (fst (Api.mapOption Sample.clock 100 Sample.expiry Sample.call101 0%nat))
  = true
  /\ exists v,
       shows (Api.Scored.goalScore
                (fst (Api.mapOption Sample.clock 100 Sample.expiry
                        Sample.call101 0%nat))) v
       /\ 0 <= v
       /\ Rabs (v - apiScore 100 Sample.expiry (Sample.clock 0%nat)
                      (Sample.clock 1%nat) Sample.call101) <= 0.0005.
Proof.
  destruct (Sample_Api_flags 0%nat) as [_ Hflag].
  split; [exact Hflag |].
  apply (proj1 published_score_accuracy Sample.clock 100 Sample.expiry
           Sample.call101 0%nat Hflag).
Defined.

(** ** What a published expiration holds *)

Section JsSortStable.
Context {A : Type}.
Variable comparefn : A -> A -> option R.
Variable dom : A -> Prop.
Variable key : A -> R.
Hypothesis comparefn_key :
  forall a b, dom a -> dom b ->
    (comesAfter comparefn a b = true <-> key a > key b).

(** The head of the sorted list is the first element of least key. *)
Lemma js_sort_head_first (l : list A) (first : A) :
  Forall dom l ->
  hd_error (js_sort comparefn l) = Some first ->
  exists before after,
    l = before ++ first :: after
    /\ (forall c, In c before -> key first < key c)
    /\ (forall c, In c after -> key first <= key c).
Proof.
  revert first. induction l as [| a l IH]; intros first Hdom Hhd.
  - discriminate.
  - inversion Hdom as [| ? ? Ha Hl]; subst.
    change (js_sort comparefn (a :: l))
      with (insert comparefn a (js_sort comparefn l)) in Hhd.
    destruct (js_sort comparefn l) as [| h s] eqn:Es.
    + assert (l = []) as ->.
      { pose proof (js_sort_permutation comparefn l) as Hp.
        rewrite Es in Hp. now apply Permutation_sym, Permutation_nil in Hp. }
      simpl in Hhd. injection Hhd as <-.
      exists [], []. repeat split; intros c [].
    + destruct (IH h Hl eq_refl) as (before & after & Hl_eq & Hb & Haf).
      assert (Hh : dom h).
      { rewrite Forall_forall in Hl. apply Hl. rewrite Hl_eq.
        apply in_or_app. right. now left. }
      simpl in Hhd. destruct (comesAfter comparefn a h) eqn:E.
      * injection Hhd as <-. apply comparefn_key in E; try assumption.
        exists (a :: before), after. rewrite Hl_eq. split; [reflexivity |].
        split; [| exact Haf].
        intros c [<- | Hc]; [lra | now apply Hb].
      * injection Hhd as <-.
        assert (Hah : key a <= key h).
        { destruct (Rle_dec (key a) (key h)) as [H | H]; [exact H |].
          assert (comesAfter comparefn a h = true)
            by (apply comparefn_key; try assumption; lra).
          congruence. }
        exists [], l. split; [reflexivity |]. split; [intros c [] |].
        intros c Hc. rewrite Hl_eq in Hc. apply in_app_or in Hc.
        destruct Hc as [Hc | [<- | Hc]].
        -- specialize (Hb c Hc). lra.
        -- exact Hah.
        -- specialize (Haf c Hc). lra.
Qed.
End JsSortStable.

Lemma mapM_sources {A B : Type} (f : A -> Clocked B) (source : B -> A)
    (l : list A) (k : nat) :
  (forall a k', source (fst (f a k')) = a) ->
  map source (fst (mapM f l k)) = l.
Proof.
  intros Hsource. revert k. induction l as [| a l IH]; intros k.
  - reflexivity.
  - rewrite mapM_cons. simpl. now rewrite Hsource, IH.
Qed.

Section PublishedExpiration.
Context {C : Type}.
Variable strike : C -> R.
Variable meetsTarget : C -> bool.
Variable goalScore : C -> Text.
Variable reason : C -> list Piece.
Variable mapOption : R -> Raw.t -> Clocked C.
Variables otmLow otmHigh : R.
Variable source : C -> Raw.t.

Hypothesis mapOption_source :
  forall target o k, source (fst (mapOption target o k)) = o.
Hypothesis mapOption_scored :
  forall target o k,
    meetsTarget (fst (mapOption target o k)) = true ->
    parseFloat (goalScore (fst (mapOption target o k))) <> None.
Hypothesis reason_not_empty : forall c, reason c <> [].

Let select (target : R) (opt : Opt.t) (k : nat) : ExpirationResult C :=
  fst (selectExpiration strike meetsTarget goalScore reason mapOption
         otmLow otmHigh target opt k).

(** The contracts in the order in which [mapOption] built them. *)
Let mapped (target : R) (opt : Opt.t) (k : nat) : list C :=
  fst (mapM (mapOption target) (callsInBand otmLow otmHigh opt) k).

Lemma select_calls_permutation (target : R) (opt : Opt.t) (k : nat) :
  Permutation (map source (calls (select target opt k)))
    (callsInBand otmLow otmHigh opt).
Proof.
  destruct (select_unfold strike meetsTarget goalScore reason mapOption
              otmLow otmHigh target opt k) as (Hc & _).
  unfold select. rewrite Hc.
  apply perm_trans with (map source (mapped target opt k)).
  - apply Permutation_map, Permutation_sym, js_sort_permutation.
  - unfold mapped. rewrite mapM_sources by apply mapOption_source.
    apply Permutation_refl.
Qed.

Lemma select_summary (target : R) (opt : Opt.t) (k : nat) :
  let r := select target opt k in
  (hasQualifyingOptions r = true <-> bestOption r <> None)
  /\ (bestOption r <> None
      <-> exists c, In c (calls r) /\ meetsTarget c = true)
  /\ (bestOption r = None <-> bestOptionReason r = [])
  /\ (forall best, bestOption r = Some best ->
        bestOptionReason r = reason best).
Proof.
  destruct (select_unfold strike meetsTarget goalScore reason mapOption
              otmLow otmHigh target opt k) as (Hc & Hb & Hr & Hq).
  fold (select target opt k) in Hc, Hb, Hr, Hq. cbv zeta.
  rewrite Hc, Hb, Hr, Hq. clear Hc Hb Hr Hq.
  set (allCalls := fst (mapM (mapOption target) _ k)).
  set (q := js_sort (byScoreDescending goalScore)
              (filter meetsTarget allCalls)).
  assert (Hq : forall c, In c q <-> In c allCalls /\ meetsTarget c = true).
  { intros c. unfold q. rewrite js_sort_In. apply filter_In. }
  clearbody q. repeat split.
  - intros H. destruct q; [discriminate H | discriminate].
  - intros H. destruct q; [now contradiction H | reflexivity].
  - intros H. destruct q as [| c q']; [now contradiction H |].
    exists c. rewrite js_sort_In. apply Hq. now left.
  - intros (c & Hin & Hm). rewrite js_sort_In in Hin.
    destruct q as [| c' q']; [| discriminate].
    exfalso. apply (proj2 (Hq c)). now split.
  - intros Hnone. now rewrite Hnone.
  - destruct (hd_error q) as [best |]; [| reflexivity].
    intros Hempty. now apply reason_not_empty in Hempty.
  - intros best ->. reflexivity.
Qed.

(** Ties among the best scores go to the contract the provider listed
    first. *)
Lemma select_best_first (target : R) (opt : Opt.t) (k : nat) (best : C) :
  bestOption (select target opt k) = Some best ->
  exists before after,
    filter meetsTarget (mapped target opt k) = before ++ best :: after
    /\ (forall c, In c before ->
          scoreShown (goalScore c) < scoreShown (goalScore best))
    /\ (forall c, In c after ->
          scoreShown (goalScore c) <= scoreShown (goalScore best)).
Proof.
  destruct (select_unfold strike meetsTarget goalScore reason mapOption
              otmLow otmHigh target opt k) as (_ & Hb & _).
  fold (select target opt k) in Hb. rewrite Hb. clear Hb.
  fold (callsInBand otmLow otmHigh opt). fold (mapped target opt k).
  intros Hhd.
  apply (js_sort_head_first (byScoreDescending goalScore)
           (fun c => parseFloat (goalScore c) <> None)
           (fun c => - scoreShown (goalScore c))) in Hhd.
  - destruct Hhd as (before & after & Heq & Hbefore & Hafter).
    exists before, after. split; [exact Heq |].
    split; intros c Hc; [specialize (Hbefore c Hc) | specialize (Hafter c Hc)];
      lra.
  - intros a b Ha Hb. unfold comesAfter, byScoreDescending, scoreShown.
    destruct (parseFloat (goalScore a)) as [va |]; [| congruence].
    destruct (parseFloat (goalScore b)) as [vb |]; [| congruence].
    simpl. rewrite gtb_true_iff. lra.
  - apply Forall_forall. intros c Hc. apply filter_In in Hc.
    destruct Hc as [Hc Hm]. unfold mapped in Hc. apply mapM_In in Hc.
    destruct Hc as (o & k' & _ & ->). now apply mapOption_scored.
Qed.

Lemma mapped_sources (target : R) (opt : Opt.t) (k : nat) :
  map source (mapped target opt k) = callsInBand otmLow otmHigh opt.
Proof. unfold mapped. apply mapM_sources, mapOption_source. Qed.

Lemma mapped_permutation (target : R) (opt : Opt.t) (k : nat) :
  Permutation (mapped target opt k) (calls (select target opt k)).
Proof.
  destruct (select_unfold strike meetsTarget goalScore reason mapOption
              otmLow otmHigh target opt k) as (Hc & _).
  unfold select. rewrite Hc. apply js_sort_permutation.
Qed.
End PublishedExpiration.

Lemma Api_mapOption_source (clock : nat -> R) (spot target : R) (o : Raw.t)
    (k : nat) :
  apiSource (fst (Api.mapOption clock spot target o k)) = o.
Proof. destruct o. reflexivity. Qed.

Lemma Client_mapOption_source (clock : nat -> R) (spot target : R)
    (o : Raw.t) (k : nat) :
  clientSource (fst (Client.mapOption clock spot target o k)) = o.
Proof. destruct o. reflexivity. Qed.

Lemma Api_mapOption_parses (clock : nat -> R) (spot target : R) (o : Raw.t)
    (k : nat) :
  Api.Scored.meetsTarget (fst (Api.mapOption clock spot target o k)) = true ->
  parseFloat (Api.Scored.goalScore (fst (Api.mapOption clock spot target o k)))
  <> None.
Proof.
  intros Hm. rewrite Api_mapOption_scored by exact Hm. apply toFixed_parses.
Qed.

Lemma Client_mapOption_parses (clock : nat -> R) (spot target : R)
    (o : Raw.t) (k : nat) :
  Client.Scored.meetsTarget (fst (Client.mapOption clock spot target o k))
  = true ->
  parseFloat
    (Client.Scored.goalScore (fst (Client.mapOption clock spot target o k)))
  <> None.
Proof.
  intros Hm. rewrite Client_mapOption_scored by exact Hm.
  apply toFixed_parses.
Qed.

(** Every published result comes from the entry of one of the targets. *)
Lemma Api_published_entry (yf : Provider) (clock : nat -> R)
    (startOfDay : R -> R) (symbol : string) (body : Payload Api.Scored.t)
    (r : ExpirationResult Api.Scored.t) :
  Api.optionsWeeks yf clock startOfDay symbol = Json body ->
  In r (expirations body) ->
  exists exps target opt k,
    expirationDates yf symbol = Returns exps
    /\ In target (fst (Api.targetsOf clock startOfDay exps 0%nat))
    /\ optionChain yf symbol target = Returns (Some opt)
    /\ r = fst (selectExpiration Api.Scored.strike Api.Scored.meetsTarget
                  Api.Scored.goalScore Api.bestOptionReason
                  (Api.mapOption clock (currentPrice body))
                  (otmRange_low body) (otmRange_high body) target opt k).
Proof.
  intros Hjson Hr. apply Api_optionsWeeks_Json in Hjson.
  destruct Hjson as (price & exps & _ & _ & Hexps & -> & -> & -> & Hloop).
  destruct (analyse_results _ _ _ _ _ _ _ _ _ _ _ _ Hloop r Hr)
    as [[] | (target & opt & k & Ht & Hc & ->)].
  now exists exps, target, opt, k.
Qed.

Lemma Client_published_entry (yf : Provider) (clock : nat -> R)
    (symbol : string) (body : Payload Client.Scored.t)
    (r : ExpirationResult Client.Scored.t) :
  Client.optionsWeeks yf clock symbol = Json body ->
  In r (expirations body) ->
  exists exps target opt k,
    expirationDates yf symbol = Returns exps
    /\ In target (fst (Client.targetsOf clock exps 0%nat))
    /\ optionChain yf symbol target = Returns (Some opt)
    /\ r = fst (selectExpiration Client.Scored.strike
                  Client.Scored.meetsTarget Client.Scored.goalScore
                  Client.bestOptionReason
                  (Client.mapOption clock (currentPrice body))
                  (otmRange_low body) (otmRange_high body) target opt k).
Proof.
  intros Hjson Hr. apply Client_optionsWeeks_Json in Hjson.
  destruct Hjson as (price & exps & _ & _ & Hexps & -> & -> & -> & Hloop).
  destruct (analyse_results _ _ _ _ _ _ _ _ _ _ _ _ Hloop r Hr)
    as [[] | (target & opt & k & Ht & Hc & ->)].
  now exists exps, target, opt, k.
Qed.

(** X11.  In every published expiration, [hasQualifyingOptions] is true
    exactly when there is a best option, which is exactly when some listed
    contract meets a target; the reason text is empty exactly when there is
    no best option and is otherwise the sentence built from the best
    option. *)
Theorem published_expiration_summary :
  (forall yf clock startOfDay symbol body r,
     Api.optionsWeeks yf clock startOfDay symbol = Json body ->
     In r (expirations body) ->
     (hasQualifyingOptions r = true <-> bestOption r <> None)
     /\ (bestOption r <> None
         <-> exists c, In c (calls r) /\ Api.Scored.meetsTarget c = true)
     /\ (bestOption r = None <-> bestOptionReason r = [])
     /\ (forall best, bestOption r = Some best ->
           bestOptionReason r = Api.bestOptionReason best))
  /\ (forall yf clock symbol body r,
        Client.optionsWeeks yf clock symbol = Json body ->
        In r (expirations body) ->
        (hasQualifyingOptions r = true <-> bestOption r <> None)
        /\ (bestOption r <> None
            <-> exists c, In c (calls r) /\ Client.Scored.meetsTarget c = true)
        /\ (bestOption r = None <-> bestOptionReason r = [])
        /\ (forall best, bestOption r = Some best ->
              bestOptionReason r = Client.bestOptionReason best)).
Proof.
  split.
  - intros yf clock startOfDay symbol body r Hjson Hr.
    destruct (Api_published_entry _ _ _ _ _ _ Hjson Hr)
      as (exps & target & opt & k & _ & _ & _ & ->).
    apply select_summary. intros c. discriminate.
  - intros yf clock symbol body r Hjson Hr.
    destruct (Client_published_entry _ _ _ _ _ Hjson Hr)
      as (exps & target & opt & k & _ & _ & _ & ->).
    apply select_summary. intros c. discriminate.
Qed.

Lemma published_expiration_summary_witness :
  exists body r,
    Api.optionsWeeks Sample.yf Sample.clock Sample.startOfDay "XYZ"
    = Json body
    /\ In r (expirations body)
    /\ hasQualifyingOptions r = true
    /\ bestOption r <> None.
Proof.
  destruct Sample_Api_run as (r & k & Hjson & Hr).
  pose proof (Sample_Api_selected k) as (_ & _ & Hq).
  rewrite <- Hr in Hq.
  eexists. exists r.
  assert (Hin : In r [r]) by now left.
  split; [exact Hjson |]. split; [exact Hin |]. split; [exact Hq |].
  destruct (proj1 published_expiration_summary Sample.yf Sample.clock
              Sample.startOfDay "XYZ"%string _ r Hjson Hin) as (Hbest & _).
  apply Hbest. exact Hq.
Defined.

(** X12.  The contracts of a published expiration are, up to order, exactly
    the calls of the provider's entry for one of the targets that lie in
    the band: none is dropped, repeated or made up, and the eleven provider
    fields are passed on unchanged. *)
Theorem published_calls_are_band_calls :
  (forall yf clock startOfDay symbol body r,
     Api.optionsWeeks yf clock startOfDay symbol = Json body ->
     In r (expirations body) ->
     exists target opt,
       optionChain yf symbol target = Returns (Some opt)
       /\ Permutation (map apiSource (calls r))
            (callsInBand (otmRange_low body) (otmRange_high body) opt)
       /\ expiration r
          = Math.floor (or_default (Opt.expirationDate opt) target / 1000))
  /\ (forall yf clock symbol body r,
        Client.optionsWeeks yf clock symbol = Json body ->
        In r (expirations body) ->
        exists target opt,
          optionChain yf symbol target = Returns (Some opt)
          /\ Permutation (map clientSource (calls r))
               (callsInBand (otmRange_low body) (otmRange_high body) opt)
          /\ expiration r
             = Math.floor
                 (or_default (Opt.expirationDate opt) target / 1000)).
Proof.
  split.
  - intros yf clock startOfDay symbol body r Hjson Hr.
    destruct (Api_published_entry _ _ _ _ _ _ Hjson Hr)
      as (exps & target & opt & k & _ & _ & Hchain & ->).
    exists target, opt. split; [exact Hchain |]. split.
    + apply select_calls_permutation. intros t o k'.
      apply Api_mapOption_source.
    + unfold selectExpiration, bind, ret.
      destruct (mapM _ _ k). reflexivity.
  - intros yf clock symbol body r Hjson Hr.
    destruct (Client_published_entry _ _ _ _ _ Hjson Hr)
      as (exps & target & opt & k & _ & _ & Hchain & ->).
    exists target, opt. split; [exact Hchain |]. split.
    + apply select_calls_permutation. intros t o k'.
      apply Client_mapOption_source.
    + unfold selectExpiration, bind, ret.
      destruct (mapM _ _ k). reflexivity.
Qed.

Lemma published_calls_are_band_calls_witness :
  exists body r target opt,
    Api.optionsWeeks Sample.yf Sample.clock Sample.startOfDay "XYZ"
    = Json body
    /\ In r (expirations body)
    /\ optionChain Sample.yf "XYZ" target = Returns (Some opt)
    /\ Permutation (map apiSource (calls r))
         (callsInBand (otmRange_low body) (otmRange_high body) opt).
Proof.
  destruct Sample_Api_run as (r & k & Hjson & Hr).
  assert (Hin : In r [r]) by now left.
  destruct (proj1 published_calls_are_band_calls Sample.yf Sample.clock
              Sample.startOfDay "XYZ"%string _ r Hjson Hin)
    as (target & opt & Hchain & Hperm & _).
  eexists. exists r, target, opt.
  split; [exact Hjson |]. split; [exact Hin |].
  split; [exact Hchain | exact Hperm].
Defined.

(** X13.  Among the contracts that meet a target, the best option is the
    first one, in the provider's order, that shows the greatest score: every
    flagged contract listed before it shows a strictly smaller score. *)
Theorem best_option_is_first_of_the_best :
  (forall yf clock startOfDay symbol body r best,
     Api.optionsWeeks yf clock startOfDay symbol = Json body ->
     In r (expirations body) ->
     bestOption r = Some best ->
     exists target opt listed before after,
       optionChain yf symbol target = Returns (Some opt)
       /\ map apiSource listed
          = callsInBand (otmRange_low body) (otmRange_high body) opt
       /\ Permutation listed (calls r)
       /\ filter Api.Scored.meetsTarget listed = before ++ best :: after
       /\ (forall c, In c before ->
             scoreShown (Api.Scored.goalScore c)
             < scoreShown (Api.Scored.goalScore best))
       /\ (forall c, In c after ->
             scoreShown (Api.Scored.goalScore c)
             <= scoreShown (Api.Scored.goalScore best)))
  /\ (forall yf clock symbol body r best,
        Client.optionsWeeks yf clock symbol = Json body ->
        In r (expirations body) ->
        bestOption r = Some best ->
        exists target opt listed before after,
          optionChain yf symbol target = Returns (Some opt)
          /\ map clientSource listed
             = callsInBand (otmRange_low body) (otmRange_high body) opt
          /\ Permutation listed (calls r)
          /\ filter Client.Scored.meetsTarget listed = before ++ best :: after
          /\ (forall c, In c before ->
                scoreShown (Client.Scored.goalScore c)
                < scoreShown (Client.Scored.goalScore best))
          /\ (forall c, In c after ->
                scoreShown (Client.Scored.goalScore c)
                <= scoreShown (Client.Scored.goalScore best))).
Proof.
  split.
  - intros yf clock startOfDay symbol body r best Hjson Hr Hbest.
    destruct (Api_published_entry _ _ _ _ _ _ Hjson Hr)
      as (exps & target & opt & k & _ & _ & Hchain & ->).
    destruct (select_best_first _ _ _ _ _ _ _
                (fun t o k' => Api_mapOption_parses clock _ t o k')
                target opt k best Hbest)
      as (before & after & Heq & Hb & Ha).
    exists target, opt,
      (fst (mapM (Api.mapOption clock (currentPrice body) target)
              (callsInBand (otmRange_low body) (otmRange_high body) opt) k)),
      before, after.
    split; [exact Hchain |]. split.
    { apply (mapped_sources (C := Api.Scored.t)). intros t o k'.
      apply Api_mapOption_source. }
    split; [apply mapped_permutation |].
    split; [exact Heq |]. split; assumption.
  - intros yf clock symbol body r best Hjson Hr Hbest.
    destruct (Client_published_entry _ _ _ _ _ Hjson Hr)
      as (exps & target & opt & k & _ & _ & Hchain & ->).
    destruct (select_best_first _ _ _ _ _ _ _
                (fun t o k' => Client_mapOption_parses clock _ t o k')
                target opt k best Hbest)
      as (before & after & Heq & Hb & Ha).
    exists target, opt,
      (fst (mapM (Client.mapOption clock (currentPrice body) target)
              (callsInBand (otmRange_low body) (otmRange_high body) opt) k)),
      before, after.
    split; [exact Hchain |]. split.
    { apply (mapped_sources (C := Client.Scored.t)). intros t o k'.
      apply Client_mapOption_source. }
    split; [apply mapped_permutation |].
    split; [exact Heq |]. split; assumption.
Qed.

Lemma best_option_is_first_of_the_best_witness :
  exists body r best listed before after,
    Api.optionsWeeks Sample.yf Sample.clock Sample.startOfDay "XYZ"
    = Json body
    /\ In r (expirations body)
    /\ bestOption r = Some best
    /\ Permutation listed (calls r)
    /\ filter Api.Scored.meetsTarget listed = before ++ best :: after.
Proof.
  destruct Sample_Api_run as (r & k & Hjson & Hr).
  pose proof (Sample_Api_selected k) as (_ & Hbest & _).
  rewrite <- Hr in Hbest.
  assert (Hin : In r [r]) by now left.
  destruct (proj1 best_option_is_first_of_the_best Sample.yf Sample.clock
              Sample.startOfDay "XYZ"%string _ r _ Hjson Hin Hbest)
    as (target & opt & listed & before & after & _ & _ & Hperm & Heq & _).
  eexists. exists r. eexists. exists listed, before, after.
  split; [exact Hjson |]. split; [exact Hin |]. split; [exact Hbest |].
  split; [exact Hperm | exact Heq].
Defined.

(** ** The target expirations *)

Lemma sort_numbers_sorted (l : list R) :
  StronglySorted Rle (js_sort (fun a b => Some (a - b)) l).
Proof.
  apply (js_sort_sorted (fun a b => Some (a - b)) (fun _ => True)
           (fun x => x)).
  - intros a b _ _. unfold comesAfter. rewrite gtb_true_iff. lra.
  - apply Forall_forall. auto.
Qed.

Lemma filter_sorted (f : R -> bool) (l : list R) :
  StronglySorted Rle l -> StronglySorted Rle (filter f l).
Proof.
  induction 1 as [| x l Hs IH Hx]; simpl; [constructor |].
  destruct (f x); [| exact IH].
  constructor; [exact IH |].
  apply Forall_forall. intros y Hy. apply filter_In in Hy.
  rewrite Forall_forall in Hx. apply Hx. tauto.
Qed.

Lemma in_firstn {A : Type} (n : nat) (l : list A) (x : A) :
  In x (firstn n l) -> In x l.
Proof.
  intros H. rewrite <- (firstn_skipn n l). apply in_or_app. now left.
Qed.

Lemma in_skipn {A : Type} (n : nat) (l : list A) (x : A) :
  In x (skipn n l) -> In x l.
Proof.
  intros H. rewrite <- (firstn_skipn n l). apply in_or_app. now right.
Qed.

Lemma firstn_sorted (n : nat) (l : list R) :
  StronglySorted Rle l ->
  StronglySorted Rle (firstn n l)
  /\ forall x y, In x (firstn n l) -> In y (skipn n l) -> x <= y.
Proof.
  intros Hs. revert n. induction Hs as [| a l Hs IH Ha]; intros n.
  - rewrite firstn_nil, skipn_nil. split; [constructor | intros x y []].
  - destruct n as [| n]; simpl.
    + split; [constructor | intros x y []].
    + destruct (IH n) as [IHs IHo]. rewrite Forall_forall in Ha. split.
      * constructor; [exact IHs |]. apply Forall_forall.
        intros y Hy. apply Ha. eapply in_firstn; eauto.
      * intros x y [<- | Hx] Hy.
        -- apply Ha. eapply in_skipn; eauto.
        -- now apply IHo.
Qed.

Lemma last_sorted (l : list R) (d : R) :
  StronglySorted Rle l -> l <> [] ->
  In (last l d) l /\ forall x, In x l -> x <= last l d.
Proof.
  induction 1 as [| a l Hs IH Ha]; intros Hne; [congruence |].
  destruct l as [| b l'].
  - simpl. split; [now left |]. intros x [<- | []]. lra.
  - destruct IH as [Hin Hmax]; [discriminate |].
    change (last (a :: b :: l') d) with (last (b :: l') d).
    split; [now right |].
    intros x [<- | Hx]; [| now apply Hmax].
    rewrite Forall_forall in Ha. now apply Ha.
Qed.

Lemma Api_targetsOf_unfold (clock : nat -> R) (startOfDay : R -> R)
    (exps : list R) (k : nat) :
  let sorted := js_sort (fun a b => Some (a - b)) exps in
  let future :=
    filter (fun exp => Num.geb exp (startOfDay (clock k))) sorted in
  fst (Api.targetsOf clock startOfDay exps k)
  = (if Nat.eqb (List.length (firstn 4 future)) 0
        && Nat.ltb 0 (List.length sorted)
     then firstn 4 future ++ [last sorted 0]
     else firstn 4 future).
Proof. reflexivity. Qed.

(** X14.  From a non-empty list of expirations the scheduler of
    [api/index.js] picks between one and four targets, all of them among
    the expirations and in ascending order.  When some expiration is not
    before today, the targets are not before today either and are the
    earliest such expirations; when all are before today, the single target
    is the latest expiration. *)
Theorem api_targets (clock : nat -> R) (startOfDay : R -> R)
    (exps : list R) (k : nat) :
  exps <> [] ->
  let today := startOfDay (clock k) in
  let targets := fst (Api.targetsOf clock startOfDay exps k) in
  (1 <= List.length targets <= 4)%nat
  /\ (forall t, In t targets -> In t exps)
  /\ StronglySorted Rle targets
  /\ ((exists e, In e exps /\ e >= today) ->
      (forall t, In t targets -> t >= today)
      /\ forall e, In e exps -> e >= today ->
           In e targets
           \/ (List.length targets = 4%nat
               /\ forall t, In t targets -> t <= e))
  /\ ((forall e, In e exps -> e < today) ->
      exists latest,
        targets = [latest] /\ In latest exps
        /\ forall e, In e exps -> e <= latest).
Proof.
  intros Hne today targets. subst targets.
  rewrite Api_targetsOf_unfold. cbv zeta. fold today.
  set (sorted := js_sort (fun a b => Some (a - b)) exps).
  set (future := filter (fun exp => Num.geb exp today) sorted).
  assert (Hsorted : StronglySorted Rle sorted) by apply sort_numbers_sorted.
  assert (Hin : forall x, In x sorted <-> In x exps)
    by (intros x; apply js_sort_In).
  assert (Hlen : List.length sorted = List.length exps)
    by (symmetry; apply Permutation_length, js_sort_permutation).
  assert (Hnonempty : sorted <> []).
  { intros E. rewrite E in Hlen. destruct exps; [congruence | discriminate]. }
  assert (Hfuture : forall x, In x future <-> In x exps /\ x >= today).
  { intros x. unfold future. rewrite filter_In, Hin, geb_true_iff. tauto. }
  destruct (firstn_sorted 4 future (filter_sorted _ _ Hsorted))
    as [Hfirst Horder].
  assert (Hpos : Nat.ltb 0 (List.length sorted) = true).
  { apply Nat.ltb_lt. destruct sorted; [congruence | simpl; lia]. }
  rewrite Hpos, andb_true_r.
  destruct (last_sorted sorted 0 Hsorted Hnonempty) as [Hlast Hmax].
  destruct (firstn 4 future) as [| t ts] eqn:Efirst.
  - assert (Hnofuture : future = []).
    { destruct future; [reflexivity | discriminate]. }
    simpl. repeat split.
    + lia.
    + lia.
    + intros t [<- | []]. now apply Hin.
    + constructor; constructor.
    + intros t [<- | []]. destruct H as (e & He & Hge).
      assert (In e future) by (apply Hfuture; tauto).
      rewrite Hnofuture in H. contradiction.
    + intros e He Hge. assert (In e future) by (apply Hfuture; tauto).
      rewrite Hnofuture in H0. contradiction.
    + intros _. exists (last sorted 0). split; [reflexivity |].
      split; [now apply Hin |]. intros e He. apply Hmax. now apply Hin.
  - assert (Hbound : (List.length (firstn 4 future) <= 4)%nat)
      by apply firstn_le_length.
    rewrite Efirst in Hbound. simpl Nat.eqb. cbv iota.
    assert (Hsub : forall x, In x (t :: ts) -> In x future).
    { intros x Hx. rewrite <- Efirst in Hx. eapply in_firstn; eauto. }
    repeat split.
    + simpl. lia.
    + exact Hbound.
    + intros x Hx. apply Hsub, Hfuture in Hx. tauto.
    + exact Hfirst.
    + intros x Hx. apply Hsub, Hfuture in Hx. tauto.
    + intros e He Hge.
      assert (Hef : In e future) by (apply Hfuture; tauto).
      rewrite <- (firstn_skipn 4 future) in Hef.
      apply in_app_or in Hef. destruct Hef as [Hef | Hef].
      * left. now rewrite <- Efirst.
      * right. split.
        -- rewrite <- Efirst. apply firstn_length_le.
           destruct (Nat.le_gt_cases 4 (List.length future)) as [Hl4 | Hl4];
             [exact Hl4 |].
           rewrite skipn_all2 in Hef by lia. contradiction.
        -- intros x Hx. apply Horder; [exact Hx | exact Hef].
    + intros Hpast. exfalso.
      assert (In t future) by (apply Hsub; now left).
      apply Hfuture in H. destruct H as [Ht Hge].
      specialize (Hpast t Ht). lra.
Qed.

Lemma api_targets_witness :
  [Sample.expiry] <> []
  /\ (1 <= List.length
             (fst (Api.targetsOf Sample.clock Sample.startOfDay
                     [Sample.expiry] 0%nat)) <= 4)%nat.
Proof.
  assert (Hne : [Sample.expiry] <> []) by discriminate.
  split; [exact Hne |].
  apply (api_targets Sample.clock Sample.startOfDay [Sample.expiry] 0%nat
           Hne).
Defined.

Lemma minOf_spec (d : R) (l : list R) :
  In (Client.minOf d l) (d :: l)
  /\ forall x, In x (d :: l) -> Client.minOf d l <= x.
Proof.
  unfold Client.minOf. revert d. induction l as [| a l IH]; intros d.
  - simpl. split; [now left |]. intros x [<- | []]. lra.
  - simpl fold_left. destruct (IH (Rmin d a)) as [Hin Hle]. split.
    + destruct Hin as [Heq | Hin]; [| right; now right].
      rewrite <- Heq. unfold Rmin. destruct (Rle_dec d a);
        [now left | right; now left].
    + intros x Hx.
      assert (Hm : fold_left Rmin l (Rmin d a) <= Rmin d a)
        by (apply Hle; now left).
      pose proof (Rmin_l d a). pose proof (Rmin_r d a).
      destruct Hx as [<- | [<- | Hx]]; try lra.
      apply Hle. now right.
Qed.

(** The earliest expiration within the week from [nowMs], the earliest of
    all when there is none. *)
Lemma currentTarget_spec (nowMs : R) (exps : list R) :
  exps <> [] ->
  let inWeek := fun d => nowMs <= d <= nowMs + 7 * 24 * 3600 * 1000 in
  let withinWeek :=
    filter (fun d => Num.geb d nowMs
                     && Num.leb d (nowMs + 7 * 24 * 3600 * 1000)) exps in
  let current :=
    match withinWeek with
    | d :: l => Client.minOf d l
    | [] => match exps with
            | d :: l => Client.minOf d l
            | [] => 0
            end
    end in
  In current exps
  /\ ((exists e, In e exps /\ inWeek e) ->
      inWeek current /\ forall e, In e exps -> inWeek e -> current <= e)
  /\ ((forall e, In e exps -> ~ inWeek e) ->
      forall e, In e exps -> current <= e).
Proof.
  intros Hne inWeek withinWeek current.
  assert (Hw : forall x, In x withinWeek <-> In x exps /\ inWeek x).
  { intros x. unfold withinWeek, inWeek.
    rewrite filter_In, andb_true_iff, geb_true_iff, leb_true_iff.
    split; intros [H1 H2]; (split; [exact H1 | lra]). }
  subst current. destruct withinWeek as [| d l] eqn:E.
  - destruct exps as [| d l]; [congruence |].
    destruct (minOf_spec d l) as [Hin Hle].
    split; [exact Hin |]. split.
    + intros (e & He & Hwe). exfalso. apply (proj2 (Hw e)). tauto.
    + intros _ e He. now apply Hle.
  - destruct (minOf_spec d l) as [Hin Hle].
    apply Hw in Hin. destruct Hin as [Hin Hweek].
    split; [exact Hin |]. split.
    + intros _. split; [exact Hweek |].
      intros e He Hwe. apply Hle. apply Hw. tauto.
    + intros Hnone. exfalso. now apply (Hnone _ Hin).
Qed.

Lemma Client_targetsOf_unfold (clock : nat -> R) (exps : list R) (k : nat) :
  let nowMs := clock k in
  let withinWeek :=
    filter (fun d => Num.geb d nowMs
                     && Num.leb d (nowMs + 7 * 24 * 3600 * 1000)) exps in
  let current :=
    match withinWeek with
    | d :: l => Client.minOf d l
    | [] => match exps with
            | d :: l => Client.minOf d l
            | [] => 0
            end
    end in
  fst (Client.targetsOf clock exps k)
  = current
    :: match filter (fun t => Num.gtb t current) exps with
       | t :: l => [Client.minOf t l]
       | [] => []
       end.
Proof.
  cbv zeta. unfold Client.targetsOf, bind, ret, Date_now. simpl fst.
  destruct (filter (fun t => Num.gtb t _) exps); reflexivity.
Qed.

(** X15.  From a non-empty list of expirations the scheduler of the other
    copy picks one or two targets.  The first is the earliest expiration
    within seven days of now or, when no expiration falls in that window,
    the earliest expiration of all, past ones included.  A second target is
    there exactly when some expiration is later than the first, and is then
    the earliest of those. *)
Theorem client_targets (clock : nat -> R) (exps : list R) (k : nat) :
  exps <> [] ->
  let nowMs := clock k in
  let inWeek := fun d => nowMs <= d <= nowMs + 7 * 24 * 3600 * 1000 in
  exists current rest,
    fst (Client.targetsOf clock exps k) = current :: rest
    /\ In current exps
    /\ ((exists e, In e exps /\ inWeek e) ->
        inWeek current /\ forall e, In e exps -> inWeek e -> current <= e)
    /\ ((forall e, In e exps -> ~ inWeek e) ->
        forall e, In e exps -> current <= e)
    /\ ((forall e, In e exps -> e <= current) -> rest = [])
    /\ ((exists e, In e exps /\ current < e) ->
        exists next,
          rest = [next] /\ In next exps /\ current < next
          /\ forall e, In e exps -> current < e -> next <= e).
Proof.
  intros Hne nowMs inWeek.
  rewrite Client_targetsOf_unfold. cbv zeta. fold nowMs.
  destruct (currentTarget_spec nowMs exps Hne) as (Hin & Hweek & Hnone).
  set (current := match filter _ exps with
                  | d :: l => Client.minOf d l
                  | [] => _
                  end) in *.
  assert (Ha : forall x, In x (filter (fun t => Num.gtb t current) exps)
                         <-> In x exps /\ current < x).
  { intros x. rewrite filter_In, gtb_true_iff.
    split; intros [H1 H2]; (split; [exact H1 | lra]). }
  eexists. eexists. split; [reflexivity |].
  split; [exact Hin |]. split; [exact Hweek |]. split; [exact Hnone |].
  destruct (filter (fun t => Num.gtb t current) exps) as [| t l].
  - split; [reflexivity |].
    intros (e & He & Hlt). exfalso. apply (proj2 (Ha e)). tauto.
  - destruct (minOf_spec t l) as [Hmin Hle].
    apply Ha in Hmin. destruct Hmin as [Hmin Hlt]. split.
    + intros Hall. specialize (Hall _ Hmin). lra.
    + intros _. exists (Client.minOf t l). split; [reflexivity |].
      split; [exact Hmin |]. split; [exact Hlt |].
      intros e He Hce. apply Hle. apply Ha. tauto.
Qed.

Lemma client_targets_witness :
  [Sample.expiry] <> []
  /\ exists current rest,
       fst (Client.targetsOf Sample.clock [Sample.expiry] 0%nat)
       = current :: rest
       /\ In current [Sample.expiry].
Proof.
  assert (Hne : [Sample.expiry] <> []) by discriminate.
  split; [exact Hne |].
  destruct (client_targets Sample.clock [Sample.expiry] 0%nat Hne)
    as (current & rest & Heq & Hin & _).
  exists current, rest. split; [exact Heq | exact Hin].
Defined.

(** ** Failing and succeeding requests *)

Section LoopOutcomes.
Context {C : Type}.
Variable strike : C -> R.
Variable meetsTarget : C -> bool.
Variable goalScore : C -> Text.
Variable reason : C -> list Piece.
Variable mapOption : R -> Raw.t -> Clocked C.
Variables otmLow otmHigh : R.
Variable chain : R -> Fetched (option Opt.t).

Lemma analyse_returns (targets : list R)
    (results rs : list (ExpirationResult C)) (k : nat) :
  fst (analyse strike meetsTarget goalScore reason mapOption otmLow otmHigh
         chain targets results k) = Returns rs ->
  forall target, In target targets ->
    exists entry, chain target = Returns entry.
Proof.
  revert results k. induction targets as [| t rest IH];
    intros results k Hrs target Hin; [destruct Hin |].
  simpl in Hrs. destruct (chain t) as [m | [opt |]] eqn:Et.
  - discriminate.
  - unfold bind in Hrs.
    destruct (selectExpiration _ _ _ _ _ _ _ t opt k) as [r k1].
    destruct Hin as [<- | Hin]; [eauto | eapply IH; eauto].
  - destruct Hin as [<- | Hin]; [eauto | eapply IH; eauto].
Qed.

(** The first provider call that throws ends the loop with its message,
    whatever was collected before. *)
Lemma analyse_throws (before after : list R) (target : R) (message : string)
    (results : list (ExpirationResult C)) (k : nat) :
  (forall t, In t before -> exists entry, chain t = Returns entry) ->
  chain target = Throws message ->
  fst (analyse strike meetsTarget goalScore reason mapOption otmLow otmHigh
         chain (before ++ target :: after) results k) = Throws message.
Proof.
  revert results k. induction before as [| t before IH];
    intros results k Hbefore Hthrow; simpl.
  - now rewrite Hthrow.
  - destruct (Hbefore t (or_introl eq_refl)) as [entry Hentry].
    rewrite Hentry. destruct entry as [opt |].
    + unfold bind.
      destruct (selectExpiration _ _ _ _ _ _ _ t opt k) as [r k1].
      apply IH; [| exact Hthrow]. intros t' Ht'. apply Hbefore. now right.
    + apply IH; [| exact Hthrow]. intros t' Ht'. apply Hbefore. now right.
Qed.
End LoopOutcomes.

(** X16.  A request to [/api/options-weeks] succeeds exactly when the
    symbol is not empty, the quote returns a price that is a non-zero
    number, the provider returns at least one expiration, and no chain
    request for a target throws.  This holds for both copies. *)
Theorem options_weeks_succeeds_iff :
  (forall yf clock startOfDay symbol,
     (exists body, Api.optionsWeeks yf clock startOfDay symbol = Json body)
     <-> symbol <> ""%string
         /\ exists price exps,
              quoteSummary yf symbol = Returns price
              /\ truthy price = true
              /\ expirationDates yf symbol = Returns exps
              /\ exps <> []
              /\ forall target,
                   In target
                     (fst (Api.targetsOf clock startOfDay exps 0%nat)) ->
                   exists entry, optionChain yf symbol target = Returns entry)
  /\ (forall yf clock symbol,
        (exists body, Client.optionsWeeks yf clock symbol = Json body)
        <-> symbol <> ""%string
            /\ exists price exps,
                 quoteSummary yf symbol = Returns price
                 /\ truthy price = true
                 /\ expirationDates yf symbol = Returns exps
                 /\ exps <> []
                 /\ forall target,
                      In target (fst (Client.targetsOf clock exps 0%nat)) ->
                      exists entry,
                        optionChain yf symbol target = Returns entry).
Proof.
  split.
  - intros yf clock startOfDay symbol. split.
    + intros [body Hjson].
      assert (Hsym : symbol <> ""%string).
      { intros ->. unfold Api.optionsWeeks in Hjson. simpl in Hjson.
        discriminate. }
      assert (Hexps : forall exps,
                 expirationDates yf symbol = Returns exps -> exps <> []).
      { intros exps He ->. unfold Api.optionsWeeks in Hjson.
        apply String.eqb_neq in Hsym. rewrite Hsym, He in Hjson.
        destruct (quoteSummary yf symbol) as [m | p]; [discriminate |].
        destruct (truthy p); discriminate. }
      apply Api_optionsWeeks_Json in Hjson.
      destruct Hjson as (price & exps & Hq & Hp & He & _ & _ & _ & Hloop).
      split; [exact Hsym |]. exists price, exps.
      repeat split; auto. eapply analyse_returns; eauto.
    + intros (Hsym & price & exps & Hq & Hp & He & Hne & Hchain).
      destruct (Api_optionsWeeks_succeeds yf clock startOfDay symbol price
                  exps Hsym Hq Hp He Hne Hchain) as (results & Hjson & _).
      eauto.
  - intros yf clock symbol. split.
    + intros [body Hjson].
      assert (Hsym : symbol <> ""%string).
      { intros ->. unfold Client.optionsWeeks in Hjson. simpl in Hjson.
        discriminate. }
      assert (Hexps : forall exps,
                 expirationDates yf symbol = Returns exps -> exps <> []).
      { intros exps He ->. unfold Client.optionsWeeks in Hjson.
        apply String.eqb_neq in Hsym. rewrite Hsym, He in Hjson.
        destruct (quoteSummary yf symbol) as [m | p]; [discriminate |].
        destruct (truthy p); discriminate. }
      apply Client_optionsWeeks_Json in Hjson.
      destruct Hjson as (price & exps & Hq & Hp & He & _ & _ & _ & Hloop).
      split; [exact Hsym |]. exists price, exps.
      repeat split; auto. eapply analyse_returns; eauto.
    + intros (Hsym & price & exps & Hq & Hp & He & Hne & Hchain).
      destruct (Client_optionsWeeks_succeeds yf clock symbol price exps
                  Hsym Hq Hp He Hne Hchain) as (results & Hjson & _).
      eauto.
Qed.

(** X17.  When the chain request of one target throws and those of the
    targets before it return, the whole request fails with status 500 and
    the thrown message; the results already built for the earlier targets
    are not published. *)
Theorem throwing_chain_fails_request :
  (forall yf clock startOfDay symbol price exps before target after message,
     symbol <> ""%string ->
     quoteSummary yf symbol = Returns price ->
     truthy price = true ->
     expirationDates yf symbol = Returns exps ->
     exps <> [] ->
     fst (Api.targetsOf clock startOfDay exps 0%nat)
     = before ++ target :: after ->
     (forall t, In t before ->
        exists entry, optionChain yf symbol t = Returns entry) ->
     optionChain yf symbol target = Throws message ->
     Api.optionsWeeks yf clock startOfDay symbol
     = Failure 500 "Failed to fetch weekly options" (Some message))
  /\ (forall yf clock symbol price exps before target after message,
        symbol <> ""%string ->
        quoteSummary yf symbol = Returns price ->
        truthy price = true ->
        expirationDates yf symbol = Returns exps ->
        exps <> [] ->
        fst (Client.targetsOf clock exps 0%nat) = before ++ target :: after ->
        (forall t, In t before ->
           exists entry, optionChain yf symbol t = Returns entry) ->
        optionChain yf symbol target = Throws message ->
        Client.optionsWeeks yf clock symbol
        = Failure 500 "Failed to fetch weekly options" (Some message)).
Proof.
  split.
  - intros yf clock startOfDay symbol price exps before target after message
      Hsym Hq Hp He Hne Ht Hbefore Hthrow.
    unfold Api.optionsWeeks.
    apply String.eqb_neq in Hsym. rewrite Hsym, Hq, Hp, He.
    cbv [negb]; cbv iota.
    destruct exps as [| e exps]; [congruence |].
    change (Nat.eqb (List.length (e :: exps)) 0) with false. cbv iota.
    destruct (Api.targetsOf clock startOfDay (e :: exps) 0%nat)
      as [targets k] eqn:Et.
    simpl in Ht. subst targets.
    pose proof (analyse_throws Api.Scored.strike Api.Scored.meetsTarget
                  Api.Scored.goalScore Api.bestOptionReason
                  (Api.mapOption clock (number price))
                  (number price * 1.001) (number price * 1.10)
                  (optionChain yf symbol) before after target message [] k
                  Hbefore Hthrow) as Hloop.
    case_loop results k' Eloop. simpl in Hloop. now subst results.
  - intros yf clock symbol price exps before target after message
      Hsym Hq Hp He Hne Ht Hbefore Hthrow.
    unfold Client.optionsWeeks.
    apply String.eqb_neq in Hsym. rewrite Hsym, Hq, Hp, He.
    cbv [negb]; cbv iota.
    destruct exps as [| e exps]; [congruence |].
    change (Nat.eqb (List.length (e :: exps)) 0) with false. cbv iota.
    destruct (Client.targetsOf clock (e :: exps) 0%nat)
      as [targets k] eqn:Et.
    simpl in Ht. subst targets.
    pose proof (analyse_throws Client.Scored.strike Client.Scored.meetsTarget
                  Client.Scored.goalScore Client.bestOptionReason
                  (Client.mapOption clock (number price))
                  (number price * 1.001) (number price * 1.10)
                  (optionChain yf symbol) before after target message [] k
                  Hbefore Hthrow) as Hloop.
    case_loop results k' Eloop. simpl in Hloop. now subst results.
Qed.

Lemma Outage_targets :
  fst (Api.targetsOf Sample.clock Sample.startOfDay
         [Sample.expiry; Outage.later] 0%nat)
  = [Sample.expiry; Outage.later].
Proof.
  rewrite Api_targetsOf_unfold. cbv zeta.
  unfold js_sort, fold_right, insert, comesAfter, Sample.clock,
    Sample.startOfDay, Sample.expiry, Outage.later.
  settle_comparisons. unfold filter. settle_comparisons. reflexivity.
Qed.

Lemma throwing_chain_fails_request_witness :
  Api.optionsWeeks Outage.yf Sample.clock Sample.startOfDay "XYZ"
  = Failure 500 "Failed to fetch weekly options" (Some "socket hang up"%string).
Proof.
  apply (proj1 throwing_chain_fails_request Outage.yf Sample.clock
           Sample.startOfDay "XYZ"%string (Some 100)
           [Sample.expiry; Outage.later] [Sample.expiry] Outage.later []).
  - discriminate.
  - reflexivity.
  - apply truthy_Some. lra.
  - reflexivity.
  - discriminate.
  - exact Outage_targets.
  - intros t [<- | []]. unfold Outage.yf, optionChain.
    destruct (Req_dec_T Sample.expiry Sample.expiry); [eauto | congruence].
  - unfold Outage.yf, optionChain.
    destruct (Req_dec_T Outage.later Sample.expiry) as [E | E];
      [| reflexivity].
    unfold Outage.later, Sample.expiry in E. lra.
Defined.

(** ** A run with a missing entry

    Of three target expirations the first has no entry, the second has the
    sample entry and the third an entry without a call in the band. *)

Lemma Gaps_targets :
  fst (Api.targetsOf Sample.clock Sample.startOfDay Gaps.dates 0%nat)
  = Gaps.dates.
Proof.
  rewrite Api_targetsOf_unfold. cbv zeta.
  unfold Gaps.dates, js_sort, fold_right, insert, comesAfter, Sample.clock,
    Sample.startOfDay, Gaps.early, Sample.expiry, Outage.later.
  settle_comparisons. unfold filter. settle_comparisons. reflexivity.
Qed.

Lemma Gaps_chain (symbol : string) :
  optionChain Gaps.yf symbol Gaps.early = Returns None
  /\ optionChain Gaps.yf symbol Sample.expiry
     = Returns (Some (Sample.entry Sample.expiry))
  /\ optionChain Gaps.yf symbol Outage.later
     = Returns (Some (Gaps.farEntry Outage.later)).
Proof.
  unfold Gaps.yf, optionChain. repeat split.
  - destruct (Req_dec_T Gaps.early Sample.expiry) as [E | _];
      [unfold Gaps.early, Sample.expiry in E; lra |].
    destruct (Req_dec_T Gaps.early Outage.later) as [E | _];
      [unfold Gaps.early, Outage.later in E; lra | reflexivity].
  - destruct (Req_dec_T Sample.expiry Sample.expiry); [reflexivity | lra].
  - destruct (Req_dec_T Outage.later Sample.expiry) as [E | _];
      [unfold Outage.later, Sample.expiry in E; lra |].
    destruct (Req_dec_T Outage.later Outage.later); [reflexivity | lra].
Qed.

Lemma Gaps_entries (symbol : string) :
  entries (optionChain Gaps.yf symbol) Gaps.dates
  = [(Sample.expiry, Sample.entry Sample.expiry);
     (Outage.later, Gaps.farEntry Outage.later)].
Proof.
  destruct (Gaps_chain symbol) as (He & Hs & Hl).
  unfold Gaps.dates, entries. rewrite He, Hs, Hl. reflexivity.
Qed.

Lemma Gaps_band :
  filter (inBand (100 * 1.001) (100 * 1.10)) [Gaps.call150] = [].
Proof.
  unfold filter, inBand, Gaps.call150, Raw.strike.
  settle_comparisons. reflexivity.
Qed.

Lemma Gaps_Client_targets :
  fst (Client.targetsOf Sample.clock Gaps.dates 0%nat)
  = [Gaps.early; Sample.expiry].
Proof.
  rewrite Client_targetsOf_unfold. cbv zeta.
  assert (Hweek :
            filter (fun d => Num.geb d (Sample.clock 0%nat)
                             && Num.leb d (Sample.clock 0%nat
                                           + 7 * 24 * 3600 * 1000))
              Gaps.dates
            = [Gaps.early; Sample.expiry]).
  { unfold Gaps.dates, filter, Sample.clock, Gaps.early, Sample.expiry,
      Outage.later.
    settle_comparisons. reflexivity. }
  rewrite Hweek.
  assert (Hcurrent : Client.minOf Gaps.early [Sample.expiry] = Gaps.early).
  { unfold Client.minOf, fold_left, Gaps.early, Sample.expiry.
    apply Rmin_left. lra. }
  rewrite Hcurrent.
  assert (Hafter : filter (fun t => Num.gtb t Gaps.early) Gaps.dates
                   = [Sample.expiry; Outage.later]).
  { unfold Gaps.dates, filter, Gaps.early, Sample.expiry, Outage.later.
    settle_comparisons. reflexivity. }
  rewrite Hafter.
  assert (Hnext : Client.minOf Sample.expiry [Outage.later] = Sample.expiry).
  { unfold Client.minOf, fold_left, Sample.expiry, Outage.later.
    apply Rmin_left. lra. }
  rewrite Hnext. reflexivity.
Qed.

Lemma Gaps_Client_entries (symbol : string) :
  entries (optionChain Gaps.yf symbol) [Gaps.early; Sample.expiry]
  = [(Sample.expiry, Sample.entry Sample.expiry)].
Proof.
  destruct (Gaps_chain symbol) as (He & Hs & _).
  unfold entries. rewrite He, Hs. reflexivity.
Qed.

Lemma missing_entry_skips_expiration_witness :
  (fst (Api.targetsOf Sample.clock Sample.startOfDay Gaps.dates 0%nat)
   = [Gaps.early; Sample.expiry; Outage.later]
   /\ optionChain Gaps.yf "XYZ" Gaps.early = Returns None
   /\ exists body first second k,
        Api.optionsWeeks Gaps.yf Sample.clock Sample.startOfDay "XYZ"
        = Json body
        /\ expirations body = [first; second]
        /\ first
           = fst (selectExpiration Api.Scored.strike Api.Scored.meetsTarget
                    Api.Scored.goalScore Api.bestOptionReason
                    (Api.mapOption Sample.clock 100) (100 * 1.001)
                    (100 * 1.10) Sample.expiry (Sample.entry Sample.expiry)
                    k)
        /\ map Api.Scored.strike (calls first) = [101; 105]
        /\ hasQualifyingOptions first = true
        /\ emptyResult second)
  /\ (fst (Client.targetsOf Sample.clock Gaps.dates 0%nat)
      = [Gaps.early; Sample.expiry]
      /\ exists body first k,
           Client.optionsWeeks Gaps.yf Sample.clock "XYZ" = Json body
           /\ expirations body = [first]
           /\ first
              = fst (selectExpiration Client.Scored.strike
                       Client.Scored.meetsTarget Client.Scored.goalScore
                       Client.bestOptionReason
                       (Client.mapOption Sample.clock 100) (100 * 1.001)
                       (100 * 1.10) Sample.expiry
                       (Sample.entry Sample.expiry) k)
           /\ map Client.Scored.strike (calls first) = [101; 105]
           /\ hasQualifyingOptions first = true).
Proof.
  assert (Hs : "XYZ"%string <> ""%string) by discriminate.
  assert (Hp : truthy (Some 100) = true) by (apply truthy_Some; lra).
  assert (Hne : Gaps.dates <> []) by discriminate.
  destruct (Gaps_chain "XYZ") as (He & Hm & Hl).
  split.
  - rewrite Gaps_targets.
    split; [reflexivity |]. split; [exact He |].
    destruct (proj1 missing_entry_skips_expiration Gaps.yf Sample.clock
                Sample.startOfDay "XYZ"%string (Some 100) Gaps.dates
                Hs eq_refl Hp eq_refl Hne)
      as (body & Hjson & _ & Hall).
    + rewrite Gaps_targets.
      intros target [<- | [<- | [<- | []]]]; eauto.
    + rewrite Gaps_targets, Gaps_entries in Hall.
      destruct (Api_optionsWeeks_Json _ _ _ _ _ Hjson)
        as (price & exps & Hq & _ & _ & Hcp & Hlo & Hhi & _).
      assert (Hprice : price = Some 100)
        by (unfold Gaps.yf, quoteSummary in Hq; congruence).
      subst price. unfold number in Hcp, Hlo, Hhi.
      rewrite Hcp, Hlo, Hhi in Hall.
      destruct (expirations body) as [| first [| second [| third rest]]]
        eqn:Eres;
        try (exfalso; apply Forall2_length in Hall; discriminate Hall).
      apply Forall2_cons_iff in Hall. destruct Hall as [[[k Hfirst] _] Hall].
      apply Forall2_cons_iff in Hall. destruct Hall as [[_ Hempty] _].
      cbn [fst snd] in Hfirst, Hempty.
      exists body, first, second, k.
      split; [exact Hjson |]. split; [exact Eres |]. split; [exact Hfirst |].
      pose proof (Sample_Api_selected k) as (Hcalls & _ & Hqual).
      cbv zeta in Hcalls, Hqual. rewrite <- Hfirst in Hcalls, Hqual.
      split; [rewrite Hcalls; reflexivity |]. split; [exact Hqual |].
      apply Hempty. exact Gaps_band.
  - rewrite Gaps_Client_targets. split; [reflexivity |].
    destruct (proj2 missing_entry_skips_expiration Gaps.yf Sample.clock
                "XYZ"%string (Some 100) Gaps.dates
                Hs eq_refl Hp eq_refl Hne)
      as (body & Hjson & _ & Hall).
    + rewrite Gaps_Client_targets.
      intros target [<- | [<- | []]]; eauto.
    + rewrite Gaps_Client_targets, Gaps_Client_entries in Hall.
      destruct (Client_optionsWeeks_Json _ _ _ _ Hjson)
        as (price & exps & Hq & _ & _ & Hcp & Hlo & Hhi & _).
      assert (Hprice : price = Some 100)
        by (unfold Gaps.yf, quoteSummary in Hq; congruence).
      subst price. unfold number in Hcp, Hlo, Hhi.
      rewrite Hcp, Hlo, Hhi in Hall.
      destruct (expirations body) as [| first [| second rest]] eqn:Eres;
        try (exfalso; apply Forall2_length in Hall; discriminate Hall).
      apply Forall2_cons_iff in Hall. destruct Hall as [[[k Hfirst] _] _].
      cbn [fst snd] in Hfirst.
      exists body, first, k.
      split; [exact Hjson |]. split; [exact Eres |]. split; [exact Hfirst |].
      pose proof (Sample_Client_selected k) as (Hcalls & _ & Hqual).
      cbv zeta in Hcalls, Hqual. rewrite <- Hfirst in Hcalls, Hqual.
      split; [rewrite Hcalls; reflexivity | exact Hqual].
Defined.

(** ** The current-week handler *)

Lemma CurrentWeek_mapOption_id (o : Raw.t) : CurrentWeek.mapOption o = o.
Proof. destruct o. reflexivity. Qed.

Lemma CurrentWeek_map_id (l : list Raw.t) :
  map CurrentWeek.mapOption l = l.
Proof.
  induction l as [| o l IH]; simpl; [reflexivity |].
  now rewrite CurrentWeek_mapOption_id, IH.
Qed.

(** X18.  [/api/options] of the other copy answers for the first target
    that copy's scheduler picks.  It succeeds exactly when the symbol is not
    empty, the provider returns at least one expiration and an entry for
    that target; the calls and puts of the answer are then the provider's,
    unchanged and in the provider's order, and the symbol is the provider's
    underlying symbol when it gives one.  Without an entry the answer is
    404, where [/api/options-weeks] leaves the target out. *)
Theorem current_week_chain
    (yf : Provider) (underlyingSymbol : string -> R -> option string)
    (clock : nat -> R) (symbol : string) :
  let response := CurrentWeek.options yf underlyingSymbol clock symbol in
  (forall body,
     response = Json body <->
     symbol <> ""%string
     /\ exists exps opt target,
          expirationDates yf symbol = Returns exps
          /\ exps <> []
          /\ hd_error (fst (Client.targetsOf clock exps 0%nat)) = Some target
          /\ optionChain yf symbol target = Returns (Some opt)
          /\ body
             = {| CurrentWeek.symbol :=
                    match underlyingSymbol symbol target with
                    | Some s => if String.eqb s "" then symbol else s
                    | None => symbol
                    end;
                  CurrentWeek.expiration :=
                    Math.floor
                      (or_default (Opt.expirationDate opt) target / 1000);
                  CurrentWeek.hasMiniOptions := Opt.hasMiniOptions opt;
                  CurrentWeek.calls :=
                    match Opt.calls opt with Some l => l | None => [] end;
                  CurrentWeek.puts :=
                    match Opt.puts opt with Some l => l | None => [] end |})
  /\ (forall exps target,
        symbol <> ""%string ->
        expirationDates yf symbol = Returns exps ->
        exps <> [] ->
        hd_error (fst (Client.targetsOf clock exps 0%nat)) = Some target ->
        optionChain yf symbol target = Returns None ->
        response
        = Failure 404 "No options for selected expiration" None).
Proof.
  intros response. subst response. unfold CurrentWeek.options.
  assert (Htarget : forall exps,
             hd_error (fst (Client.targetsOf clock exps 0%nat))
             = Some (fst (CurrentWeek.targetOf clock exps 0%nat))).
  { intros exps. rewrite Client_targetsOf_unfold. reflexivity. }
  split.
  - intros body. split.
    + destruct (String.eqb symbol "") eqn:Es; [discriminate |].
      apply String.eqb_neq in Es.
      destruct (expirationDates yf symbol) as [m | exps]; [discriminate |].
      destruct exps as [| e exps]; [discriminate |].
      change (Nat.eqb (List.length (e :: exps)) 0) with false. cbv iota.
      specialize (Htarget (e :: exps)).
      destruct (CurrentWeek.targetOf clock (e :: exps) 0%nat) as [target k].
      simpl fst in Htarget.
      destruct (optionChain yf symbol target) as [m | [opt |]] eqn:Ec;
        try discriminate.
      intros [= <-]. split; [exact Es |].
      exists (e :: exps), opt, target.
      rewrite !CurrentWeek_map_id.
      repeat split; auto. discriminate.
    + intros (Hs & exps & opt & target & He & Hne & Ht & Hc & ->).
      apply String.eqb_neq in Hs. rewrite Hs, He.
      destruct exps as [| e exps]; [congruence |].
      change (Nat.eqb (List.length (e :: exps)) 0) with false. cbv iota.
      assert (Ht' : fst (CurrentWeek.targetOf clock (e :: exps) 0%nat)
                    = target) by (rewrite Htarget in Ht; congruence).
      destruct (CurrentWeek.targetOf clock (e :: exps) 0%nat) as [t k]
        eqn:Et.
      rewrite ?Et in Ht'. cbn [fst] in Ht'. subst t.
      rewrite Hc, !CurrentWeek_map_id. reflexivity.
  - intros exps target Hs He Hne Ht Hc.
    apply String.eqb_neq in Hs. rewrite Hs, He.
    destruct exps as [| e exps]; [congruence |].
    change (Nat.eqb (List.length (e :: exps)) 0) with false. cbv iota.
    assert (Ht' : fst (CurrentWeek.targetOf clock (e :: exps) 0%nat)
                  = target) by (rewrite Htarget in Ht; congruence).
    destruct (CurrentWeek.targetOf clock (e :: exps) 0%nat) as [t k] eqn:Et.
    rewrite ?Et in Ht'. cbn [fst] in Ht'. subst t.
    now rewrite Hc.
Qed.

Lemma current_week_chain_witness :
  ("XYZ" <> "")%string
  /\ CurrentWeek.options Sample.yfWithoutEntries (fun _ _ => None)
       Sample.clock "XYZ"
     = Failure 404 "No options for selected expiration" None.
Proof.
  assert (Hs : "XYZ"%string <> ""%string) by discriminate.
  split; [exact Hs |].
  apply (proj2 (current_week_chain Sample.yfWithoutEntries
                  (fun _ _ => None) Sample.clock "XYZ"%string)
           [Sample.expiry] Sample.expiry Hs eq_refl).
  - discriminate.
  - now rewrite Sample_Client_targets.
  - reflexivity.
Defined.

(** ** The component's script *)

Lemma addLog_unfold (stamps : nat -> string) (message : string)
    (logs : list string) (k : nat) :
  let entry := ("[" ++ stamps k ++ "] " ++ message)%string in
  View.addLog stamps message logs k
  = (if Nat.ltb 20 (List.length (logs ++ [entry]))
     then tl (logs ++ [entry])
     else logs ++ [entry],
     Datatypes.S k).
Proof. reflexivity. Qed.

Lemma tl_app_last {A : Type} (l : list A) (x : A) :
  l <> [] -> tl (l ++ [x]) = tl l ++ [x].
Proof. destruct l; [congruence | reflexivity]. Qed.

(** X19.  [addLog] appends the stamped line and, once the log holds more
    than 20 lines, drops the oldest one: a log of at most 20 lines stays
    within 20 lines, keeps its lines in order, and always ends with the new
    line. *)
Theorem addLog_keeps_last_twenty (stamps : nat -> string) (message : string)
    (logs : list string) (k : nat) :
  (List.length logs <= 20)%nat ->
  let entry := ("[" ++ stamps k ++ "] " ++ message)%string in
  let logs' := fst (View.addLog stamps message logs k) in
  (List.length logs' <= 20)%nat
  /\ ((List.length logs < 20)%nat -> logs' = logs ++ [entry])
  /\ (List.length logs = 20%nat -> logs' = tl logs ++ [entry])
  /\ last logs' ""%string = entry.
Proof.
  intros Hlen entry logs'. subst logs'. rewrite addLog_unfold. cbv zeta.
  fold entry. simpl fst.
  assert (Happ : List.length (logs ++ [entry])
                 = Datatypes.S (List.length logs))
    by (rewrite length_app; simpl; lia).
  destruct (Nat.ltb 20 (List.length (logs ++ [entry]))) eqn:E.
  - apply Nat.ltb_lt in E.
    assert (Hne : logs <> [])
      by (destruct logs; simpl in *; [lia | discriminate]).
    rewrite tl_app_last by exact Hne.
    repeat split.
    + rewrite length_app. simpl. destruct logs; simpl in *; lia.
    + intros. lia.
    + apply last_last.
  - apply Nat.ltb_ge in E. repeat split.
    + lia.
    + intros. lia.
    + apply last_last.
Qed.

Lemma addLog_keeps_last_twenty_witness :
  (List.length ["[09:00] a"; "[09:01] b"]%string <= 20)%nat
  /\ fst (View.addLog (fun _ => "09:02"%string) "c"
            ["[09:00] a"; "[09:01] b"]%string 0%nat)
     = ["[09:00] a"; "[09:01] b"; "[09:02] c"]%string.
Proof.
  assert (Hlen : (List.length ["[09:00] a"; "[09:01] b"]%string <= 20)%nat)
    by (simpl; lia).
  split; [exact Hlen |].
  destruct (addLog_keeps_last_twenty (fun _ => "09:02"%string) "c"
              ["[09:00] a"; "[09:01] b"]%string 0%nat Hlen)
    as (_ & Hshort & _).
  apply Hshort. simpl. lia.
Defined.

Lemma addLog_length (stamps : nat -> string) (message : string)
    (logs : list string) (k : nat) :
  (List.length logs <= 20)%nat ->
  (List.length (fst (View.addLog stamps message logs k)) <= 20)%nat.
Proof.
  intros H. rewrite addLog_unfold. cbv zeta. simpl fst.
  assert (Happ : forall e,
             List.length (logs ++ [e]) = Datatypes.S (List.length logs))
    by (intros e; rewrite length_app; simpl; lia).
  match goal with
  | |- context [logs ++ [?e]] =>
      specialize (Happ e); set (l := logs ++ [e]) in *
  end.
  destruct (Nat.ltb 20 (List.length l)) eqn:E.
  - destruct l; simpl in *; lia.
  - now apply Nat.ltb_ge in E.
Qed.

Lemma messageOf_not_empty (message : string) :
  View.messageOf message <> ""%string.
Proof.
  unfold View.messageOf. destruct (String.eqb message "") eqn:E.
  - discriminate.
  - now apply String.eqb_neq.
Qed.

(** One log line of the run, kept with its length bound. *)
Ltac log_step :=
  match goal with
  | |- context [View.addLog ?s ?m ?l ?k] =>
      let H := fresh "Hlog" in
      pose proof (addLog_length s m l k) as H;
      destruct (View.addLog s m l k) as [? ?];
      cbn [fst] in H; cbv iota beta
  end.

Section ComponentFacts.
Context {Quote Weekly Options : Type}.
Variable expirationsCount : Weekly -> nat.
Variable stamps : nat -> string.

Let run (sym : string)
    (responses : Fetched (View.HttpResponse Quote * View.HttpResponse Weekly))
    (st : View.State (Quote := Quote) (Weekly := Weekly)
                     (Options := Options)) (k : nat) :=
  fst (View.fetchData expirationsCount stamps sym responses st k).

(** X20.  However the two requests end, [fetchData] leaves the component
    with [loading] false, the symbol untouched and [options] empty, keeps a
    log of at most 20 lines within 20 lines, and shows an error exactly
    when it shows no weekly options; weekly options are never shown without
    a quote. *)
Theorem fetchData_settles sym responses st k :
  let st' := run sym responses st k in
  View.loading st' = false
  /\ View.symbol st' = View.symbol st
  /\ View.options st' = None
  /\ ((List.length (View.logs st) <= 20)%nat ->
      (List.length (View.logs st') <= 20)%nat)
  /\ (View.error st' = ""%string <-> View.weeklyOptions st' <> None)
  /\ (View.weeklyOptions st' <> None -> View.quote st' <> None).
Proof.
  cbv zeta. unfold run, View.fetchData, View.failed, bind, ret.
  pose proof messageOf_not_empty as Hmsg.
  destruct (String.eqb sym ""); destruct responses as [m | [qRes woRes]].
  all: repeat log_step;
    repeat match goal with
      | |- context [View.ok ?r] => destruct (View.ok r); cbn [negb]; cbv iota
      | |- context [View.text ?r] => destruct (View.text r); cbv iota beta
      | |- context [View.json ?r] => destruct (View.json r); cbv iota beta
      | _ => log_step
      end;
    cbn [fst View.loading View.symbol View.options View.logs View.error
         View.weeklyOptions View.quote];
    repeat split; intros; try discriminate; try congruence; auto;
    try (exfalso; eapply Hmsg; eassumption);
    cbn [View.logs] in *; auto 12.
Qed.
End ComponentFacts.

Section ComponentOutcomes.
Context {Quote Weekly Options : Type}.
Variable expirationsCount : Weekly -> nat.
Variable stamps : nat -> string.

Let run (sym : string)
    (responses : Fetched (View.HttpResponse Quote * View.HttpResponse Weekly))
    (st : View.State (Quote := Quote) (Weekly := Weekly)
                     (Options := Options)) (k : nat) :=
  fst (View.fetchData expirationsCount stamps sym responses st k).

(** X21.  After [fetchData] the component shows a quote and weekly options
    exactly when the symbol is not empty, both requests were answered with
    an ok status and both bodies parsed; what it shows is then those two
    bodies.  A quote on screen always is the body of this run's quote
    response, never one left from an earlier run. *)
Theorem fetchData_shows_fresh_data sym responses st k
    (q : Quote) (w : Weekly) :
  let st' := run sym responses st k in
  (View.quote st' = Some q /\ View.weeklyOptions st' = Some w
   <-> sym <> ""%string
       /\ exists qRes woRes,
            responses = Returns (qRes, woRes)
            /\ View.ok qRes = true /\ View.ok woRes = true
            /\ View.json qRes = Returns q /\ View.json woRes = Returns w)
  /\ (View.quote st' = Some q ->
      exists qRes woRes,
        responses = Returns (qRes, woRes) /\ View.json qRes = Returns q).
Proof.
  cbv zeta. unfold run. split; [split |].
  - unfold View.fetchData, View.failed, bind, ret.
    destruct (String.eqb sym "") eqn:Es;
      destruct responses as [m | [qRes woRes]].
    all: repeat log_step;
      repeat match goal with
        | |- context [View.ok ?r] =>
            destruct (View.ok r) eqn:?; cbn [negb]; cbv iota
        | |- context [View.text ?r] => destruct (View.text r); cbv iota beta
        | |- context [View.json ?r] =>
            destruct (View.json r) eqn:?; cbv iota beta
        | _ => log_step
        end;
      cbn [fst View.weeklyOptions View.quote];
      intros [Hq Hw]; try discriminate.
    apply String.eqb_neq in Es. injection Hq as <-. injection Hw as <-.
    split; [exact Es |]. exists qRes, woRes. repeat split; assumption.
  - intros (Hs & qRes & woRes & -> & Hoq & How & Hjq & Hjw).
    apply String.eqb_neq in Hs.
    unfold View.fetchData, View.failed, bind, ret. rewrite Hs.
    repeat log_step. rewrite Hoq, How. cbn [negb]. cbv iota.
    rewrite Hjq, Hjw. repeat log_step. split; reflexivity.
  - unfold View.fetchData, View.failed, bind, ret.
    destruct (String.eqb sym "") eqn:Es;
      destruct responses as [m | [qRes woRes]].
    all: repeat log_step;
      repeat match goal with
        | |- context [View.ok ?r] =>
            destruct (View.ok r) eqn:?; cbn [negb]; cbv iota
        | |- context [View.text ?r] => destruct (View.text r); cbv iota beta
        | |- context [View.json ?r] =>
            destruct (View.json r) eqn:?; cbv iota beta
        | _ => log_step
        end;
      cbn [fst View.weeklyOptions View.quote];
      intros Hq; try discriminate.
    all: injection Hq as <-; exists qRes, woRes.
    all: split; [reflexivity | assumption].
Qed.

(** With an empty symbol [fetchData] does not look at any response:
    it ends with the error ['Enter a symbol'] and neither quote nor weekly
    options, whatever the requests would have returned. *)
Theorem fetchData_needs_symbol responses responses' st k :
  run "" responses st k = run "" responses' st k
  /\ View.error (run "" responses st k) = "Enter a symbol"%string
  /\ View.quote (run "" responses st k) = None
  /\ View.weeklyOptions (run "" responses st k) = None.
Proof. repeat split. Qed.
End ComponentOutcomes.

(** X22.  [sortedCalls] (and [sortedPuts], the same code) lists the
    contracts it is given in ascending order of strike, neither losing nor
    adding one, and is empty while there is no chain to show. *)
Theorem sortedCalls_sorted (calls : option (list Raw.t)) :
  sortedByStrike Raw.strike (View.sortedCalls calls)
  /\ Permutation (match calls with Some l => l | None => [] end)
       (View.sortedCalls calls)
  /\ View.sortedCalls None = [].
Proof.
  unfold View.sortedCalls. split; [| split].
  - unfold sortedByStrike.
    apply (js_sort_sorted _ (fun _ => True) Raw.strike).
    + intros a b _ _. unfold comesAfter. rewrite gtb_true_iff. lra.
    + apply Forall_forall. auto.
  - apply js_sort_permutation.
  - reflexivity.
Qed.

Lemma fetchData_settles_witness :
  let st :=
    {| View.symbol := "AAPL"%string;
       View.loading := false;
       View.error := ""%string;
       View.quote := @None nat;
       View.options := @None nat;
       View.weeklyOptions := @None nat;
       View.logs := [] |} in
  let st' :=
    fst (View.fetchData (fun w => w) (fun _ => "09:00"%string) "AAPL"
           (Throws "Failed to fetch") st 0%nat) in
  (List.length (View.logs st) <= 20)%nat
  /\ (List.length (View.logs st') <= 20)%nat
  /\ View.loading st' = false.
Proof.
  cbv zeta.
  assert (Hlen : (List.length (@nil string) <= 20)%nat) by (simpl; lia).
  split; [exact Hlen |].
  destruct (fetchData_settles (Options := nat) (fun w : nat => w)
              (fun _ => "09:00"%string) "AAPL"
              (@Throws (View.HttpResponse nat * View.HttpResponse nat)
                 "Failed to fetch")
              {| View.symbol := "AAPL"%string;
                 View.loading := false;
                 View.error := ""%string;
                 View.quote := @None nat;
                 View.options := @None nat;
                 View.weeklyOptions := @None nat;
                 View.logs := [] |} 0%nat)
    as (Hloading & _ & _ & Hlogs & _).
  split; [exact (Hlogs Hlen) | exact Hloading].
Defined.
